(** * Conversation orchestration of an agent node: a shallow embedding

    The development follows five modules of the application:
    - [components/V2AgentNode.tsx]: [handleSendMessage] and the controls of
      the form of the node.  The line numbers given for this module are those
      of [src/components/OptimizedWorkflowBackground.tsx], which holds it.
    - [services/llmService.ts]: the provider dispatcher.  Its line numbers are
      those of [src/services/arcLLMService.ts], which holds it.
    - [services/geminiService.ts]: the backend of Gemini.
    - [services/arcLLMService.ts]: the validators of Arc-LLM, its video
      generation and its grounding functions.
    - [components/panels/VideoGenerationConfigPanel.tsx]: what [handleSubmit]
      checks and passes to the dispatcher.

    JavaScript values are modelled as follows.  Strings are [string]: the
    bytes of the UTF-8 encoding of the text, as in the literals of this file;
    a string with an unpaired surrogate, which has no such encoding, is not
    modelled.  Lengths are counted in bytes; the code only compares the
    length of a string with zero.  A string is truthy when it is not empty.
    The duration and the seed of a video are integers.  Optional fields are [option].  Arrays are
    lists.  An [async] function is a state transformer that either returns or
    rejects; an async generator is the finite list of the values it yields,
    together with the exception that ends it, if any: a stream that never ends
    is not modelled.  One turn runs alone: nothing else writes to the store
    while the handler awaits.  The numbers of the coordinates of a place are
    the floating-point numbers of the kernel, which are those of JavaScript. *)

From Stdlib Require Import ZArith Ascii String List Bool Lia.
From Stdlib Require PrimFloat.
From stdpp Require Import base option list strings pretty gmap.

Open Scope string_scope.
Open Scope list_scope.

(** ** JavaScript primitives *)

(** The line feed of the template literals ([\n]). *)
Definition nl : string := String (ascii_of_nat 10) EmptyString.

(** Truthiness of a string: every string but the empty one. *)
Definition truthy (s : string) : bool :=
  match s with
  | EmptyString => false
  | String _ _ => true
  end.

(** The code points [String.prototype.trim] removes, which are the
    WhiteSpace and the LineTerminator of ECMAScript: the tab, the line feed,
    the vertical tab, the form feed, the carriage return, the space, the
    no-break space, the other space separators of Unicode (U+1680, U+2000 to
    U+200A, U+202F, U+205F, U+3000), the line and paragraph separators and the
    byte order mark. *)
Definition whiteSpaceCodePoints : list N :=
  [0x09; 0x0A; 0x0B; 0x0C; 0x0D; 0x20; 0xA0; 0x1680]%N
  ++ map (fun k => (0x2000 + N.of_nat k)%N) (seq 0 11)
  ++ [0x2028; 0x2029; 0x202F; 0x205F; 0x3000; 0xFEFF]%N.

(** The bytes of the UTF-8 encoding of a code point below U+10000. *)
Definition utf8 (cp : N) : list N :=
  if N.ltb cp 0x80 then [cp]
  else if N.ltb cp 0x800 then [0xC0 + cp / 0x40; 0x80 + cp mod 0x40]%N
  else [0xE0 + cp / 0x1000; 0x80 + (cp / 0x40) mod 0x40; 0x80 + cp mod 0x40]%N.

Definition whiteSpace : list (list N) := map utf8 whiteSpaceCodePoints.

(** The bytes [cs] are the encoding of one code point of white space. *)
Definition isWhiteSpace (cs : list ascii) : bool :=
  bool_decide (map N_of_ascii cs ∈ whiteSpace).

(** [String.prototype.trimStart]: an encoding of one to three bytes is
    removed from the start as long as there is one. *)
Fixpoint trimStart (s : string) : string :=
  match s with
  | EmptyString => EmptyString
  | String c1 r1 =>
      if isWhiteSpace [c1] then trimStart r1
      else
        match r1 with
        | EmptyString => s
        | String c2 r2 =>
            if isWhiteSpace [c1; c2] then trimStart r2
            else
              match r2 with
              | EmptyString => s
              | String c3 r3 => if isWhiteSpace [c1; c2; c3] then trimStart r3 else s
              end
        end
  end.

(** [String.prototype.trimEnd]: what is kept of [String c r] is [c] and what
    is kept of [r], unless these are the bytes of one code point of white
    space, which is then the last one removed. *)
Fixpoint trimEnd (s : string) : string :=
  match s with
  | EmptyString => EmptyString
  | String c r =>
      let kept := String c (trimEnd r) in
      if isWhiteSpace (list_ascii_of_string kept) then EmptyString else kept
  end.

(** [String.prototype.trim] *)
Definition trim (s : string) : string := trimEnd (trimStart s).

(** The no-break space U+00A0. *)
Definition nbsp : string := String (ascii_of_nat 194) (String (ascii_of_nat 160) EmptyString).

(** The ideographic space U+3000. *)
Definition ideographicSpace : string :=
  String (ascii_of_nat 227) (String (ascii_of_nat 128) (String (ascii_of_nat 128) EmptyString)).

(** [Array.prototype.join]. *)
Definition join (sep : string) (l : list string) : string := String.concat sep l.

(** What a [catch] clause receives: an [Error] object with its message, or
    any other thrown value, given by its rendering [String(error)]. *)
Inductive JsThrown : Type :=
| ErrorObject (message : string)
| OtherThrown (rendering : string).

(** [error instanceof Error ? error.message : String(error)] *)
Definition errorText (e : JsThrown) : string :=
  match e with
  | ErrorObject m => m
  | OtherThrown r => r
  end.

(** ** types.ts, as the code uses it *)

Inductive Sender : Type := user | agent | tool_result.

Global Instance Sender_eq_dec : EqDecision Sender.
Proof. solve_decision. Defined.

(** [`${m.sender}`] *)
Definition senderText (s : Sender) : string :=
  match s with
  | user => "user"
  | agent => "agent"
  | tool_result => "tool_result"
  end.

Inductive LLMProvider : Type :=
| Gemini | OpenAI | Mistral | Anthropic | Grok | Qwen | Perplexity | Kimi
| DeepSeek | LMStudio | ArcLLM.

Global Instance LLMProvider_eq_dec : EqDecision LLMProvider.
Proof. solve_decision. Defined.

Definition providerText (p : LLMProvider) : string :=
  match p with
  | Gemini => "Gemini" | OpenAI => "OpenAI" | Mistral => "Mistral"
  | Anthropic => "Anthropic" | Grok => "Grok" | Qwen => "Qwen"
  | Perplexity => "Perplexity" | Kimi => "Kimi" | DeepSeek => "DeepSeek"
  | LMStudio => "LMStudio" | ArcLLM => "ArcLLM"
  end.

Inductive LLMCapability : Type :=
| Chat | FileUpload | ImageGeneration | ImageModification | WebSearch
| URLAnalysis | FunctionCalling | OutputFormatting | VideoGeneration
| MapsGrounding | WebSearchGrounding | Embedding | OCR | Reasoning
| CodeSpecialization | CacheOptimization | LocalDeployment.

Global Instance LLMCapability_eq_dec : EqDecision LLMCapability.
Proof. solve_decision. Defined.

Record ToolCall : Type := {
  callId : string;
  callName : string;
  callArguments : string
}.

Inductive MessageStatus : Type := executing_tool.

Record ChatMessage : Type := {
  msgId : string;
  sender : Sender;
  text : string;
  filename : option string;
  mimeType : option string;
  fileContent : option string;
  image : option string;
  isError : bool;
  toolCalls : option (list ToolCall);
  status : option MessageStatus;
  toolCallId : option string;
  toolName : option string
}.

(** The object literal [{ id, sender, text }], every other field absent. *)
Definition plainMessage (i : string) (s : Sender) (t : string) : ChatMessage :=
  {| msgId := i; sender := s; text := t;
     filename := None; mimeType := None; fileContent := None; image := None;
     isError := false; toolCalls := None; status := None;
     toolCallId := None; toolName := None |}.

(** [{ id, sender: 'agent', text, isError: true }] *)
Definition errorMessageOf (i : string) (t : string) : ChatMessage :=
  {| msgId := i; sender := agent; text := t;
     filename := None; mimeType := None; fileContent := None; image := None;
     isError := true; toolCalls := None; status := None;
     toolCallId := None; toolName := None |}.

(** [{ ...m, text: t }] *)
Definition withText (m : ChatMessage) (t : string) : ChatMessage :=
  {| msgId := msgId m; sender := sender m; text := t;
     filename := filename m; mimeType := mimeType m;
     fileContent := fileContent m; image := image m;
     isError := isError m; toolCalls := toolCalls m; status := status m;
     toolCallId := toolCallId m; toolName := toolName m |}.

(** [{ ...m, status: undefined }] *)
Definition withoutStatus (m : ChatMessage) : ChatMessage :=
  {| msgId := msgId m; sender := sender m; text := text m;
     filename := filename m; mimeType := mimeType m;
     fileContent := fileContent m; image := image m;
     isError := isError m; toolCalls := toolCalls m; status := None;
     toolCallId := toolCallId m; toolName := toolName m |}.

Record Tool : Type := {
  toolDeclName : string;
  toolDescription : string;
  toolParameters : string
}.

Record OutputConfig : Type := {
  outputEnabled : bool;
  outputFormat : string
}.

Record HistoryLimits : Type := {
  limitToken : nat;
  limitWord : nat;
  limitSentence : nat;
  limitMessage : nat
}.

Record HistoryConfig : Type := {
  historyEnabled : bool;
  limits : HistoryLimits;
  historyProvider : LLMProvider;
  historyModel : string;
  historySystemPrompt : string
}.

Record Agent : Type := {
  llmProvider : LLMProvider;
  model : string;
  systemPrompt : string;
  tools : list Tool;
  outputConfig : option OutputConfig;
  capabilities : list LLMCapability;
  historyConfig : option HistoryConfig
}.

Record LLMConfig : Type := {
  provider : LLMProvider;
  enabled : bool;
  apiKey : string
}.

(** ** The increments of a stream *)

Record Response : Type := {
  responseText : option string;
  responseToolCalls : option (list ToolCall)
}.

Record Chunk : Type := {
  chunkError : option string;
  chunkResponse : option Response
}.

Definition textChunk (s : string) : Chunk :=
  {| chunkError := None;
     chunkResponse := Some {| responseText := Some s; responseToolCalls := None |} |}.

Definition toolCallsChunk (tcs : list ToolCall) : Chunk :=
  {| chunkError := None;
     chunkResponse := Some {| responseText := None; responseToolCalls := Some tcs |} |}.

Definition errorChunk (e : string) : Chunk :=
  {| chunkError := Some e; chunkResponse := None |}.

(** An async generator that ends: what it yields, then how it ends. *)
Record StreamOutcome : Type := {
  yielded : list Chunk;
  failure : option JsThrown
}.

(** A settled promise. *)
Inductive Settled (A : Type) : Type :=
| Resolved (a : A)
| Rejected (e : JsThrown).
Arguments Resolved {A} a.
Arguments Rejected {A} e.

(** A [File] picked in the form, with what [fileToText] and [fileToBase64]
    of [utils/fileUtils.ts] settle to for it. *)
Record File : Type := {
  fileName : string;
  fileType : string;
  fileAsText : Settled string;
  fileAsBase64 : Settled string
}.

(** What [executeTool] resolves to: a string, or another value, given by its
    [JSON.stringify] rendering.  A value that [JSON.stringify] throws on ends
    the [try] of the tool call like a rejection of [executeTool], and is
    modelled as one. *)
Inductive ToolValue : Type :=
| ToolString (s : string)
| ToolJson (stringified : string).

(** [typeof toolResult === 'string' ? toolResult : JSON.stringify(toolResult)] *)
Definition toolValueText (v : ToolValue) : string :=
  match v with
  | ToolString s => s
  | ToolJson j => j
  end.

(** ** The runtime store *)

(** Modelled from the spec: [stores/useRuntimeStore.ts] is not among the
    sources.  The spec's Session is an ordered Message sequence for one agent
    instance plus an [executing] flag; the store keeps one per node id, and
    the list of configured providers. *)
Record RuntimeStore : Type := {
  nodeMessages : gmap string (list ChatMessage);
  nodeExecuting : gmap string bool;
  llmConfigs : list LLMConfig
}.

Definition store_getNodeMessages (s : RuntimeStore) (id : string) : list ChatMessage :=
  default [] (nodeMessages s !! id).

Definition store_isNodeExecuting (s : RuntimeStore) (id : string) : bool :=
  default false (nodeExecuting s !! id).

Definition store_setNodeMessages (s : RuntimeStore) (id : string)
    (ms : list ChatMessage) : RuntimeStore :=
  {| nodeMessages := <[id := ms]> (nodeMessages s);
     nodeExecuting := nodeExecuting s;
     llmConfigs := llmConfigs s |}.

Definition store_addNodeMessage (s : RuntimeStore) (id : string)
    (m : ChatMessage) : RuntimeStore :=
  store_setNodeMessages s id (store_getNodeMessages s id ++ [m]).

Definition store_setNodeExecuting (s : RuntimeStore) (id : string)
    (b : bool) : RuntimeStore :=
  {| nodeMessages := nodeMessages s;
     nodeExecuting := <[id := b]> (nodeExecuting s);
     llmConfigs := llmConfigs s |}.

(** ** The world a turn runs in *)

(** The calls that leave the component, in the order they are made. *)
Inductive Event : Type :=
| CompleteCall (p : LLMProvider) (key mdl sys : string) (history : list ChatMessage)
| StreamCall (p : LLMProvider) (key mdl sys : string) (history : list ChatMessage)
    (tls : list Tool) (oc : option OutputConfig)
| ToolRun (tc : ToolCall).

(** The store, the component's own state ([useState]), the calls made so far
    and the number of readings of the outside world so far. *)
Record World : Type := {
  store : RuntimeStore;
  userInputState : string;
  attachedFileState : option File;
  loadingMessageState : string;
  trace : list Event;
  clock : nat
}.

(** What the outside world answers.  Every answer may depend on the moment it
    is asked for ([clock]).  [countTokens], [countWords] and [countSentences]
    come from [utils/textUtils.ts], [executeTool] from
    [utils/toolExecutor.ts], [t] from [hooks/useLocalization.ts]: these files
    are not among the sources, and the functions are left unspecified.
    [llm_generateContent] and [llm_generateContentStream] are the two entry
    points of [services/llmService.ts] the component calls; the section on
    that service gives the second one for the Gemini backend. *)
Record Env : Type := {
  Date_now : nat -> Z;
  t : string -> string;
  countTokens : list ChatMessage -> nat;
  countWords : list ChatMessage -> nat;
  countSentences : list ChatMessage -> nat;
  llm_generateContent :
    nat -> LLMProvider -> string -> string -> string -> list ChatMessage ->
    Settled string;
  llm_generateContentStream :
    nat -> LLMProvider -> string -> string -> string -> list ChatMessage ->
    list Tool -> option OutputConfig -> StreamOutcome;
  tool_executeTool : nat -> ToolCall -> Settled ToolValue
}.

(** Modelled from the spec: [countMessages] of [utils/textUtils.ts] is the
    spec's message count of a history. *)
Definition countMessages (history : list ChatMessage) : nat := length history.

(** ** Async functions *)

Inductive Outcome (A : Type) : Type :=
| Returns (a : A) (w : World)
| Rejects (e : JsThrown) (w : World).
Arguments Returns {A} a w.
Arguments Rejects {A} e w.

Definition Async (A : Type) : Type := World -> Outcome A.

Definition finalWorld {A : Type} (o : Outcome A) : World :=
  match o with
  | Returns _ w => w
  | Rejects _ w => w
  end.

Definition async_ret {A : Type} (a : A) : Async A := fun w => Returns a w.

Definition async_bind {A B : Type} (k : A -> Async B) (c : Async A) : Async B :=
  fun w =>
    match c w with
    | Returns a w' => k a w'
    | Rejects e w' => Rejects e w'
    end.

Global Instance Async_ret : MRet Async := @async_ret.
Global Instance Async_bind : MBind Async := @async_bind.

(** [throw e] *)
Definition throw {A : Type} (e : JsThrown) : Async A := fun w => Rejects e w.

(** [try { body } catch (error) { handler error } finally { fin }] *)
Definition tryCatchFinally (body : Async unit) (handler : JsThrown -> Async unit)
    (fin : Async unit) : Async unit :=
  fun w =>
    let caught :=
      match body w with
      | Returns a w' => Returns a w'
      | Rejects e w' => handler e w'
      end in
    match caught with
    | Returns a w' => fin w'
    | Rejects e w' =>
        match fin w' with
        | Returns _ w'' => Rejects e w''
        | Rejects e' w'' => Rejects e' w''
        end
    end.

(** [try { body } catch (err) { handler }] around one awaited value. *)
Definition tryCatch {A : Type} (body : Async A) (handler : JsThrown -> Async A) : Async A :=
  fun w =>
    match body w with
    | Returns a w' => Returns a w'
    | Rejects e w' => handler e w'
    end.

(** Awaiting a promise the outside world has settled. *)
Definition await {A : Type} (p : Settled A) : Async A :=
  match p with
  | Resolved a => async_ret a
  | Rejected e => throw e
  end.

Definition modifyWorld (f : World -> World) : Async unit :=
  fun w => Returns tt (f w).

Definition withStore (f : RuntimeStore -> RuntimeStore) (w : World) : World :=
  {| store := f (store w); userInputState := userInputState w;
     attachedFileState := attachedFileState w; loadingMessageState := loadingMessageState w;
     trace := trace w; clock := clock w |}.

(** One more reading of the outside world. *)
Definition advance (w : World) : World :=
  {| store := store w; userInputState := userInputState w;
     attachedFileState := attachedFileState w; loadingMessageState := loadingMessageState w;
     trace := trace w; clock := S (clock w) |}.

(** One more reading of the outside world, which is a call. *)
Definition called (ev : Event) (w : World) : World :=
  {| store := store w; userInputState := userInputState w;
     attachedFileState := attachedFileState w; loadingMessageState := loadingMessageState w;
     trace := trace w ++ [ev]; clock := S (clock w) |}.

Definition getNodeMessages (id : string) : Async (list ChatMessage) :=
  fun w => Returns (store_getNodeMessages (store w) id) w.

Definition addNodeMessage (id : string) (m : ChatMessage) : Async unit :=
  modifyWorld (withStore (fun s => store_addNodeMessage s id m)).

Definition setNodeMessages (id : string) (ms : list ChatMessage) : Async unit :=
  modifyWorld (withStore (fun s => store_setNodeMessages s id ms)).

Definition setNodeExecuting (id : string) (b : bool) : Async unit :=
  modifyWorld (withStore (fun s => store_setNodeExecuting s id b)).

Definition setUserInput (s : string) : Async unit :=
  modifyWorld (fun w =>
    {| store := store w; userInputState := s; attachedFileState := attachedFileState w;
       loadingMessageState := loadingMessageState w; trace := trace w; clock := clock w |}).

Definition setAttachedFile (f : option File) : Async unit :=
  modifyWorld (fun w =>
    {| store := store w; userInputState := userInputState w; attachedFileState := f;
       loadingMessageState := loadingMessageState w; trace := trace w; clock := clock w |}).

Definition withLoadingMessage (s : string) (w : World) : World :=
  {| store := store w; userInputState := userInputState w;
     attachedFileState := attachedFileState w; loadingMessageState := s;
     trace := trace w; clock := clock w |}.

Definition setLoadingMessage (s : string) : Async unit :=
  modifyWorld (withLoadingMessage s).

(** [Date.now()] *)
Definition dateNow (E : Env) : Async Z :=
  fun w => Returns (Date_now E (clock w)) (advance w).

(** [await llmService.generateContent(...)], seen from the component. *)
Definition generateContent (E : Env) (p : LLMProvider) (key mdl sys : string)
    (history : list ChatMessage) : Async string :=
  fun w =>
    await (llm_generateContent E (clock w) p key mdl sys history)
          (called (CompleteCall p key mdl sys history) w).

(** [llmService.generateContentStream(...)], seen from the component. *)
Definition generateContentStream (E : Env) (p : LLMProvider) (key mdl sys : string)
    (history : list ChatMessage) (tls : list Tool) (oc : option OutputConfig)
    : Async StreamOutcome :=
  fun w =>
    Returns (llm_generateContentStream E (clock w) p key mdl sys history tls oc)
            (called (StreamCall p key mdl sys history tls oc) w).

(** [await executeTool(toolCall)] *)
Definition executeTool (E : Env) (tc : ToolCall) : Async ToolValue :=
  fun w => await (tool_executeTool E (clock w) tc) (called (ToolRun tc) w).

(** ** components/V2AgentNode.tsx: the chat of a node *)

(** What one render of the node binds and [handleSendMessage] closes over:
    [id], [data.agent], [messages = getNodeMessages(id)],
    [isLoading = isNodeExecuting(id)], the [useState] values and the store's
    [llmConfigs]. *)
Record Closure : Type := {
  id : string;
  dataAgent : option Agent;
  messages : list ChatMessage;
  isLoading : bool;
  userInput : string;
  attachedFile : option File;
  configs : list LLMConfig
}.

Definition render (nodeId : string) (a : option Agent) (w : World) : Closure :=
  {| id := nodeId;
     dataAgent := a;
     messages := store_getNodeMessages (store w) nodeId;
     isLoading := store_isNodeExecuting (store w) nodeId;
     userInput := userInputState w;
     attachedFile := attachedFileState w;
     configs := llmConfigs (store w) |}.

(** [`msg-${Date.now()}${suffix}`] *)
Definition stamped (prefix : string) (now : Z) (suffix : string) : string :=
  prefix +:+ pretty now +:+ suffix.

(** [userMessage.filename = ...; userMessage.mimeType = ...] *)
Definition withFileHeader (m : ChatMessage) (f : File) : ChatMessage :=
  {| msgId := msgId m; sender := sender m; text := text m;
     filename := Some (fileName f); mimeType := Some (fileType f);
     fileContent := fileContent m; image := image m;
     isError := isError m; toolCalls := toolCalls m; status := status m;
     toolCallId := toolCallId m; toolName := toolName m |}.

(** [userMessage.fileContent = ...] *)
Definition withFileContent (m : ChatMessage) (c : string) : ChatMessage :=
  {| msgId := msgId m; sender := sender m; text := text m;
     filename := filename m; mimeType := mimeType m;
     fileContent := Some c; image := image m;
     isError := isError m; toolCalls := toolCalls m; status := status m;
     toolCallId := toolCallId m; toolName := toolName m |}.

(** [userMessage.image = ...] *)
Definition withImage (m : ChatMessage) (c : string) : ChatMessage :=
  {| msgId := msgId m; sender := sender m; text := text m;
     filename := filename m; mimeType := mimeType m;
     fileContent := fileContent m; image := Some c;
     isError := isError m; toolCalls := toolCalls m; status := status m;
     toolCallId := toolCallId m; toolName := toolName m |}.

(** Lines 1214-1228: the attachment is read into the user message.  Nothing
    but the file is touched, so the promise settles the same in every world. *)
Definition attachFile (a : Agent) (file : option File) (userMessage : ChatMessage)
    : Settled ChatMessage :=
  match file with
  | None => Resolved userMessage
  | Some f =>
      let userMessage := withFileHeader userMessage f in
      let asImage :=
        match fileAsBase64 f with
        | Resolved c => Resolved (withImage userMessage c)
        | Rejected e => Rejected e
        end in
      if bool_decide (llmProvider a = Mistral) then
        match fileAsText f with
        | Resolved c => Resolved (withFileContent userMessage c)
        | Rejected _ => asImage
        end
      else asImage
  end.

(** [llmConfigs.find(c => c.provider === p)] *)
Definition findConfig (cs : list LLMConfig) (p : LLMProvider) : option LLMConfig :=
  List.find (fun c => bool_decide (provider c = p)) cs.

(** [!agentConfig?.enabled || !agentConfig.apiKey] *)
Definition notConfigured (agentConfig : option LLMConfig) : bool :=
  match agentConfig with
  | None => true
  | Some c => negb (enabled c) || negb (truthy (apiKey c))
  end.

(** Lines 1258-1268: the four counters against their limits. *)
Definition shouldSummarize (E : Env) (lim : HistoryLimits)
    (currentFullHistory : list ChatMessage) : bool :=
  (limitToken lim <=? countTokens E currentFullHistory)%nat
  || (limitWord lim <=? countWords E currentFullHistory)%nat
  || (limitSentence lim <=? countSentences E currentFullHistory)%nat
  || (limitMessage lim <=? countMessages currentFullHistory)%nat.

(** [currentFullHistory.map(m => `${m.sender}: ${m.text}`).join('\n')] *)
Definition transcript (history : list ChatMessage) : string :=
  join nl (map (fun m => senderText (sender m) +:+ ": " +:+ text m) history).

(** Line 1278. *)
Definition summarizationPrompt (E : Env) (currentFullHistory : list ChatMessage) : string :=
  t E "conversation_to_summarize" +:+ ":" +:+ nl +:+ nl +:+ transcript currentFullHistory.

(** Lines 1293-1297. *)
Definition summaryMessageOf (now : Z) (summary : string) : ChatMessage :=
  plainMessage (stamped "msg-" now "-summary") agent
               ("(Résumé de l'historique): " +:+ summary).

(** Lines 1270-1301: the history is summarized and the session replaced. *)
Definition summarize (E : Env) (nodeId : string) (cs : list LLMConfig)
    (hc : HistoryConfig) (currentFullHistory : list ChatMessage)
    (userMessage : ChatMessage) : Async (list ChatMessage) :=
  setLoadingMessage (t E "agentNode_history_summarizing");;
  match findConfig cs (historyProvider hc) with
  | None =>
      throw (ErrorObject ("Summarization LLM " +:+ providerText (historyProvider hc)
                          +:+ " not configured."))
  | Some summarizationConfig =>
      now ← dateNow E;
      let summarizationHistory :=
        [plainMessage (stamped "msg-summary-prompt-" now "") user
                      (summarizationPrompt E currentFullHistory)] in
      summary ← generateContent E (provider summarizationConfig)
                  (apiKey summarizationConfig) (historyModel hc)
                  (historySystemPrompt hc) summarizationHistory;
      now ← dateNow E;
      let summaryMessage := summaryMessageOf now summary in
      setNodeMessages nodeId [summaryMessage; userMessage];;
      setLoadingMessage "";;
      mret [summaryMessage; userMessage]
  end.

(** Lines 1252-1307: the value of [conversationHistoryForAPI]. *)
Definition manageHistory (E : Env) (nodeId : string) (cs : list LLMConfig)
    (a : Agent) (msgs : list ChatMessage) (userMessage : ChatMessage)
    : Async (list ChatMessage) :=
  let currentFullHistory := msgs ++ [userMessage] in
  match historyConfig a with
  | Some hc =>
      if historyEnabled hc && (0 <? length msgs)%nat then
        if shouldSummarize E (limits hc) currentFullHistory then
          summarize E nodeId cs hc currentFullHistory userMessage
        else mret currentFullHistory
      else mret (if historyEnabled hc then currentFullHistory else [userMessage])
  | None => mret [userMessage]
  end.

Definition hasId (i : string) (m : ChatMessage) : bool := bool_decide (msgId m = i).

(** Lines 1336-1354: a text increment is added to the response so far, and
    the message of this stream is updated, or created. *)
Definition onText (nodeId agentMessageId currentResponse : string) : Async unit :=
  existingMessages ← getNodeMessages nodeId;
  match List.find (hasId agentMessageId) existingMessages with
  | Some _ =>
      setNodeMessages nodeId
        (map (fun m => if hasId agentMessageId m then withText m currentResponse else m)
             existingMessages)
  | None => addNodeMessage nodeId (plainMessage agentMessageId agent currentResponse)
  end.

(** Lines 1359-1365. *)
Definition toolMessageOf (agentMessageId currentResponse : string)
    (tcs : list ToolCall) : ChatMessage :=
  {| msgId := agentMessageId; sender := agent; text := currentResponse;
     filename := None; mimeType := None; fileContent := None; image := None;
     isError := false; toolCalls := Some tcs; status := Some executing_tool;
     toolCallId := None; toolName := None |}.

(** Lines 1357-1371. *)
Definition onToolCalls (nodeId agentMessageId currentResponse : string)
    (tcs : list ToolCall) : Async unit :=
  let toolMessage := toolMessageOf agentMessageId currentResponse tcs in
  existingMessages ← getNodeMessages nodeId;
  setNodeMessages nodeId
    (map (fun m => if hasId agentMessageId m then toolMessage else m) existingMessages).

(** [chunk.response && 'text' in chunk.response && chunk.response.text] *)
Definition chunkText (chunk : Chunk) : option string :=
  match chunkResponse chunk with
  | Some r =>
      match responseText r with
      | Some s => if truthy s then Some s else None
      | None => None
      end
  | None => None
  end.

(** [chunk.response && 'toolCalls' in chunk.response && chunk.response.toolCalls]:
    an array is truthy, the empty one too. *)
Definition chunkToolCalls (chunk : Chunk) : option (list ToolCall) :=
  match chunkResponse chunk with
  | Some r => responseToolCalls r
  | None => None
  end.

(** [chunk.error], when truthy. *)
Definition chunkFailure (chunk : Chunk) : option string :=
  match chunkError chunk with
  | Some e => if truthy e then Some e else None
  | None => None
  end.

(** The variables of the [for await] loop of lines 1319-1372, and whether the
    loop was left by [break]. *)
Record LoopState : Type := {
  currentResponse : string;
  recordedToolCalls : list ToolCall;
  broken : bool
}.

(** Lines 1335-1354: the [if] on the text of a chunk; the response so far
    is returned. *)
Definition textStep (nodeId agentMessageId : string) (chunk : Chunk)
    (currentResponse : string) : Async string :=
  match chunkText chunk with
  | Some s =>
      let currentResponse := currentResponse +:+ s in
      onText nodeId agentMessageId currentResponse;;
      mret currentResponse
  | None => mret currentResponse
  end.

(** Lines 1356-1371: the [if] on the tool calls of a chunk; the tool calls
    recorded so far are returned. *)
Definition toolCallsStep (nodeId agentMessageId : string) (chunk : Chunk)
    (currentResponse : string) (toolCalls : list ToolCall) : Async (list ToolCall) :=
  match chunkToolCalls chunk with
  | Some tcs =>
      onToolCalls nodeId agentMessageId currentResponse tcs;;
      mret tcs
  | None => mret toolCalls
  end.

(** Lines 1323-1372: the body of the loop, over the chunks still to come. *)
Fixpoint consume (nodeId agentMessageId : string) (chunks : list Chunk)
    (currentResponse : string) (toolCalls : list ToolCall) : Async LoopState :=
  match chunks with
  | [] => mret {| currentResponse := currentResponse;
                  recordedToolCalls := toolCalls; broken := false |}
  | chunk :: rest =>
      match chunkFailure chunk with
      | Some e =>
          addNodeMessage nodeId (errorMessageOf agentMessageId e);;
          mret {| currentResponse := currentResponse;
                  recordedToolCalls := toolCalls; broken := true |}
      | None =>
          currentResponse ← textStep nodeId agentMessageId chunk currentResponse;
          toolCalls ← toolCallsStep nodeId agentMessageId chunk currentResponse toolCalls;
          consume nodeId agentMessageId rest currentResponse toolCalls
      end
  end.

(** [for await (const chunk of stream) { ... }]: the loop, then the exception
    that ends the generator, if the loop reached its end. *)
Definition forAwait (nodeId agentMessageId : string) (stream : StreamOutcome)
    : Async LoopState :=
  st ← consume nodeId agentMessageId (yielded stream) "" [];
  if broken st then mret st
  else match failure stream with
       | Some e => throw e
       | None => mret st
       end.

(** Lines 1379-1385. *)
Definition toolResultMessageOf (now : Z) (toolCall : ToolCall)
    (toolResult : ToolValue) : ChatMessage :=
  {| msgId := stamped "msg-" now "-tool-result"; sender := tool_result;
     text := toolValueText toolResult;
     filename := None; mimeType := None; fileContent := None; image := None;
     isError := false; toolCalls := None; status := None;
     toolCallId := Some (callId toolCall); toolName := Some (callName toolCall) |}.

(** Lines 1388-1395. *)
Definition toolErrorMessageOf (now : Z) (toolCall : ToolCall)
    (error : JsThrown) : ChatMessage :=
  {| msgId := stamped "msg-" now "-tool-error"; sender := tool_result;
     text := "Erreur: " +:+ errorText error;
     filename := None; mimeType := None; fileContent := None; image := None;
     isError := true; toolCalls := None; status := None;
     toolCallId := Some (callId toolCall); toolName := Some (callName toolCall) |}.

(** Lines 1377-1397: one tool call, inside its own [try]/[catch]. *)
Definition runToolCall (E : Env) (nodeId : string) (toolCall : ToolCall) : Async unit :=
  tryCatch
    (toolResult ← executeTool E toolCall;
     now ← dateNow E;
     addNodeMessage nodeId (toolResultMessageOf now toolCall toolResult))
    (fun error =>
       now ← dateNow E;
       addNodeMessage nodeId (toolErrorMessageOf now toolCall error)).

(** Lines 1376-1398: [for (const toolCall of toolCalls) { ... }] *)
Fixpoint runToolCalls (E : Env) (nodeId : string) (toolCalls : list ToolCall)
    : Async unit :=
  match toolCalls with
  | [] => mret tt
  | toolCall :: rest =>
      runToolCall E nodeId toolCall;;
      runToolCalls E nodeId rest
  end.

(** Lines 1401-1404. *)
Definition clearExecutingTool (m : ChatMessage) : ChatMessage :=
  match status m with
  | Some executing_tool => withoutStatus m
  | None => m
  end.

Definition isToolResult (m : ChatMessage) : bool := bool_decide (sender m = tool_result).

(** Lines 1422-1428: the synthetic user message of the follow-up call.
    An absent [toolName] is rendered as [undefined]. *)
Definition contextMessageOf (E : Env) (now : Z) (toolResults : list ChatMessage)
    : ChatMessage :=
  let toolResultsSummary :=
    join (nl +:+ nl)
      (map (fun tr => t E "tool_result_from" +:+ " "
                      +:+ default "undefined" (toolName tr) +:+ ": " +:+ text tr)
           toolResults) in
  plainMessage (stamped "msg-" now "-tool-context") user
    (t E "tool_results_context" +:+ ":" +:+ nl +:+ nl +:+ toolResultsSummary
     +:+ nl +:+ nl +:+ t E "analyze_results_request").

(** Lines 1447-1478: the loop over the follow-up stream. *)
Fixpoint consumeFollowUp (nodeId followUpMessageId : string) (chunks : list Chunk)
    (followUpResponse : string) : Async bool :=
  match chunks with
  | [] => mret false
  | chunk :: rest =>
      match chunkFailure chunk with
      | Some e =>
          addNodeMessage nodeId (errorMessageOf followUpMessageId e);;
          mret true
      | None =>
          followUpResponse ← textStep nodeId followUpMessageId chunk followUpResponse;
          consumeFollowUp nodeId followUpMessageId rest followUpResponse
      end
  end.

(** Lines 1411-1431: the history of the follow-up call.  The tool results
    are taken out of the messages and, when there are some, one synthetic user
    message that renders them is put at the end. *)
Definition withToolContext (E : Env) (updatedMessages : list ChatMessage)
    : Async (list ChatMessage) :=
  let messagesWithoutToolResults :=
    List.filter (fun m => negb (isToolResult m)) updatedMessages in
  let toolResults := List.filter isToolResult updatedMessages in
  if (0 <? length toolResults)%nat then
    now ← dateNow E;
    mret (messagesWithoutToolResults ++ [contextMessageOf E now toolResults])
  else mret messagesWithoutToolResults.

(** [for await (const chunk of followUpStream) { ... }] *)
Definition forAwaitFollowUp (nodeId followUpMessageId : string)
    (followUpStream : StreamOutcome) : Async unit :=
  leftByBreak ← consumeFollowUp nodeId followUpMessageId (yielded followUpStream)
                  EmptyString;
  if (leftByBreak : bool) then async_ret tt
  else match failure followUpStream with
       | Some e => throw e
       | None => async_ret tt
       end.

(** Lines 1407-1479: the follow-up generation, for an agent with the Chat
    capability. *)
Definition followUp (E : Env) (nodeId : string) (a : Agent) (key : string)
    : Async unit :=
  setLoadingMessage (t E "analyzing_results");;
  updatedMessages ← getNodeMessages nodeId;
  messagesWithoutToolResults ← withToolContext E updatedMessages;
  now ← dateNow E;
  let followUpMessageId := stamped "msg-" now "-followup" in
  followUpStream ← generateContentStream E (llmProvider a) key (model a)
                     (systemPrompt a) messagesWithoutToolResults (tools a)
                     (outputConfig a);
  forAwaitFollowUp nodeId followUpMessageId followUpStream.

(** Lines 1375-1480: the tools are run, the status is cleared and, for an
    agent with the Chat capability, the follow-up is generated. *)
Definition afterStream (E : Env) (nodeId : string) (a : Agent) (key : string)
    (toolCalls : list ToolCall) : Async unit :=
  if (0 <? length toolCalls)%nat then
    runToolCalls E nodeId toolCalls;;
    existingMessages ← getNodeMessages nodeId;
    setNodeMessages nodeId (map clearExecutingTool existingMessages);;
    if bool_decide (Chat ∈ capabilities a) then followUp E nodeId a key
    else async_ret tt
  else async_ret tt.

(** Lines 1308-1480: the response of the agent is streamed, then its tool
    calls are run.  The generator of line 1309 starts to run when the
    [for await] of line 1323 pulls its first value, after [agentMessageId] is
    computed. *)
Definition respond (E : Env) (nodeId : string) (a : Agent) (agentConfig : LLMConfig)
    (msgs : list ChatMessage) (userMessage : ChatMessage) : Async unit :=
  now ← dateNow E;
  let agentMessageId := stamped "msg-" now "-agent" in
  stream ← generateContentStream E (llmProvider a) (apiKey agentConfig) (model a)
             (systemPrompt a) (msgs ++ [userMessage]) (tools a) (outputConfig a);
  st ← forAwait nodeId agentMessageId stream;
  afterStream E nodeId a (apiKey agentConfig) (recordedToolCalls st).

(** Lines 1250-1480: the body of the [try].  [conversationHistoryForAPI] is
    assigned by the history policy and read nowhere. *)
Definition turn (E : Env) (nodeId : string) (cs : list LLMConfig) (a : Agent)
    (agentConfig : LLMConfig) (msgs : list ChatMessage) (userMessage : ChatMessage)
    : Async unit :=
  conversationHistoryForAPI ← manageHistory E nodeId cs a msgs userMessage;
  respond E nodeId a agentConfig msgs userMessage.

(** Lines 1482-1489: the [catch] of the turn. *)
Definition onTurnError (E : Env) (nodeId : string) (error : JsThrown) : Async unit :=
  now ← dateNow E;
  addNodeMessage nodeId
    (errorMessageOf (stamped "msg-" now "") ("Erreur: " +:+ errorText error)).

(** Lines 1490-1493: the [finally] of the turn. *)
Definition finish (nodeId : string) : Async unit :=
  setNodeExecuting nodeId false;; setLoadingMessage EmptyString.

(** Lines 1238-1248: the provider of the agent is not configured. *)
Definition reportNotConfigured (E : Env) (nodeId : string) (a : Agent) : Async unit :=
  now ← dateNow E;
  addNodeMessage nodeId
    (errorMessageOf (stamped "msg-" now "")
       ("Erreur: " +:+ providerText (llmProvider a)
        +:+ " n'est pas configuré ou activé."));;
  setNodeExecuting nodeId false.

(** Lines 1195-1494. *)
Definition handleSendMessage (E : Env) (c : Closure) : Async unit :=
  let trimmedInput := trim (userInput c) in
  if negb (truthy trimmedInput) && negb (bool_decide (is_Some (attachedFile c)))
  then async_ret tt
  else
    match dataAgent c with
    | None => async_ret tt
    | Some a =>
        setNodeExecuting (id c) true;;
        now ← dateNow E;
        userMessage ← await (attachFile a (attachedFile c)
                               (plainMessage (stamped "msg-" now "") user trimmedInput));
        addNodeMessage (id c) userMessage;;
        setUserInput "";;
        setAttachedFile None;;
        let agentConfig := findConfig (configs c) (llmProvider a) in
        match agentConfig with
        | Some cfg =>
            if notConfigured agentConfig then reportNotConfigured E (id c) a
            else
              tryCatchFinally
                (turn E (id c) (configs c) a cfg (messages c) userMessage)
                (onTurnError E (id c))
                (finish (id c))
        | None => reportNotConfigured E (id c) a
        end
    end.

(** ** The controls of the form (lines 1805-1890) *)

(** [disabled={isLoading}] of the textarea, whose Enter key calls
    [handleSendMessage]. *)
Definition textareaDisabled (c : Closure) : bool := isLoading c.

(** [disabled={isLoading || (!userInput.trim() && !attachedFile)}] of the
    submit button of the form. *)
Definition sendDisabled (c : Closure) : bool :=
  isLoading c
  || (negb (truthy (trim (userInput c))) && negb (bool_decide (is_Some (attachedFile c)))).

(** The two ways the user reaches [handleSendMessage]. *)
Inductive Gesture : Type := PressEnter | ClickSend.

(** A disabled control raises no event; an enabled one runs the handler. *)
Definition onGesture (E : Env) (g : Gesture) (c : Closure) : Async unit :=
  match g with
  | PressEnter => if textareaDisabled c then async_ret tt else handleSendMessage E c
  | ClickSend => if sendDisabled c then async_ret tt else handleSendMessage E c
  end.

(** [submit(sessionId, text, attachment?)]: the node is rendered on the
    current world and the handler runs on what the render bound. *)
Definition submit (E : Env) (nodeId : string) (a : option Agent) : Async unit :=
  fun w => handleSendMessage E (render nodeId a w) w.

(** ** services/geminiService.ts *)

(** A value [JSON.parse] returned, given by the text it was read from. *)
Inductive JsonValue : Type := Parsed (source : string).

Inductive Part : Type :=
| TextPart (s : string)
| InlineDataPart (mime data : string)
| FunctionCallPart (name : string) (args : JsonValue)
| FunctionResponsePart (name : string) (response : JsonValue).

Record Content : Type := {
  role : string;
  parts : list Part
}.

Record FunctionDeclaration : Type := {
  declName : string;
  declDescription : string;
  declParameters : string
}.

Record GenerateConfig : Type := {
  configSystemInstruction : option string;
  responseMimeType : option string;
  configTools : option (list FunctionDeclaration)
}.

Record GenerateRequest : Type := {
  requestModel : string;
  contents : list Content;
  config : option GenerateConfig
}.

(** [fc.name] and [JSON.stringify(fc.args)] of a function call of the SDK. *)
Record FunctionCall : Type := {
  fcName : string;
  fcArgs : string
}.

(** A chunk of the SDK's stream: [chunk.functionCalls] and [chunk.text]. *)
Record GeminiChunk : Type := {
  functionCalls : option (list FunctionCall);
  geminiText : option string
}.

(** The SDK's stream: its chunks, then the exception that ends it, if any. *)
Record SdkStream : Type := {
  sdkChunks : list GeminiChunk;
  sdkFailure : option JsThrown
}.

(** What surrounds the service: [JSON.parse], the SDK's
    [ai.models.generateContentStream], and [Date.now()] and [Math.random()]
    (rendered) at the [i]-th function call of a chunk. *)
Record GeminiEnv : Type := {
  JSON_parse : string -> Settled JsonValue;
  ai_generateContentStream : GenerateRequest -> Settled SdkStream;
  gemini_now : nat -> Z;
  Math_random : nat -> string
}.

(** *** The other calls of the SDK *)

(** [a || b] on strings: [a] when it is there and truthy, else [b]. *)
Definition orElse (a : option string) (b : string) : string :=
  match a with
  | Some s => if truthy s then s else b
  | None => b
  end.

(** The double quote of the template literals. *)
Definition dquote : string := String (ascii_of_nat 34) EmptyString.

(** [{ mimeType, data }] *)
Record ImageData : Type := {
  imageMimeType : string;
  imageBytes : string
}.

(** A grounding chunk of a response, as the service reads it:
    [chunk.web?.title] and [chunk.web?.uri]. *)
Record GroundingChunk : Type := {
  chunkWebTitle : option string;
  chunkWebUri : option string
}.

(** A part of a candidate, as the service reads it: [part.text] and, when
    [part.inlineData] is there, its [data]. *)
Record ResponsePart : Type := {
  partText : option string;
  partInlineData : option (option string)
}.

(** A response of [ai.models.generateContent], as the service reads it:
    [response.text]; [response.candidates?.[0]?.groundingMetadata?.groundingChunks];
    and [response.candidates[0].content.parts], or what reading it throws. *)
Record GenerateResponse : Type := {
  sdkText : option string;
  sdkGroundingChunks : option (list GroundingChunk);
  sdkParts : Settled (list ResponsePart)
}.

(** The requests the service makes to [ai.models.generateContent]: the one
    of [generateContent] (lines 140-144); the one of [generateContentWithSearch]
    (lines 161-168), whose tools are [[{ googleSearch: {} }]] and whose system
    instruction is there when truthy; the one of [editImage] (lines 212-218),
    whose model is [gemini-2.5-flash-image-preview], whose parts are the image
    and the prompt and whose response modalities are image and text. *)
Inductive ContentRequest : Type :=
| ChatRequest (request : GenerateRequest)
| SearchRequest (mdl prompt : string) (instruction : option string)
| EditRequest (source : ImageData) (prompt : string).

(** [{ title, uri }] *)
Record Citation : Type := {
  citationTitle : string;
  citationUri : string
}.

(** [{ text, citations }] *)
Record SearchResult : Type := {
  searchText : option string;
  citations : list Citation
}.

(** [{ image?, text?, error? }] *)
Record ImageResult : Type := {
  resultImage : option string;
  resultText : option string;
  resultError : option string
}.

(** [types.ts] is not among the sources: the video options are the
    properties the services and the panel read and write.  An element of
    [referenceImages] is given by the four properties that are read of it:
    [image] and [referenceType] (geminiService.ts, lines 270-273), [mimeType]
    and [data] (arcLLMService.ts, line 98). *)
Inductive VideoMode : Type :=
| text_to_video | image_to_video | interpolation | extension | with_references.

Global Instance VideoMode_eq_dec : EqDecision VideoMode.
Proof. solve_decision. Defined.

Record ReferenceImage : Type := {
  refImage : option ImageData;
  refType : option string;
  refMimeType : option string;
  refData : option string
}.

Record VideoGenerationOptions : Type := {
  optPrompt : string;
  optNegativePrompt : option string;
  optMode : option VideoMode;
  optResolution : option string;
  optAspectRatio : option string;
  optDurationSeconds : option Z;
  optPersonGeneration : option string;
  optSeed : option Z;
  optFirstFrame : option ImageData;
  optLastFrame : option ImageData;
  optReferenceImages : option (list ReferenceImage);
  optExistingVideo : option string
}.

Inductive VideoStatus : Type := PROCESSING | COMPLETED | FAILED.

Global Instance VideoStatus_eq_dec : EqDecision VideoStatus.
Proof. solve_decision. Defined.

(** [{ operationId, status, progress?, videoUrl?, error? }] *)
Record VideoGenerationStatus : Type := {
  operationId : option string;
  videoStatus : VideoStatus;
  videoProgress : option Z;
  videoUrl : option string;
  videoError : option string
}.

(** The [config] of the request of [generateVideo] (lines 253-279). *)
Record VideoConfig : Type := {
  cfgAspectRatio : string;
  cfgResolution : string;
  cfgDurationSeconds : Z;
  cfgPersonGeneration : string;
  cfgNegativePrompt : option string;
  cfgSeed : option Z;
  cfgReferenceImages : option (list (ImageData * option string));
  cfgLastFrame : option ImageData
}.

(** The request of [generateVideo] (lines 282-296). *)
Record VideoRequest : Type := {
  videoModel : string;
  videoPrompt : string;
  videoConfig : VideoConfig;
  videoImage : option ImageData;
  videoVideo : option string
}.

(** An operation, as [pollVideoOperation] reads it: [operation.done] and,
    when [operation.response?.generatedVideos?.[0]] is there, its [video], a
    reference given by a string. *)
Record Operation : Type := {
  operationDone : bool;
  generatedVideo : option (option string)
}.

(** A downloaded file: [file.uri], and what
    [URL.createObjectURL(new Blob([file]))] returns for it. *)
Record DownloadedFile : Type := {
  fileUri : option string;
  objectUrl : string
}.

(** The SDK beyond its stream: [ai.models.generateContent];
    [ai.models.generateImages], given by the
    [generatedImages[0].image.imageBytes] of its response, or by what the call
    or the reading throws; [ai.models.generateVideos], given by the [name] of
    its operation; [ai.operations.get]; [ai.files.download]; and the
    TypeError of the engine for a property read of [undefined]. *)
Record GeminiSdk : Type := {
  ai_generateContent : ContentRequest -> Settled GenerateResponse;
  ai_generateImages : string -> Settled (option string);
  ai_generateVideos : VideoRequest -> Settled (option string);
  ai_operations_get : string -> Settled Operation;
  ai_files_download : option string -> Settled DownloadedFile;
  undefinedRead : string -> JsThrown
}.

(** What the browser answers: the [i]-th [Math.random()]; the rendering of a
    number in a template literal; [localStorage.getItem]; [Date.now()]; and
    [Math.random().toString(36).substr(2, 9)]. *)
Record Browser : Type := {
  random : nat -> PrimFloat.float;
  numberText : PrimFloat.float -> string;
  localStorage_getItem : string -> option string;
  browser_now : Z;
  randomSuffix : string
}.

(** [{ lat, lng }] *)
Record Location : Type := {
  lat : PrimFloat.float;
  lng : PrimFloat.float
}.

(** [{ latitude, longitude }] *)
Record Coordinates : Type := {
  latitude : PrimFloat.float;
  longitude : PrimFloat.float
}.

(** [{ uri, placeTitle, placeId, coordinates, reviewExcerpts }] *)
Record MapSource : Type := {
  mapUri : string;
  placeTitle : string;
  placeId : string;
  coordinates : Coordinates;
  reviewExcerpts : list string
}.

(** [{ uri, webTitle, snippet }] *)
Record WebSearchSource : Type := {
  webUri : string;
  webTitle : string;
  snippet : string
}.

(** [{ text, mapSources }] *)
Record MapsGroundingResponse : Type := {
  mapsText : option string;
  mapSources : list MapSource
}.

(** [{ text, webSources }] *)
Record WebSearchGroundingResponse : Type := {
  webText : option string;
  webSources : list WebSearchSource
}.

Module geminiService.

(** Lines 9-18.  An absent [tools] is the empty list. *)
Definition formatTools (tls : list Tool) : option (list FunctionDeclaration) :=
  match tls with
  | [] => None
  | _ =>
      Some (map (fun tool => {| declName := toolDeclName tool;
                                declDescription := toolDescription tool;
                                declParameters := toolParameters tool |}) tls)
  end.

(** [msg.toolCalls.map(tc => ({ functionCall: { name, args: JSON.parse(tc.arguments) } }))] *)
Fixpoint functionCallParts (G : GeminiEnv) (tcs : list ToolCall) : Settled (list Part) :=
  match tcs with
  | [] => Resolved []
  | tc :: rest =>
      match JSON_parse G (callArguments tc) with
      | Rejected e => Rejected e
      | Resolved args =>
          match functionCallParts G rest with
          | Rejected e => Rejected e
          | Resolved ps => Resolved (FunctionCallPart (callName tc) args :: ps)
          end
      end
  end.

(** Lines 24-55: what one message adds to [geminiHistory]. *)
Definition formatMessage (G : GeminiEnv) (msg : ChatMessage) : Settled (list Content) :=
  match sender msg with
  | user =>
      let ps := [TextPart (text msg)] in
      let ps :=
        match image msg, mimeType msg with
        | Some img, Some mime =>
            if truthy img && truthy mime then ps ++ [InlineDataPart mime img] else ps
        | _, _ => ps
        end in
      Resolved [{| role := "user"; parts := ps |}]
  | agent =>
      match toolCalls msg with
      | Some (tc :: tcs) =>
          match functionCallParts G (tc :: tcs) with
          | Rejected e => Rejected e
          | Resolved ps => Resolved [{| role := "model"; parts := ps |}]
          end
      | _ =>
          if truthy (text msg)
          then Resolved [{| role := "model"; parts := [TextPart (text msg)] |}]
          else Resolved []
      end
  | tool_result =>
      match toolName msg with
      | Some name =>
          if truthy name then
            match JSON_parse G (text msg) with
            | Rejected e => Rejected e
            | Resolved response =>
                Resolved [{| role := "function";
                             parts := [FunctionResponsePart name response] |}]
            end
          else Resolved []
      | None => Resolved []
      end
  end.

(** Lines 20-58.  An absent [history] is the empty list. *)
Fixpoint formatHistory (G : GeminiEnv) (history : list ChatMessage)
    : Settled (list Content) :=
  match history with
  | [] => Resolved []
  | msg :: rest =>
      match formatMessage G msg with
      | Rejected e => Rejected e
      | Resolved cs =>
          match formatHistory G rest with
          | Rejected e => Rejected e
          | Resolved cs' => Resolved (cs ++ cs')
          end
      end
  end.

(** Lines 70-82.  An absent [systemInstruction] is the empty string. *)
Definition requestOf (mdl systemInstruction : string) (formattedHistory : list Content)
    (formattedTools : option (list FunctionDeclaration)) (oc : option OutputConfig)
    : GenerateRequest :=
  let formatted := match oc with Some o => outputEnabled o | None => false end in
  let format := match oc with Some o => outputFormat o | None => "" end in
  let asJson := bool_decide (format = "json") in
  let finalSystemInstruction :=
    if formatted && negb asJson then
      systemInstruction +:+ nl +:+ nl
      +:+ "IMPORTANT: You MUST format your entire response as valid " +:+ format
      +:+ ". Do not include any text, code fences, or explanations before or after the content."
    else systemInstruction in
  let cfg :=
    {| configSystemInstruction :=
         if truthy finalSystemInstruction then Some finalSystemInstruction else None;
       responseMimeType :=
         if formatted && asJson then Some "application/json" else None;
       configTools := formattedTools |} in
  {| requestModel := mdl;
     contents := formattedHistory;
     config :=
       match configSystemInstruction cfg, responseMimeType cfg, configTools cfg with
       | None, None, None => None
       | _, _, _ => Some cfg
       end |}.

(** Lines 93-97: the identified tool calls of a chunk, from the [i]-th on. *)
Fixpoint toolCallsOf (G : GeminiEnv) (i : nat) (fcs : list FunctionCall) : list ToolCall :=
  match fcs with
  | [] => []
  | fc :: rest =>
      {| callId := "tool-call-" +:+ pretty (gemini_now G i) +:+ "-" +:+ Math_random G i;
         callName := fcName fc;
         callArguments := fcArgs fc |} :: toolCallsOf G (S i) rest
  end.

(** Line 111: the increment of the [catch]. *)
Definition caughtChunk (error : JsThrown) : Chunk :=
  errorChunk ("Error: Could not get a response from Gemini. "
              +:+ match error with
                  | ErrorObject m => m
                  | OtherThrown _ => ""
                  end).

(** Lines 91-107: the loop over the SDK's stream, inside the [try]; an
    exception of the stream ends in the [catch] of line 109. *)
Fixpoint relay (G : GeminiEnv) (chunks : list GeminiChunk) (ending : option JsThrown)
    : list Chunk :=
  match chunks with
  | [] =>
      match ending with
      | Some error => [caughtChunk error]
      | None => []
      end
  | chunk :: rest =>
      match functionCalls chunk with
      | Some (fc :: fcs) => [toolCallsChunk (toolCallsOf G 0 (fc :: fcs))]
      | _ =>
          {| chunkError := None;
             chunkResponse := Some {| responseText := geminiText chunk;
                                      responseToolCalls := None |} |}
          :: relay G rest ending
      end
  end.

(** Lines 60-113.  [apiKey] is ignored, as the source says. *)
Definition generateContentStream (G : GeminiEnv) (key mdl systemInstruction : string)
    (history : list ChatMessage) (tls : list Tool) (oc : option OutputConfig)
    : StreamOutcome :=
  let formattedTools := formatTools tls in
  match formatHistory G history with
  | Rejected e => {| yielded := []; failure := Some e |}
  | Resolved formattedHistory =>
      match ai_generateContentStream G
              (requestOf mdl systemInstruction formattedHistory formattedTools oc) with
      | Rejected error => {| yielded := [caughtChunk error]; failure := None |}
      | Resolved responseStream =>
          {| yielded := relay G (sdkChunks responseStream) (sdkFailure responseStream);
             failure := None |}
      end
  end.

(** Lines 115-151.  [apiKey] is ignored, as the source says.  The history
    is formatted before the [try] of line 139. *)
Definition generateContent (G : GeminiEnv) (K : GeminiSdk)
    (key mdl systemInstruction : string) (history : list ChatMessage) (tls : list Tool)
    (oc : option OutputConfig) : Settled (option string) :=
  let formattedTools := formatTools tls in
  match formatHistory G history with
  | Rejected e => Rejected e
  | Resolved formattedHistory =>
      match ai_generateContent K
              (ChatRequest (requestOf mdl systemInstruction formattedHistory
                              formattedTools oc)) with
      | Resolved response => Resolved (sdkText response)
      | Rejected error =>
          Resolved (Some ("Error: Could not get a response from Gemini. "
                          +:+ errorText error))
      end
  end.

(** Line 173. *)
Definition citationOf (chunk : GroundingChunk) : Citation :=
  {| citationTitle := orElse (chunkWebTitle chunk) "Source";
     citationUri := orElse (chunkWebUri chunk) "#" |}.

(** Lines 153-181.  The whole body is inside the [try], and the [catch]
    returns: the promise resolves.  An absent [systemInstruction] is the empty
    string. *)
Definition generateContentWithSearch (K : GeminiSdk) (key mdl prompt systemInstruction : string)
    : SearchResult :=
  match ai_generateContent K
          (SearchRequest mdl prompt
             (if truthy systemInstruction then Some systemInstruction else None)) with
  | Resolved response =>
      let groundingChunks := default [] (sdkGroundingChunks response) in
      {| searchText := sdkText response;
         citations :=
           List.filter (fun c => negb (bool_decide (citationUri c = "#")))
                       (map citationOf groundingChunks) |}
  | Rejected error =>
      {| searchText := Some ("Error: Could not get a response from Gemini. "
                             +:+ errorText error);
         citations := [] |}
  end.

(** Lines 183-200. *)
Definition generateImage (K : GeminiSdk) (key prompt : string) : ImageResult :=
  match ai_generateImages K prompt with
  | Resolved base64ImageBytes =>
      match base64ImageBytes with
      | Some bytes =>
          if truthy bytes
          then {| resultImage := Some bytes; resultText := None; resultError := None |}
          else {| resultImage := None; resultText := None;
                  resultError := Some "Image generation failed: no image data received." |}
      | None =>
          {| resultImage := None; resultText := None;
             resultError := Some "Image generation failed: no image data received." |}
      end
  | Rejected error =>
      {| resultImage := None; resultText := None;
         resultError := Some ("Image generation failed: " +:+ errorText error) |}
  end.

(** Lines 223-229: the loop over the parts, from the values of
    [modifiedImage] and [responseText] so far. *)
Fixpoint scanParts (ps : list ResponsePart) (modifiedImage responseText : option string)
    : option string * option string :=
  match ps with
  | [] => (modifiedImage, responseText)
  | part :: rest =>
      if truthy (default EmptyString (partText part))
      then scanParts rest modifiedImage (partText part)
      else match partInlineData part with
           | Some data => scanParts rest data responseText
           | None => scanParts rest modifiedImage responseText
           end
  end.

(** Lines 202-241. *)
Definition editImage (K : GeminiSdk) (key prompt : string) (source : ImageData)
    : ImageResult :=
  let failed error :=
    {| resultImage := None; resultText := None;
       resultError := Some ("Image modification failed: " +:+ errorText error) |} in
  match ai_generateContent K (EditRequest source prompt) with
  | Resolved response =>
      match sdkParts response with
      | Resolved ps =>
          let '(modifiedImage, responseText) := scanParts ps None None in
          if truthy (default EmptyString modifiedImage)
          then {| resultImage := modifiedImage; resultText := responseText;
                  resultError := None |}
          else {| resultImage := None; resultText := None;
                  resultError := Some "Image modification failed: no image data received." |}
      | Rejected error => failed error
      end
  | Rejected error => failed error
  end.

(** Lines 270-273: the reference images of the configuration; reading
    [ref.image.mimeType] of a reference without [image] throws. *)
Fixpoint referencesOf (K : GeminiSdk) (refs : list ReferenceImage)
    : Settled (list (ImageData * option string)) :=
  match refs with
  | [] => Resolved []
  | ref :: rest =>
      match refImage ref with
      | None => Rejected (undefinedRead K "mimeType")
      | Some img =>
          match referencesOf K rest with
          | Rejected e => Rejected e
          | Resolved l => Resolved ((img, refType ref) :: l)
          end
      end
  end.

(** Lines 253-296: the request, or what building it throws. *)
Definition videoRequestOf (K : GeminiSdk) (options : VideoGenerationOptions)
    : Settled VideoRequest :=
  let references :=
    match optReferenceImages options with
    | Some (ref :: refs) =>
        match referencesOf K (ref :: refs) with
        | Resolved l => Resolved (Some l)
        | Rejected e => Rejected e
        end
    | _ => Resolved None
    end in
  match references with
  | Rejected e => Rejected e
  | Resolved referenceImages =>
      Resolved
        {| videoModel := "veo-3.1-generate-preview";
           videoPrompt := optPrompt options;
           videoConfig :=
             {| cfgAspectRatio := orElse (optAspectRatio options) "16:9";
                cfgResolution := orElse (optResolution options) "720p";
                cfgDurationSeconds :=
                  match optDurationSeconds options with
                  | Some d => if bool_decide (d = 0%Z) then 8%Z else d
                  | None => 8%Z
                  end;
                cfgPersonGeneration := orElse (optPersonGeneration options) "allow_all";
                cfgNegativePrompt :=
                  match optNegativePrompt options with
                  | Some n => if truthy n then Some n else None
                  | None => None
                  end;
                cfgSeed := optSeed options;
                cfgReferenceImages := referenceImages;
                cfgLastFrame := optLastFrame options |};
           videoImage := optFirstFrame options;
           videoVideo :=
             if bool_decide (optMode options = Some extension)
             then optExistingVideo options
             else None |}
  end.

(** Lines 247-314. *)
Definition generateVideo (K : GeminiSdk) (key : string) (options : VideoGenerationOptions)
    : VideoGenerationStatus :=
  let failed error :=
    {| operationId := Some EmptyString; videoStatus := FAILED; videoProgress := None;
       videoUrl := None; videoError := Some (errorText error) |} in
  match videoRequestOf K options with
  | Rejected error => failed error
  | Resolved request =>
      match ai_generateVideos K request with
      | Resolved name =>
          {| operationId := name; videoStatus := PROCESSING; videoProgress := Some 0%Z;
             videoUrl := None; videoError := None |}
      | Rejected error => failed error
      end
  end.

(** Lines 320-366. *)
Definition pollVideoOperation (K : GeminiSdk) (key operationId : string)
    : VideoGenerationStatus :=
  let failed message :=
    {| operationId := Some operationId; videoStatus := FAILED; videoProgress := None;
       videoUrl := None; videoError := Some message |} in
  match ai_operations_get K operationId with
  | Rejected error => failed (errorText error)
  | Resolved operation =>
      if operationDone operation then
        match generatedVideo operation with
        | Some video =>
            match ai_files_download K video with
            | Rejected error => failed (errorText error)
            | Resolved file =>
                {| operationId := Some operationId; videoStatus := COMPLETED;
                   videoProgress := Some 100%Z;
                   videoUrl := Some (orElse (fileUri file) (objectUrl file));
                   videoError := None |}
            end
        | None => failed "No video generated in response"
        end
      else
        {| operationId := Some operationId; videoStatus := PROCESSING;
           videoProgress := Some (Z.min 50 100); videoUrl := None; videoError := None |}
  end.

End geminiService.

(** ** services/arcLLMService.ts *)

(** ['maps' | 'web'] *)
Inductive GroundingType : Type := maps | web.

Definition groundingText (g : GroundingType) : string :=
  match g with
  | maps => "maps"
  | web => "web"
  end.

(** [{ valid, error? }] *)
Record Validation : Type := {
  valid : bool;
  validationError : option string
}.

Module arcLLMService.

Import PrimFloat.

Definition invalid (message : string) : Validation :=
  {| valid := false; validationError := Some message |}.

(** Lines 67-69. *)
Definition allowedTools (groundingType : GroundingType) : list string :=
  match groundingType with
  | maps => ["webSearch"; "googleWebSearch"]
  | web => ["mapsSearch"; "googleMaps"]
  end.

(** [t => !allowedTools.includes(t.name)] *)
Definition notAllowed (groundingType : GroundingType) (tool : Tool) : bool :=
  negb (bool_decide (toolDeclName tool ∈ allowedTools groundingType)).

(** Lines 44-82: [ArcLLMValidator.validateGroundingRequest].  Absent
    [tools] are the empty list. *)
Definition validateGroundingRequest (groundingType : GroundingType) (tls : list Tool)
    (oc : option OutputConfig) : Validation :=
  let formatted := match oc with Some o => outputEnabled o | None => false end in
  let format := match oc with Some o => outputFormat o | None => EmptyString end in
  if formatted && negb (bool_decide (format = "json")) then
    invalid ("Arc-LLM " +:+ groundingText groundingType
             +:+ " grounding incompatible with custom output formatting (" +:+ format +:+ ")")
  else if formatted && bool_decide (format = "json") then
    invalid ("Arc-LLM " +:+ groundingText groundingType
             +:+ " grounding incompatible with responseSchema (JSON formatting)")
  else if (0 <? length tls)%nat && existsb (notAllowed groundingType) tls then
    let invalidTool := List.find (notAllowed groundingType) tls in
    invalid ("Arc-LLM " +:+ groundingText groundingType
             +:+ " grounding cannot coexist with custom tool: "
             +:+ default "undefined" (toolDeclName <$> invalidTool))
  else {| valid := true; validationError := None |}.

(** [!img.mimeType || !img.data] *)
Definition malformed (img : ReferenceImage) : bool :=
  negb (truthy (default EmptyString (refMimeType img)))
  || negb (truthy (default EmptyString (refData img))).

(** Lines 87-105: [ArcLLMValidator.validateVideoRequest]. *)
Definition validateVideoRequest (options : VideoGenerationOptions) : Validation :=
  if negb (truthy (optPrompt options))
     || Nat.eqb (String.length (trim (optPrompt options))) 0
  then invalid "Video prompt is required"
  else
    match optReferenceImages options with
    | Some referenceImages =>
        if (3 <? length referenceImages)%nat
        then invalid "Maximum 3 reference images allowed"
        else if existsb malformed referenceImages
        then invalid "Invalid image format (missing mimeType or data)"
        else {| valid := true; validationError := None |}
    | None => {| valid := true; validationError := None |}
    end.

(** Lines 117-122: [MockApiKeyManager.hasSelectedApiKey]. *)
Definition hasSelectedApiKey (B : Browser) : bool :=
  match localStorage_getItem B "arc_llm_api_key" with
  | Some apiKey => (0 <? String.length apiKey)%nat
  | None => false
  end.

(** Lines 160-165: [VideoPollingStrategy.shouldContinue], with
    [MAX_ATTEMPTS = 100]. *)
Definition shouldContinue (attemptNumber : nat) (st : VideoGenerationStatus) : bool :=
  if (100 <=? attemptNumber)%nat then false
  else bool_decide (videoStatus st = PROCESSING).

(** Lines 180-236.  The warning and the alert of [openSelectKey] are left
    out; nothing in the [try] throws. *)
Definition generateVideo (B : Browser) (key : string) (options : VideoGenerationOptions)
    : VideoGenerationStatus :=
  let validation := validateVideoRequest options in
  if negb (valid validation) then
    {| operationId := Some EmptyString; videoStatus := FAILED; videoProgress := None;
       videoUrl := None; videoError := validationError validation |}
  else if negb (hasSelectedApiKey B) then
    {| operationId := Some EmptyString; videoStatus := FAILED; videoProgress := None;
       videoUrl := None; videoError := Some "Arc-LLM API key required" |}
  else
    {| operationId := Some ("arc-video-" +:+ pretty (browser_now B) +:+ "-"
                            +:+ randomSuffix B);
       videoStatus := PROCESSING; videoProgress := Some 0%Z;
       videoUrl := None; videoError := None |}.

(** Lines 358-391: the three places of the mock. *)
#[warning="-inexact-float"]
Definition mockMapSources : list MapSource :=
  [ {| mapUri := "https://maps.google.com/?q=Sushi+Shop+Paris";
       placeTitle := "Sushi Shop - Champs-Élysées";
       placeId := "ChIJMock123";
       coordinates := {| latitude := 48.8698%float; longitude := 2.3079%float |};
       reviewExcerpts := ["Excellent sushi, fresh fish!";
                          "Very nice ambiance and professional service."] |};
    {| mapUri := "https://maps.google.com/?q=Yoshi+Paris";
       placeTitle := "Yoshi - Teppanyaki Restaurant";
       placeId := "ChIJMock456";
       coordinates := {| latitude := 48.8566%float; longitude := 2.3522%float |};
       reviewExcerpts := ["Amazing teppanyaki show!"; "Authentic Japanese cuisine."] |};
    {| mapUri := "https://maps.google.com/?q=Zen+Paris";
       placeTitle := "Zen - Modern Japanese Fusion";
       placeId := "ChIJMock789";
       coordinates := {| latitude := 48.8584%float; longitude := 2.2945%float |};
       reviewExcerpts := ["Creative fusion dishes.";
                          "Highly recommend the omakase menu."] |} ].

(** Lines 305-402.  The validator is called with the grounding type only. *)
Definition generateContentWithMaps (B : Browser) (key mdl prompt systemInstruction : string)
    (userLocation : option Location) : MapsGroundingResponse :=
  let validation := validateGroundingRequest maps [] None in
  if negb (valid validation) then
    {| mapsText := Some ("Error: " +:+ default "undefined" (validationError validation));
       mapSources := [] |}
  else
    let mockText :=
      "Based on your location"
      +:+ match userLocation with
          | Some l => " (" +:+ numberText B (lat l) +:+ ", " +:+ numberText B (lng l) +:+ ")"
          | None => EmptyString
          end
      +:+ ", I found 3 highly-rated Japanese restaurants in Paris matching your query: "
      +:+ dquote +:+ prompt +:+ dquote +:+ "." in
    {| mapsText := Some mockText; mapSources := mockMapSources |}.

(** Lines 467-483: the three sources of the mock. *)
Definition mockWebSources : list WebSearchSource :=
  [ {| webUri := "https://techcrunch.com/2025/11/ai-latest";
       webTitle := "AI Breakthroughs November 2025 - TechCrunch";
       snippet := "Major advancements in multimodal AI models, with Arc-LLM leading in video generation capabilities..." |};
    {| webUri := "https://theverge.com/2025/11/arc-llm-launch";
       webTitle := "Arc-LLM Launches Video and Grounding Features - The Verge";
       snippet := "Arc-LLM announces groundbreaking video generation and real-time grounding capabilities for maps and web search..." |};
    {| webUri := "https://example.com/ai-news-2025";
       webTitle := "AI Industry Report November 2025";
       snippet := "Enterprise adoption of AI continues to grow, with new regulatory frameworks emerging in EU and US..." |} ].

(** Lines 420-498. *)
Definition generateContentWithWebSearch (key mdl prompt systemInstruction : string)
    : WebSearchGroundingResponse :=
  let validation := validateGroundingRequest web [] None in
  if negb (valid validation) then
    {| webText := Some ("Error: " +:+ default "undefined" (validationError validation));
       webSources := [] |}
  else
    {| webText :=
         Some ("Here are the latest developments in AI as of November 2025, "
               +:+ "based on recent web sources for: " +:+ dquote +:+ prompt +:+ dquote +:+ ".");
       webSources := mockWebSources |}.

(** Lines 509-533: the mock resolves with the coordinates of Paris. *)
#[warning="-inexact-float"]
Definition getUserLocation : Location :=
  {| lat := 48.8566%float; lng := 2.3522%float |}.

End arcLLMService.

(** ** services/llmService.ts *)

(** The [generateContentStream] of a provider's service module, called with
    the arguments in the order the dispatcher passes them. *)
Definition BackendStream : Type :=
  string -> string -> string -> list ChatMessage -> list Tool ->
  option OutputConfig -> StreamOutcome.

(** The [generateContent] of a provider's service module, called with the
    arguments in the order the dispatcher passes them. *)
Definition BackendComplete : Type :=
  string -> string -> string -> list ChatMessage -> list Tool ->
  option OutputConfig -> Settled (option string).

(** The functions the dispatcher looks for in a service module before it
    calls them (lines 603, 613, 636, 659 and 795): absent from a module that
    does not export them. *)
Record Extensions : Type := {
  ext_generateContentWithSearch :
    option (string -> string -> string -> string -> Settled SearchResult);
  ext_generateImage : option (string -> string -> Settled ImageResult);
  ext_editImage : option (string -> string -> ImageData -> Settled ImageResult);
  ext_generateVideo :
    option (string -> VideoGenerationOptions -> Settled VideoGenerationStatus);
  ext_pollVideoOperation : option (string -> string -> Settled VideoGenerationStatus)
}.

Module llmService.

(** Lines 552-567: [getServiceProvider].  The services other than Gemini's
    are not among the sources: [others] stands for them. *)
Definition getServiceProvider (G : GeminiEnv) (others : LLMProvider -> BackendStream)
    (p : LLMProvider) : BackendStream :=
  match p with
  | Gemini => geminiService.generateContentStream G
  | _ => others p
  end.

(** Lines 569-582.  For LMStudio the endpoint comes first and the key is
    not among the six arguments modelled here. *)
Definition generateContentStream (G : GeminiEnv) (others : LLMProvider -> BackendStream)
    (p : LLMProvider) (key mdl systemInstruction : string) (history : list ChatMessage)
    (tls : list Tool) (oc : option OutputConfig) (endpoint : string) : StreamOutcome :=
  let service := getServiceProvider G others p in
  if bool_decide (p = LMStudio) then
    service (if truthy endpoint then endpoint else "http://localhost:3928")
            mdl systemInstruction history tls oc
  else service key mdl systemInstruction history tls oc.

Import PrimFloat.

(** Lines 552-567 again: [getServiceProvider(provider).generateContent]. *)
Definition getCompletionProvider (G : GeminiEnv) (K : GeminiSdk)
    (others : LLMProvider -> BackendComplete) (p : LLMProvider) : BackendComplete :=
  match p with
  | Gemini => geminiService.generateContent G K
  | _ => others p
  end.

(** Lines 584-597. *)
Definition generateContent (G : GeminiEnv) (K : GeminiSdk)
    (others : LLMProvider -> BackendComplete) (p : LLMProvider)
    (key mdl systemInstruction : string) (history : list ChatMessage) (tls : list Tool)
    (oc : option OutputConfig) (endpoint : string) : Settled (option string) :=
  let service := getCompletionProvider G K others p in
  if bool_decide (p = LMStudio) then
    service (if truthy endpoint then endpoint else "http://localhost:3928")
            mdl systemInstruction history tls oc
  else service key mdl systemInstruction history tls oc.

(** Lines 552-567 again: the functions of the module of a provider that the
    dispatcher looks for.  The Gemini service exports the five of them; the
    Arc-LLM service exports [generateVideo] only (its polling function is
    named [pollVideoStatus]); the other services are not among the sources:
    [others] stands for them. *)
Definition getExtensions (K : GeminiSdk) (B : Browser) (others : LLMProvider -> Extensions)
    (p : LLMProvider) : Extensions :=
  match p with
  | Gemini =>
      {| ext_generateContentWithSearch :=
           Some (fun key mdl prompt sys =>
                   Resolved (geminiService.generateContentWithSearch K key mdl prompt sys));
         ext_generateImage :=
           Some (fun key prompt => Resolved (geminiService.generateImage K key prompt));
         ext_editImage :=
           Some (fun key prompt source =>
                   Resolved (geminiService.editImage K key prompt source));
         ext_generateVideo :=
           Some (fun key options => Resolved (geminiService.generateVideo K key options));
         ext_pollVideoOperation :=
           Some (fun key operation =>
                   Resolved (geminiService.pollVideoOperation K key operation)) |}
  | ArcLLM =>
      {| ext_generateContentWithSearch := None;
         ext_generateImage := None;
         ext_editImage := None;
         ext_generateVideo :=
           Some (fun key options => Resolved (arcLLMService.generateVideo B key options));
         ext_pollVideoOperation := None |}
  | _ => others p
  end.

(** Lines 599-607. *)
Definition generateContentWithSearch (K : GeminiSdk) (B : Browser)
    (others : LLMProvider -> Extensions) (p : LLMProvider)
    (key mdl prompt systemInstruction : string) : Settled SearchResult :=
  match ext_generateContentWithSearch (getExtensions K B others p) with
  | None =>
      Resolved {| searchText := Some ("Error: " +:+ providerText p
                                      +:+ " does not support Web Search.");
                  citations := [] |}
  | Some service => service key mdl prompt systemInstruction
  end.

(** Lines 609-617. *)
Definition generateImage (K : GeminiSdk) (B : Browser) (others : LLMProvider -> Extensions)
    (p : LLMProvider) (key prompt : string) : Settled ImageResult :=
  match ext_generateImage (getExtensions K B others p) with
  | None =>
      Resolved {| resultImage := None; resultText := None;
                  resultError := Some ("Image generation is not supported by "
                                       +:+ providerText p +:+ ".") |}
  | Some service => service key prompt
  end.

(** Lines 791-799. *)
Definition editImage (K : GeminiSdk) (B : Browser) (others : LLMProvider -> Extensions)
    (p : LLMProvider) (key prompt : string) (source : ImageData) : Settled ImageResult :=
  match ext_editImage (getExtensions K B others p) with
  | None =>
      Resolved {| resultImage := None; resultText := None;
                  resultError := Some ("Image modification is not supported by "
                                       +:+ providerText p +:+ ".") |}
  | Some service => service key prompt source
  end.

(** Lines 630-644. *)
Definition generateVideo (K : GeminiSdk) (B : Browser) (others : LLMProvider -> Extensions)
    (p : LLMProvider) (key : string) (options : VideoGenerationOptions)
    : Settled VideoGenerationStatus :=
  match ext_generateVideo (getExtensions K B others p) with
  | None =>
      Resolved {| operationId := Some EmptyString; videoStatus := FAILED;
                  videoProgress := None; videoUrl := None;
                  videoError := Some ("Video generation is not supported by "
                                      +:+ providerText p +:+ ".") |}
  | Some service => service key options
  end.

(** Lines 653-667. *)
Definition pollVideoOperation (K : GeminiSdk) (B : Browser)
    (others : LLMProvider -> Extensions) (p : LLMProvider) (key operation : string)
    : Settled VideoGenerationStatus :=
  match ext_pollVideoOperation (getExtensions K B others p) with
  | None =>
      Resolved {| operationId := Some operation; videoStatus := FAILED;
                  videoProgress := None; videoUrl := None;
                  videoError := Some ("Video polling not supported by "
                                      +:+ providerText p +:+ ".") |}
  | Some service => service key operation
  end.

(** Lines 696-705: the map source of the citation at [index]; the two
    [Math.random()] of the source are the calls [2 * index] and
    [2 * index + 1] of the function. *)
#[warning="-inexact-float"]
Definition mapSourceOf (B : Browser) (index : nat) (citation : Citation) : MapSource :=
  {| mapUri := citationUri citation;
     placeTitle := citationTitle citation;
     placeId := "place-" +:+ pretty index;
     coordinates :=
       {| latitude := (48.8566 + (random B (2 * index) - 0.5) * 0.1)%float;
          longitude := (2.3522 + (random B (2 * index + 1) - 0.5) * 0.1)%float |};
     reviewExcerpts := [] |}.

(** Lines 682-725.  The service of line 693 resolves, and nothing after it
    in the [try] throws. *)
Definition generateContentWithMaps (K : GeminiSdk) (B : Browser) (p : LLMProvider)
    (key mdl prompt systemInstruction : string) (userLocation : option Location)
    : MapsGroundingResponse :=
  if bool_decide (p = Gemini) then
    let result := geminiService.generateContentWithSearch K key mdl prompt systemInstruction in
    {| mapsText := searchText result;
       mapSources := imap (mapSourceOf B) (take 5 (citations result)) |}
  else if bool_decide (p = ArcLLM) then
    arcLLMService.generateContentWithMaps B key mdl prompt systemInstruction userLocation
  else
    {| mapsText := Some ("Error: Maps Grounding not supported by " +:+ providerText p);
       mapSources := [] |}.

(** Lines 753-757. *)
Definition webSourceOf (citation : Citation) : WebSearchSource :=
  {| webUri := citationUri citation;
     webTitle := citationTitle citation;
     snippet := EmptyString |}.

(** Lines 740-781. *)
Definition generateContentWithWebSearchGrounding (K : GeminiSdk) (p : LLMProvider)
    (key mdl prompt systemInstruction : string) : WebSearchGroundingResponse :=
  if bool_decide (p = Gemini) then
    let result := geminiService.generateContentWithSearch K key mdl prompt systemInstruction in
    {| webText := searchText result;
       webSources := map webSourceOf (citations result) |}
  else if bool_decide (p = ArcLLM) then
    arcLLMService.generateContentWithWebSearch key mdl prompt systemInstruction
  else
    {| webText := Some ("Error: Web Search Grounding not supported by " +:+ providerText p);
       webSources := [] |}.

(** Lines 787-789. *)
Definition getUserLocation : Location := arcLLMService.getUserLocation.

End llmService.

(** ** Sample data *)

Definition sampleNow (k : nat) : Z := (1700000000000 + Z.of_nat k)%Z.

(** Whether a history ends with the synthetic message of a follow-up call. *)
Definition endsWithContext (history : list ChatMessage) : bool :=
  match last history with
  | Some m => String.prefix "tool_results_context" (text m)
  | None => false
  end.

(** A world whose clock advances by one millisecond per reading, whose
    counters other than the message count stay at zero, and whose provider
    and tools answer as scripted: the tool named [explode] throws. *)
Definition scriptedEnv (summary : Settled string) (primary followUpAnswer : StreamOutcome)
    : Env :=
  {| Date_now := sampleNow;
     t := fun key => key;
     countTokens := fun _ => 0;
     countWords := fun _ => 0;
     countSentences := fun _ => 0;
     llm_generateContent := fun _ _ _ _ _ _ => summary;
     llm_generateContentStream := fun _ _ _ _ _ history _ _ =>
       if endsWithContext history then followUpAnswer else primary;
     tool_executeTool := fun _ tc =>
       if bool_decide (callName tc = "explode")
       then Rejected (ErrorObject "kaboom")
       else Resolved (ToolString ("done " +:+ callName tc)) |}.

Definition silent : StreamOutcome := {| yielded := []; failure := None |}.

(** The configuration of Gemini in [sampleStore]. *)
Definition sampleGeminiConfig : LLMConfig :=
  {| provider := Gemini; enabled := true; apiKey := "k-gemini" |}.

Definition sampleStore (msgs : list ChatMessage) (executing : bool) : RuntimeStore :=
  {| nodeMessages := {[ "node-1" := msgs ]};
     nodeExecuting := {[ "node-1" := executing ]};
     llmConfigs := [ sampleGeminiConfig ] |}.

Definition sampleWorld (msgs : list ChatMessage) (executing : bool) (input : string) : World :=
  {| store := sampleStore msgs executing;
     userInputState := input; attachedFileState := None;
     loadingMessageState := ""; trace := []; clock := 0 |}.

Definition sampleAgent (caps : list LLMCapability) (hc : option HistoryConfig) : Agent :=
  {| llmProvider := Gemini; model := "gemini-2.5-flash"; systemPrompt := "Be brief.";
     tools := []; outputConfig := None; capabilities := caps; historyConfig := hc |}.

Definition samplePolicy (p : LLMProvider) (messageLimit : nat) : HistoryConfig :=
  {| historyEnabled := true;
     limits := {| limitToken := 800; limitWord := 1000; limitSentence := 50;
                  limitMessage := messageLimit |};
     historyProvider := p; historyModel := "gemini-2.5-flash";
     historySystemPrompt := "Summarize." |}.

Definition earlier (n : nat) : list ChatMessage :=
  map (fun k => plainMessage ("old-" +:+ pretty k) user ("message " +:+ pretty k)) (seq 1 n).

Definition sampleCall (name : string) : ToolCall :=
  {| callId := "call-" +:+ name; callName := name; callArguments := "{}" |}.

(** The white space of the JSON grammar, which is narrower than the white
    space of [trim]: tab, line feed, carriage return and space. *)
Fixpoint skipJsonSpace (s : string) : string :=
  match s with
  | EmptyString => EmptyString
  | String c r =>
      if bool_decide (nat_of_ascii c ∈ [9; 10; 13; 32]) then skipJsonSpace r else s
  end.

(** After its white space, the first character of every JSON text is a
    brace, a bracket, a quote, a minus sign, a digit, or the first letter of
    [true], [false] or [null].  This [JSON.parse] throws on the texts that begin otherwise and
    looks no further into the others. *)
Definition sampleParse (s : string) : Settled JsonValue :=
  match skipJsonSpace s with
  | String c _ =>
      if bool_decide (c ∈ ascii_of_nat 34 :: list_ascii_of_string "{[-0123456789tfn")
      then Resolved (Parsed s)
      else Rejected (ErrorObject "Unexpected token in JSON at position 0")
  | EmptyString => Rejected (ErrorObject "Unexpected end of JSON input")
  end.

(** A Gemini SDK that answers every request with the given stream. *)
Definition sampleGemini (answer : Settled SdkStream) : GeminiEnv :=
  {| JSON_parse := sampleParse;
     ai_generateContentStream := fun _ => answer;
     gemini_now := sampleNow;
     Math_random := fun i => "0." +:+ pretty i |}.

(** No service but Gemini's answers: the others end at once. *)
Definition noOthers (p : LLMProvider) : BackendStream :=
  fun _ _ _ _ _ _ => silent.

(** ** The reads the spec exposes *)

(** [getSession(sessionId)] *)
Definition getSession (w : World) (nodeId : string) : list ChatMessage :=
  store_getNodeMessages (store w) nodeId.

(** [isExecuting(sessionId)] *)
Definition isExecuting (w : World) (nodeId : string) : bool :=
  store_isNodeExecuting (store w) nodeId.

(** The calls made after the world [w]. *)
Definition eventsSince {A : Type} (w : World) (o : Outcome A) : list Event :=
  drop (length (trace w)) (trace (finalWorld o)).

Definition isStreamCall (ev : Event) : bool :=
  match ev with
  | StreamCall _ _ _ _ _ _ _ => true
  | _ => false
  end.

Definition isToolRun (ev : Event) : bool :=
  match ev with
  | ToolRun _ => true
  | _ => false
  end.

(** ** A submission the handler accepts *)

(** Lines 1206-1232, on a submission that is not empty and whose attachment,
    if any, was read into [userMessage]: the session is marked as executing,
    the user message is appended and the input is cleared; the clock was read
    once, for the id of the message. *)
Definition begun (nodeId : string) (userMessage : ChatMessage) (w : World) : World :=
  {| store := store_addNodeMessage (store_setNodeExecuting (store w) nodeId true)
                nodeId userMessage;
     userInputState := EmptyString;
     attachedFileState := None;
     loadingMessageState := loadingMessageState w;
     trace := trace w;
     clock := S (clock w) |}.

(** The user message of the submission typed in the world [w]. *)
Definition typedMessage (E : Env) (a : Agent) (w : World) : Settled ChatMessage :=
  attachFile a (attachedFileState w)
    (plainMessage (stamped "msg-" (Date_now E (clock w)) EmptyString) user
       (trim (userInputState w))).

(** The submission typed in [w] is not empty, its attachment is read, and the
    provider of the agent is configured, enabled and has a key: the handler
    reaches the [try] of line 1250 with [userMessage] and [agentConfig]. *)
Definition accepted (E : Env) (a : Agent) (w : World) (userMessage : ChatMessage)
    (agentConfig : LLMConfig) : Prop :=
  (truthy (trim (userInputState w)) = true \/ is_Some (attachedFileState w))
  /\ typedMessage E a w = Resolved userMessage
  /\ findConfig (llmConfigs (store w)) (llmProvider a) = Some agentConfig
  /\ enabled agentConfig = true
  /\ truthy (apiKey agentConfig) = true.

(** One of the four counters of a history has reached its limit. *)
Definition anyCounterMet (E : Env) (lim : HistoryLimits) (history : list ChatMessage)
    : Prop :=
  limitToken lim <= countTokens E history
  \/ limitWord lim <= countWords E history
  \/ limitSentence lim <= countSentences E history
  \/ limitMessage lim <= countMessages history.

(** The call that asks for the summary of a history, read at the clock [k]. *)
Definition summaryCall (E : Env) (sc : LLMConfig) (hc : HistoryConfig) (k : nat)
    (history : list ChatMessage) : Event :=
  CompleteCall (provider sc) (apiKey sc) (historyModel hc) (historySystemPrompt hc)
    [plainMessage (stamped "msg-summary-prompt-" (Date_now E k) EmptyString) user
                  (summarizationPrompt E history)].

(** ** The text phase of a stream *)

(** The text a chunk carries, the empty string when it carries none. *)
Definition incrementText (chunk : Chunk) : string :=
  match chunkResponse chunk with
  | Some r => default EmptyString (responseText r)
  | None => EmptyString
  end.

(** The ordered concatenation of a list of strings. *)
Definition concatenation (l : list string) : string :=
  foldr String.append EmptyString l.

(** A chunk of the text phase: no error and no tool calls. *)
Definition textPhase (chunk : Chunk) : Prop :=
  chunkFailure chunk = None /\ chunkToolCalls chunk = None.

(** The session holds the message of the stream, and the text of every
    message under its id is [txt]. *)
Definition inProgress (agentMessageId txt : string) (session : list ChatMessage) : Prop :=
  (exists m, m ∈ session /\ msgId m = agentMessageId)
  /\ (forall m, m ∈ session -> msgId m = agentMessageId -> text m = txt).

(** The value of the loop's variables when the loop ends. *)
Definition loopEnd (response : string) (tcs : list ToolCall) (left : bool) : LoopState :=
  {| currentResponse := response; recordedToolCalls := tcs; broken := left |}.

(** Between two worlds nothing but the session of the node has changed, and
    the session has not shrunk. *)
Definition sessionOnly (nodeId : string) (w w' : World) : Prop :=
  trace w' = trace w
  /\ clock w' = clock w
  /\ isExecuting w' nodeId = isExecuting w nodeId
  /\ length (getSession w nodeId) <= length (getSession w' nodeId).

(** ** The messages of the tool loop *)

(** The message lines 1377-1397 append for a tool call run at the clock [k]:
    the tool is read at [k], [Date.now()] at [k + 1]. *)
Definition toolMessageAt (E : Env) (k : nat) (toolCall : ToolCall) : ChatMessage :=
  match tool_executeTool E k toolCall with
  | Resolved toolResult => toolResultMessageOf (Date_now E (S k)) toolCall toolResult
  | Rejected error => toolErrorMessageOf (Date_now E (S k)) toolCall error
  end.

(** The messages of a list of tool calls run one after the other from the
    clock [k] on. *)
Fixpoint toolMessagesFrom (E : Env) (k : nat) (toolCalls : list ToolCall)
    : list ChatMessage :=
  match toolCalls with
  | [] => []
  | toolCall :: rest => toolMessageAt E k toolCall :: toolMessagesFrom E (S (S k)) rest
  end.

(** Lines 1411-1431: the history of the follow-up call, for a session read at
    the clock [k]: the tool results are taken out, and one synthetic user
    message that renders them is put at the end. *)
Definition followUpHistory (E : Env) (k : nat) (session : list ChatMessage)
    : list ChatMessage :=
  let toolResults := List.filter isToolResult session in
  List.filter (fun m => negb (isToolResult m)) session
  ++ (if (0 <? length toolResults)%nat
      then [contextMessageOf E (Date_now E k) toolResults]
      else []).

(** The follow-up call of an agent, with the key of its provider. *)
Definition followUpCall (a : Agent) (key : string) (history : list ChatMessage) : Event :=
  StreamCall (llmProvider a) key (model a) (systemPrompt a) history (tools a)
             (outputConfig a).

(** The primary stream call of an agent, with the key of its provider. *)
Definition primaryCall (a : Agent) (agentConfig : LLMConfig) (history : list ChatMessage)
    : Event :=
  StreamCall (llmProvider a) (apiKey agentConfig) (model a) (systemPrompt a) history
             (tools a) (outputConfig a).

(** The world after the [catch] of the turn, entered in [w] with [error]. *)
Definition errored (E : Env) (nodeId : string) (error : JsThrown) (w : World) : World :=
  withStore (fun s => store_addNodeMessage s nodeId
               (errorMessageOf (stamped "msg-" (Date_now E (clock w)) EmptyString)
                               ("Erreur: " +:+ errorText error)))
            (advance w).

(** The world after the [finally] of the turn, entered in [w]. *)
Definition finished (nodeId : string) (w : World) : World :=
  withLoadingMessage EmptyString
    (withStore (fun s => store_setNodeExecuting s nodeId false) w).

(** The world the [try] of the turn is left in: by its end, or through the
    [catch]. *)
Definition settled (E : Env) (nodeId : string) (o : Outcome unit) : World :=
  match o with
  | Returns _ w => w
  | Rejects e w => errored E nodeId e w
  end.

(** The calls a turn makes after its primary stream call: none, or the tools
    of a list of recorded tool calls that is not empty, followed by the
    follow-up call when the agent has the Chat capability, and by nothing when
    it has not. *)
Definition toolPhase (a : Agent) (key : string) (post : list Event) : Prop :=
  post = []
  \/ exists tcs, tcs <> []
       /\ (((Chat ∈ capabilities a)
            /\ exists h, post = map ToolRun tcs ++ [followUpCall a key h])
           \/ ((Chat ∉ capabilities a) /\ post = map ToolRun tcs)).

(** ** Messages a turn does not rewrite *)

(** The last character of a string. *)
Fixpoint lastChar (s : string) : option ascii :=
  match s with
  | EmptyString => None
  | String c EmptyString => Some c
  | String _ r => lastChar r
  end.

(** The characters [Date.now()] is rendered with. *)
Definition isDigit (c : ascii) : bool :=
  bool_decide (c ∈ list_ascii_of_string "0123456789").

(** The ids a turn gives to the message of its primary stream and to the
    message of its follow-up stream. *)
Definition streamId (i : string) : Prop :=
  exists now, i = stamped "msg-" now "-agent" \/ i = stamped "msg-" now "-followup".

(** A message no step of a turn rewrites: it has no status to clear and its
    id is not the id of a streamed message. *)
Definition settledMessage (m : ChatMessage) : Prop :=
  status m = None /\ ~ streamId (msgId m).

(** The session of the node begins with the messages [keep]. *)
Definition beginsWith (nodeId : string) (keep : list ChatMessage) (w : World) : Prop :=
  exists extra, getSession w nodeId = keep ++ extra.

(** A property of the world that a computation keeps, however it ends. *)
Definition preserves {A : Type} (P : World -> Prop) (c : Async A) : Prop :=
  forall w, P w -> P (finalWorld (c w)).

(** The world of [E] in which the streams of the component come from the
    dispatcher, over the Gemini service of [G] and the services [others].
    The component passes no endpoint. *)
Definition dispatched (G : GeminiEnv) (others : LLMProvider -> BackendStream) (E : Env)
    : Env :=
  {| Date_now := Date_now E;
     t := t E;
     countTokens := countTokens E;
     countWords := countWords E;
     countSentences := countSentences E;
     llm_generateContent := llm_generateContent E;
     llm_generateContentStream := fun _ p key mdl sys history tls oc =>
       llmService.generateContentStream G others p key mdl sys history tls oc EmptyString;
     tool_executeTool := tool_executeTool E |}.

(** The user types [s] in the textarea. *)
Definition typing (s : string) (w : World) : World :=
  finalWorld (setUserInput s w).

(** ** What a turn leaves alone *)

(** Between two worlds the configured providers, the executing flag of every
    node and the session of every node but [nodeId] are the same. *)
Definition sessionConfined (nodeId : string) (w w' : World) : Prop :=
  llmConfigs (store w') = llmConfigs (store w)
  /\ (forall n, isExecuting w' n = isExecuting w n)
  /\ (forall other, other <> nodeId -> getSession w' other = getSession w other).

(** Between two worlds the configured providers and the session and the
    executing flag of every node but [nodeId] are the same. *)
Definition elsewhere (nodeId : string) (w w' : World) : Prop :=
  llmConfigs (store w') = llmConfigs (store w)
  /\ forall other, other <> nodeId ->
       getSession w' other = getSession w other
       /\ isExecuting w' other = isExecuting w other.

(** The submission typed in [w] is not empty (line 1198). *)
Definition nonEmpty (w : World) : Prop :=
  truthy (trim (userInputState w)) = true \/ is_Some (attachedFileState w).

(** The message of lines 1239-1244, stamped at the clock [k]. *)
Definition notConfiguredMessage (E : Env) (a : Agent) (k : nat) : ChatMessage :=
  errorMessageOf (stamped "msg-" (Date_now E k) EmptyString)
    ("Erreur: " +:+ providerText (llmProvider a) +:+ " n'est pas configuré ou activé.").

(** The tool calls of the last chunk of a list that carries some. *)
Definition lastToolCalls (chunks : list Chunk) : list ToolCall :=
  default [] (last (omap chunkToolCalls chunks)).

(** No message of the session of the node is marked as executing a tool. *)
Definition noneExecutingTool (nodeId : string) (w : World) : Prop :=
  Forall (fun m => status m = None) (getSession w nodeId).

(** The world after lines 1238-1248, reached in [begun nodeId userMessage w]
    when the provider of the agent is not configured: the error message is
    appended and the executing flag cleared. *)
Definition unconfigured (E : Env) (nodeId : string) (a : Agent) (userMessage : ChatMessage)
    (w : World) : World :=
  withStore (fun s => store_setNodeExecuting s nodeId false)
    (withStore (fun s => store_addNodeMessage s nodeId (notConfiguredMessage E a (S (clock w))))
       (advance (begun nodeId userMessage w))).

(** The world in which the handler is left when the attachment cannot be
    read (lines 1206-1228): the executing flag is set and the clock was read
    once. *)
Definition unread (nodeId : string) (w : World) : World :=
  advance (withStore (fun s => store_setNodeExecuting s nodeId true) w).

(** A picked file that cannot be read. *)
Definition unreadableFile : File :=
  {| fileName := "scan.png"; fileType := "image/png";
     fileAsText := Rejected (ErrorObject "NotReadableError");
     fileAsBase64 := Rejected (ErrorObject "NotReadableError") |}.

(** The user picks the file [f] in the form. *)
Definition attaching (f : File) (w : World) : World :=
  finalWorld (setAttachedFile (Some f) w).

(** A property of the session of a node, as a property of the world. *)
Definition sessionHas (P : list ChatMessage -> Prop) (nodeId : string) (w : World) : Prop :=
  P (getSession w nodeId).

(** ** What the Gemini service formats *)

(** Whether [JSON.parse] returns on a text. *)
Definition parses (G : GeminiEnv) (s : string) : bool :=
  match JSON_parse G s with
  | Resolved _ => true
  | Rejected _ => false
  end.

(** The messages whose texts [JSON.parse] returns on, where [formatHistory]
    parses them: the arguments of the tool calls of an agent message, and the
    text of a tool result that has a tool name. *)
Definition formattable (G : GeminiEnv) (msg : ChatMessage) : bool :=
  match sender msg with
  | user => true
  | agent =>
      match toolCalls msg with
      | Some tcs => forallb (fun tc => parses G (callArguments tc)) tcs
      | None => true
      end
  | tool_result =>
      match toolName msg with
      | Some name => negb (truthy name) || parses G (text msg)
      | None => true
      end
  end.

(** The text of the summary as the template literal of line 1296 renders it:
    an absent text reads [undefined]. *)
Definition renderedText (t : option string) : string := default "undefined" t.

(** The world of [E] in which both entry points of the dispatcher the
    component calls are the dispatcher's, over the Gemini service of [G] and
    [K]; the component passes neither tools nor an output configuration nor an
    endpoint to [generateContent]. *)
Definition dispatchedAll (G : GeminiEnv) (K : GeminiSdk)
    (streams : LLMProvider -> BackendStream) (completions : LLMProvider -> BackendComplete)
    (E : Env) : Env :=
  {| Date_now := Date_now E;
     t := t E;
     countTokens := countTokens E;
     countWords := countWords E;
     countSentences := countSentences E;
     llm_generateContent := fun _ p key mdl sys history =>
       match llmService.generateContent G K completions p key mdl sys history [] None
               EmptyString with
       | Resolved txt => Resolved (renderedText txt)
       | Rejected e => Rejected e
       end;
     llm_generateContentStream := fun _ p key mdl sys history tls oc =>
       llmService.generateContentStream G streams p key mdl sys history tls oc EmptyString;
     tool_executeTool := tool_executeTool E |}.

(** An increment of the text phase of the Gemini service: no error and no
    tool calls. *)
Definition plainIncrement (c : Chunk) : Prop :=
  chunkError c = None /\ chunkToolCalls c = None.

(** A citation a caller can follow: a title and a link that are not empty,
    and a link that is not the placeholder. *)
Definition usable (c : Citation) : Prop :=
  truthy (citationTitle c) = true /\ truthy (citationUri c) = true
  /\ citationUri c <> "#".

(** The grounding chunks that give a citation: those with a link that is
    neither absent, nor empty, nor the placeholder. *)
Definition linked (chunk : GroundingChunk) : bool :=
  match chunkWebUri chunk with
  | Some u => truthy u && negb (bool_decide (u = "#"))
  | None => false
  end.

(** An SDK that answers every call the same way. *)
Definition sampleSdk (content : Settled GenerateResponse) : GeminiSdk :=
  {| ai_generateContent := fun _ => content;
     ai_generateImages := fun _ => Resolved (Some "aW1hZ2U=");
     ai_generateVideos := fun _ => Resolved (Some "operations/veo-1");
     ai_operations_get := fun _ =>
       Resolved {| operationDone := false; generatedVideo := None |};
     ai_files_download := fun _ =>
       Resolved {| fileUri := Some "https://files.example/video.mp4";
                   objectUrl := "blob:video" |};
     undefinedRead := fun property =>
       ErrorObject ("Cannot read properties of undefined (reading '" +:+ property +:+ "')") |}.

(** No completion service but Gemini's answers: the others return no text. *)
Definition noCompletions (p : LLMProvider) : BackendComplete :=
  fun _ _ _ _ _ _ => Resolved None.

(** A browser whose [Math.random()] is always zero, that renders every
    number the same way, whose clock is that of the samples, and whose local
    storage holds the given key of Arc-LLM, if any. *)
Definition sampleBrowser (storedKey : option string) : Browser :=
  {| random := fun _ => PrimFloat.zero;
     numberText := fun _ => "48.8566";
     localStorage_getItem := fun name =>
       if bool_decide (name = "arc_llm_api_key") then storedKey else None;
     browser_now := sampleNow 0;
     randomSuffix := "k3x9q2m1z" |}.

(** A grounding chunk with a title and a link. *)
Definition webChunk (title uri : string) : GroundingChunk :=
  {| chunkWebTitle := Some title; chunkWebUri := Some uri |}.

(** A response with the given text and grounding chunks. *)
Definition groundedResponse (txt : string) (chunks : list GroundingChunk) : GenerateResponse :=
  {| sdkText := Some txt; sdkGroundingChunks := Some chunks; sdkParts := Resolved [] |}.

(** Six grounding chunks with a link, around one without a link and one
    whose link is the placeholder. *)
Definition sampleChunks : list GroundingChunk :=
  [ webChunk "Le Monde" "https://lemonde.fr";
    {| chunkWebTitle := Some "No link"; chunkWebUri := None |};
    {| chunkWebTitle := None; chunkWebUri := Some "https://example.org" |};
    webChunk "Placeholder" "#";
    webChunk "Three" "https://three.example";
    webChunk "Four" "https://four.example";
    webChunk "Five" "https://five.example";
    webChunk "Six" "https://six.example" ].

(** No service but those of Gemini and Arc-LLM exports an extension. *)
Definition noExtensions (p : LLMProvider) : Extensions :=
  {| ext_generateContentWithSearch := None; ext_generateImage := None;
     ext_editImage := None; ext_generateVideo := None; ext_pollVideoOperation := None |}.

(** ** What the validators of Arc-LLM accept *)

(** The output configuration does not ask for a format. *)
Definition unformatted (oc : option OutputConfig) : Prop :=
  forall o, oc = Some o -> outputEnabled o = false.

(** A tool the grounding of a type may coexist with. *)
Definition allowedWith (g : GroundingType) (tool : Tool) : Prop :=
  toolDeclName tool ∈ arcLLMService.allowedTools g.

(** A reference image with a MIME type and data at its top level. *)
Definition wellFormed (img : ReferenceImage) : Prop :=
  exists m d, refMimeType img = Some m /\ refData img = Some d
              /\ m <> EmptyString /\ d <> EmptyString.

(** The video options the validator of Arc-LLM accepts. *)
Definition acceptableVideo (options : VideoGenerationOptions) : Prop :=
  trim (optPrompt options) <> EmptyString
  /\ forall refs, optReferenceImages options = Some refs ->
       length refs <= 3 /\ Forall wellFormed refs.

(** A key of Arc-LLM is stored in the browser. *)
Definition keyStored (B : Browser) : Prop :=
  exists k, localStorage_getItem B "arc_llm_api_key" = Some k /\ k <> EmptyString.

(** A generation that did not start: no operation to poll, and an error. *)
Definition notStarted (st : VideoGenerationStatus) : Prop :=
  videoStatus st = FAILED /\ operationId st = Some EmptyString /\ is_Some (videoError st).

(** Video options with a prompt and nothing else. *)
Definition promptOnly (prompt : string) : VideoGenerationOptions :=
  {| optPrompt := prompt; optNegativePrompt := None; optMode := None;
     optResolution := None; optAspectRatio := None; optDurationSeconds := None;
     optPersonGeneration := None; optSeed := None; optFirstFrame := None;
     optLastFrame := None; optReferenceImages := None; optExistingVideo := None |}.

(** The status the dispatcher resolves with for a provider whose service
    has no polling function (lines 660-664). *)
Definition pollingUnsupported (p : LLMProvider) (operation : string) : VideoGenerationStatus :=
  {| operationId := Some operation; videoStatus := FAILED; videoProgress := None;
     videoUrl := None;
     videoError := Some ("Video polling not supported by " +:+ providerText p +:+ ".") |}.

(** A part of a response that carries an image: inline data that is not
    empty, and no text. *)
Definition imagePart (data : string) (part : ResponsePart) : Prop :=
  partInlineData part = Some (Some data)
  /\ data <> EmptyString
  /\ truthy (default EmptyString (partText part)) = false.

(** An image result holds an image that is not empty and no error, or an
    error and no image. *)
Definition imageOrError (r : ImageResult) : Prop :=
  (exists i, resultImage r = Some i /\ i <> EmptyString /\ resultError r = None)
  \/ (resultImage r = None /\ resultText r = None /\ is_Some (resultError r)).

(** ** components/panels/VideoGenerationConfigPanel.tsx *)

(** What [handleSubmit] closes over: whether the node, its agent and the
    configuration of its provider are found (lines 27-29 and 102), and the
    state of the form (lines 31-43).  An element of [referenceImages] is
    given by its [image]; its [referenceType] is ['asset'] (line 94). *)
Record VideoPanel : Type := {
  panelFound : bool;
  panelMode : VideoMode;
  panelPrompt : string;
  panelNegativePrompt : string;
  panelResolution : string;
  panelAspectRatio : string;
  panelDurationSeconds : Z;
  panelPersonGeneration : string;
  panelSeed : option Z;
  panelFirstFrame : option ImageData;
  panelLastFrame : option ImageData;
  panelReferenceImages : list ImageData
}.

(** Line 94: [{ image: { mimeType, data }, referenceType: 'asset' }]. *)
Definition referenceOf (img : ImageData) : ReferenceImage :=
  {| refImage := Some img; refType := Some "asset"; refMimeType := None; refData := None |}.

(** Lines 101-152 of [handleSubmit]: the key of the alert that ends it, or
    the options [llmService.generateVideo] is called with at line 173. *)
Definition panelSubmission (s : VideoPanel) : string + VideoGenerationOptions :=
  let mode := panelMode s in
  if negb (panelFound s) then inl "videoGen_error_noAgent"
  else if negb (truthy (trim (panelPrompt s))) then inl "videoGen_error_noPrompt"
  else if bool_decide (mode = image_to_video)
          && negb (bool_decide (is_Some (panelFirstFrame s)))
  then inl "videoGen_error_noFirstFrame"
  else if bool_decide (mode = interpolation)
          && (negb (bool_decide (is_Some (panelFirstFrame s)))
              || negb (bool_decide (is_Some (panelLastFrame s))))
  then inl "videoGen_error_noFrames"
  else if bool_decide (mode = with_references)
          && Nat.eqb (length (panelReferenceImages s)) 0
  then inl "videoGen_error_noReferences"
  else if bool_decide (panelResolution s = "1080p")
          && (negb (bool_decide (panelAspectRatio s = "16:9"))
              || negb (bool_decide (panelDurationSeconds s = 8%Z)))
  then inl "videoGen_error_resolution"
  else
    inr {| optPrompt := panelPrompt s;
           optNegativePrompt :=
             if truthy (trim (panelNegativePrompt s))
             then Some (trim (panelNegativePrompt s)) else None;
           optMode := Some mode;
           optResolution := Some (panelResolution s);
           optAspectRatio := Some (panelAspectRatio s);
           optDurationSeconds := Some (panelDurationSeconds s);
           optPersonGeneration := Some (panelPersonGeneration s);
           optSeed := panelSeed s;
           optFirstFrame :=
             if bool_decide (mode = image_to_video) || bool_decide (mode = interpolation)
             then panelFirstFrame s else None;
           optLastFrame :=
             if bool_decide (mode = interpolation) then panelLastFrame s else None;
           optReferenceImages :=
             if bool_decide (mode = with_references)
             then Some (map referenceOf (panelReferenceImages s)) else None;
           optExistingVideo := None |}.

(** The form as it opens (lines 31-43), with a prompt, for a node that is
    found. *)
Definition samplePanel (mode : VideoMode) (prompt : string) (refs : list ImageData)
    : VideoPanel :=
  {| panelFound := true; panelMode := mode; panelPrompt := prompt;
     panelNegativePrompt := EmptyString; panelResolution := "720p";
     panelAspectRatio := "16:9"; panelDurationSeconds := 8%Z;
     panelPersonGeneration := "allow_all"; panelSeed := None;
     panelFirstFrame := None; panelLastFrame := None; panelReferenceImages := refs |}.

(** The form with another mode selected. *)
Definition withMode (mode : VideoMode) (s : VideoPanel) : VideoPanel :=
  {| panelFound := panelFound s; panelMode := mode; panelPrompt := panelPrompt s;
     panelNegativePrompt := panelNegativePrompt s; panelResolution := panelResolution s;
     panelAspectRatio := panelAspectRatio s; panelDurationSeconds := panelDurationSeconds s;
     panelPersonGeneration := panelPersonGeneration s; panelSeed := panelSeed s;
     panelFirstFrame := panelFirstFrame s; panelLastFrame := panelLastFrame s;
     panelReferenceImages := panelReferenceImages s |}.

(** The request the Gemini service builds for the submission of a form, if
    the form is submitted and the request can be built. *)
Definition panelRequest (K : GeminiSdk) (s : VideoPanel) : option VideoRequest :=
  match panelSubmission s with
  | inr options =>
      match geminiService.videoRequestOf K options with
      | Resolved request => Some request
      | Rejected _ => None
      end
  | inl _ => None
  end.

(** The options of the submission of a form, those of a blank prompt when
    the form is not submitted. *)
Definition submitted (s : VideoPanel) : VideoGenerationOptions :=
  match panelSubmission s with
  | inr options => options
  | inl _ => promptOnly EmptyString
  end.

(** The role under which a message of the history reaches Gemini, if it
    does: a user message as [user]; an agent message with tool calls, or with
    a text, as [model]; a tool result with a tool name as [function]. *)
Definition roleFor (msg : ChatMessage) : option string :=
  match sender msg with
  | user => Some "user"
  | agent =>
      match toolCalls msg with
      | Some (_ :: _) => Some "model"
      | _ => if truthy (text msg) then Some "model" else None
      end
  | tool_result =>
      match toolName msg with
      | Some name => if truthy name then Some "function" else None
      | None => None
      end
  end.

(** The text of a content, when its first part is a text. *)
Definition firstText (c : Content) : option string :=
  match parts c with
  | TextPart s :: _ => Some s
  | _ => None
  end.

(** A history with a message of every kind: a user message, an agent
    message without text, an agent message with a text, a tool result with a
    tool name and one without. *)
Definition mixedHistory : list ChatMessage :=
  [ plainMessage "m1" user "What is the weather in Paris?";
    plainMessage "m2" agent EmptyString;
    plainMessage "m3" agent "Let me check.";
    toolResultMessageOf 1700000000003 (sampleCall "get_weather") (ToolJson "{}");
    plainMessage "m5" tool_result "orphan" ].

(** ** The calls of a submission, counted *)

Definition isCompleteCall (ev : Event) : bool :=
  match ev with
  | CompleteCall _ _ _ _ _ => true
  | _ => false
  end.

(** The number of the events of a list that a test selects. *)
Definition count (test : Event -> bool) (evs : list Event) : nat :=
  length (List.filter test evs).

(** A picked text file that can be read both ways. *)
Definition readableFile : File :=
  {| fileName := "notes.txt"; fileType := "text/plain";
     fileAsText := Resolved "hello"; fileAsBase64 := Resolved "aGVsbG8=" |}.

(** An agent of Mistral. *)
Definition mistralAgent : Agent :=
  {| llmProvider := Mistral; model := "mistral-large"; systemPrompt := EmptyString;
     tools := []; outputConfig := None; capabilities := [Chat]; historyConfig := None |}.

(** The world [w] with the executing flag of the node set to [b]. *)
Definition flagged (nodeId : string) (b : bool) (w : World) : World :=
  withStore (fun s => store_setNodeExecuting s nodeId b) w.

(** The submission typed in [w] is empty: a blank text and no attachment
    (line 1198). *)
Definition emptySubmission (w : World) : Prop :=
  trim (userInputState w) = EmptyString /\ attachedFileState w = None.

(** Line 105 of the Gemini service, [yield { response: chunk }]: the
    increment a chunk of the SDK without function calls is passed on as. *)
Definition passedOn (chunk : GeminiChunk) : Chunk :=
  {| chunkError := None;
     chunkResponse := Some {| responseText := geminiText chunk;
                              responseToolCalls := None |} |}.

(** A chunk of the SDK that the test of line 92 lets through: no function
    calls, or an empty array of them. *)
Definition withoutFunctionCalls (chunk : GeminiChunk) : Prop :=
  functionCalls chunk = None \/ functionCalls chunk = Some [].

(** * Properties *)

(** ** Async functions *)

Lemma bind_unfold {A B : Type} (c : Async A) (k : A -> Async B) (w : World) :
  (c ≫= k) w
  = match c w with
    | Returns a w' => k a w'
    | Rejects e w' => Rejects e w'
    end.
Proof. reflexivity. Qed.

Lemma bind_returns {A B : Type} (c : Async A) (k : A -> Async B) (w w' : World) (a : A) :
  c w = Returns a w' -> (c ≫= k) w = k a w'.
Proof. intros H. by rewrite bind_unfold, H. Qed.

(** ** The store *)

Lemma store_get_set s nodeId ms :
  store_getNodeMessages (store_setNodeMessages s nodeId ms) nodeId = ms.
Proof.
  unfold store_getNodeMessages, store_setNodeMessages; simpl.
  by rewrite lookup_insert_eq.
Qed.

Lemma store_get_add s nodeId m :
  store_getNodeMessages (store_addNodeMessage s nodeId m) nodeId
  = store_getNodeMessages s nodeId ++ [m].
Proof. unfold store_addNodeMessage. apply store_get_set. Qed.

Lemma store_get_setExecuting s nodeId nodeId' b :
  store_getNodeMessages (store_setNodeExecuting s nodeId' b) nodeId
  = store_getNodeMessages s nodeId.
Proof. reflexivity. Qed.

Lemma store_executing_set s nodeId b :
  store_isNodeExecuting (store_setNodeExecuting s nodeId b) nodeId = b.
Proof. unfold store_isNodeExecuting; simpl. by rewrite lookup_insert_eq. Qed.

Lemma store_executing_setMessages s nodeId nodeId' ms :
  store_isNodeExecuting (store_setNodeMessages s nodeId' ms) nodeId
  = store_isNodeExecuting s nodeId.
Proof. reflexivity. Qed.

Lemma store_executing_add s nodeId nodeId' m :
  store_isNodeExecuting (store_addNodeMessage s nodeId' m) nodeId
  = store_isNodeExecuting s nodeId.
Proof. reflexivity. Qed.

Create Rewrite HintDb store.
#[export] Hint Rewrite store_get_set store_get_add store_get_setExecuting
  store_executing_set store_executing_setMessages store_executing_add : store.

(** ** Reading the session through the changes of a world *)

Lemma getSession_withStore_set w nodeId ms :
  getSession (withStore (fun s => store_setNodeMessages s nodeId ms) w) nodeId = ms.
Proof. unfold getSession; simpl. apply store_get_set. Qed.

Lemma getSession_withStore_add w nodeId m :
  getSession (withStore (fun s => store_addNodeMessage s nodeId m) w) nodeId
  = getSession w nodeId ++ [m].
Proof. unfold getSession, store_addNodeMessage; simpl. apply store_get_set. Qed.

(** ** How the handler reaches the turn *)

Lemma submit_accepted E nodeId a w um cfg :
  accepted E a w um cfg ->
  submit E nodeId (Some a) w
  = tryCatchFinally
      (turn E nodeId (llmConfigs (store w)) a cfg (getSession w nodeId) um)
      (onTurnError E nodeId) (finish nodeId) (begun nodeId um w).
Proof.
  intros (Hne & Hum & Hcfg & Hen & Hkey).
  unfold submit, handleSendMessage. cbn [render userInput attachedFile dataAgent id configs messages].
  assert (negb (truthy (trim (userInputState w)))
          && negb (bool_decide (is_Some (attachedFileState w))) = false) as ->.
  { destruct Hne as [-> | Hs]; [reflexivity|].
    rewrite (bool_decide_eq_true_2 _ Hs). apply andb_false_r. }
  unfold typedMessage in Hum.
  unfold mbind, Async_bind, async_bind, setNodeExecuting, modifyWorld, dateNow.
  cbn [withStore advance store clock userInputState attachedFileState].
  rewrite Hum. cbn [await async_ret].
  unfold addNodeMessage, setUserInput, setAttachedFile, modifyWorld.
  cbn. rewrite Hcfg. unfold notConfigured. rewrite Hen, Hkey. cbn.
  reflexivity.
Qed.

(** ** The history policy *)

Lemma shouldSummarize_true E lim history :
  shouldSummarize E lim history = true <-> anyCounterMet E lim history.
Proof.
  unfold shouldSummarize, anyCounterMet.
  rewrite !orb_true_iff, !Nat.leb_le. tauto.
Qed.

Lemma length_pos_nonempty {A} (l : list A) : (0 <? length l)%nat = true <-> l <> [].
Proof.
  destruct l; simpl; split; try congruence; try done.
Qed.

(** The policy leaves the world alone unless a compaction is due. *)
Lemma manageHistory_idle E nodeId cs a msgs um w :
  (forall hc, historyConfig a = Some hc -> historyEnabled hc = true -> msgs <> [] ->
              ~ anyCounterMet E (limits hc) (msgs ++ [um])) ->
  exists h, manageHistory E nodeId cs a msgs um w = Returns h w.
Proof.
  intros Hnot. unfold manageHistory.
  destruct (historyConfig a) as [hc|] eqn:Hhc; [|by eexists].
  destruct (historyEnabled hc) eqn:Hen; [|by eexists].
  destruct (0 <? length msgs)%nat eqn:Hlen; [|by eexists].
  cbn [andb].
  destruct (shouldSummarize E (limits hc) (msgs ++ [um])) eqn:Hs; [|by eexists].
  exfalso. apply (Hnot hc eq_refl Hen).
  - by apply length_pos_nonempty.
  - by apply shouldSummarize_true.
Qed.

Lemma manageHistory_due E nodeId cs a hc msgs um :
  historyConfig a = Some hc -> historyEnabled hc = true -> msgs <> [] ->
  anyCounterMet E (limits hc) (msgs ++ [um]) ->
  manageHistory E nodeId cs a msgs um = summarize E nodeId cs hc (msgs ++ [um]) um.
Proof.
  intros Hhc Hen Hne Hmet. unfold manageHistory. rewrite Hhc, Hen.
  rewrite (proj2 (length_pos_nonempty msgs) Hne). cbn [andb].
  by rewrite (proj2 (shouldSummarize_true _ _ _) Hmet).
Qed.

Lemma summarize_unresolved E nodeId cs hc history um w :
  findConfig cs (historyProvider hc) = None ->
  summarize E nodeId cs hc history um w
  = Rejects (ErrorObject ("Summarization LLM " +:+ providerText (historyProvider hc)
                          +:+ " not configured."))
            (withLoadingMessage (t E "agentNode_history_summarizing") w).
Proof. intros Hnone. unfold summarize. rewrite Hnone. reflexivity. Qed.

Lemma summarize_resolved E nodeId cs hc history um w sc :
  findConfig cs (historyProvider hc) = Some sc ->
  summarize E nodeId cs hc history um w
  = let w1 := called (summaryCall E sc hc (clock w) history)
                (advance (withLoadingMessage (t E "agentNode_history_summarizing") w)) in
    match llm_generateContent E (S (clock w)) (provider sc) (apiKey sc)
            (historyModel hc) (historySystemPrompt hc)
            [plainMessage (stamped "msg-summary-prompt-" (Date_now E (clock w)) EmptyString)
               user (summarizationPrompt E history)] with
    | Resolved summary =>
        let sm := summaryMessageOf (Date_now E (S (S (clock w)))) summary in
        Returns [sm; um]
          (withLoadingMessage EmptyString
             (withStore (fun s => store_setNodeMessages s nodeId [sm; um]) (advance w1)))
    | Rejected e => Rejects e w1
    end.
Proof.
  intros Hsome. unfold summarize. rewrite Hsome.
  unfold mbind, Async_bind, async_bind, setLoadingMessage, modifyWorld, dateNow,
    generateContent, summaryCall.
  cbn [withLoadingMessage advance called clock].
  destruct (llm_generateContent _ _ _ _ _ _ _); reflexivity.
Qed.

(** ** Strings *)

Lemma append_cons (c : ascii) (s1 s2 : string) :
  String c s1 +:+ s2 = String c (s1 +:+ s2).
Proof. reflexivity. Qed.

Lemma append_empty_r (s : string) : s +:+ EmptyString = s.
Proof. induction s as [|c s IH]; [reflexivity|]. by rewrite append_cons, IH. Qed.

Lemma append_assoc (s1 s2 s3 : string) : (s1 +:+ s2) +:+ s3 = s1 +:+ (s2 +:+ s3).
Proof. induction s1 as [|c s1 IH]; [reflexivity|]. by rewrite !append_cons, IH. Qed.

Lemma length_append (s1 s2 : string) :
  String.length (s1 +:+ s2) = String.length s1 + String.length s2.
Proof.
  induction s1 as [|c s1 IH]; [reflexivity|].
  rewrite append_cons. cbn. by rewrite IH.
Qed.

(** ** The white space of [trim] *)

(** The bytes of the white space of [trim]: six characters of one byte,
    U+00A0 on two bytes, and eighteen code points on three bytes. *)
Example whiteSpace_bytes :
  whiteSpace
  = ([[9]; [10]; [11]; [12]; [13]; [32]; [194; 160]; [225; 154; 128];
      [226; 128; 128]; [226; 128; 129]; [226; 128; 130]; [226; 128; 131];
      [226; 128; 132]; [226; 128; 133]; [226; 128; 134]; [226; 128; 135];
      [226; 128; 136]; [226; 128; 137]; [226; 128; 138];
      [226; 128; 168]; [226; 128; 169]; [226; 128; 175]; [226; 129; 159];
      [227; 128; 128]; [239; 187; 191]])%N.
Proof. reflexivity. Qed.

Lemma isWhiteSpace_cases (cs : list ascii) :
  isWhiteSpace cs = true -> cs ∈ map (map ascii_of_N) whiteSpace.
Proof.
  intros H. apply bool_decide_eq_true in H.
  apply (list_elem_of_fmap_2 (map ascii_of_N)) in H.
  rewrite <- list_fmap_compose in H.
  replace ((ascii_of_N ∘ N_of_ascii) <$> cs) with cs in H; [exact H|].
  clear H. induction cs as [|c cs IH]; [reflexivity|].
  cbn. by rewrite ascii_N_embedding, <- IH.
Qed.

(** Every code point of [whiteSpace] is removed from the start of a string,
    and from its end. *)
Lemma trimStart_whiteSpace (cs : list ascii) (s : string) :
  isWhiteSpace cs = true -> trimStart (string_of_list_ascii cs +:+ s) = trimStart s.
Proof.
  intros H. apply isWhiteSpace_cases in H. vm_compute in H.
  repeat (apply elem_of_cons in H as [->|H]; [reflexivity|]).
  by apply elem_of_nil in H.
Qed.

Lemma trimEnd_whiteSpace (cs : list ascii) (s : string) :
  isWhiteSpace cs = true -> trimEnd (s +:+ string_of_list_ascii cs) = trimEnd s.
Proof.
  intros H. induction s as [|c s IH].
  - apply isWhiteSpace_cases in H. vm_compute in H.
    repeat (apply elem_of_cons in H as [->|H]; [reflexivity|]).
    by apply elem_of_nil in H.
  - rewrite append_cons. cbn [trimEnd]. by rewrite IH.
Qed.

(** White space around a text, ASCII or not, is removed; white space inside
    it is kept. *)
Example trim_samples :
  trim (nbsp +:+ " a" +:+ ideographicSpace +:+ "b " +:+ nl +:+ nbsp)
  = "a" +:+ ideographicSpace +:+ "b"
  /\ trim (nbsp +:+ ideographicSpace +:+ " ") = EmptyString
  /\ trim "é" = "é".
Proof. vm_compute. repeat split. Qed.

(** A text of white space that is not ASCII is blank everywhere the code
    trims: the send button is disabled, the handler returns at once, the
    validator of Arc-LLM asks for a prompt and the panel of the video
    generation refuses to submit. *)
Example blank_beyond_ascii :
  let blank := nbsp +:+ ideographicSpace in
  let w := sampleWorld (earlier 1) false blank in
  let a := Some (sampleAgent [Chat] None) in
  sendDisabled (render "node-1" a w) = true
  /\ submit (scriptedEnv (Resolved "S") silent silent) "node-1" a w = Returns tt w
  /\ arcLLMService.validateVideoRequest (promptOnly blank)
     = arcLLMService.invalid "Video prompt is required"
  /\ panelSubmission (samplePanel text_to_video blank []) = inl "videoGen_error_noPrompt".
Proof. vm_compute. repeat split. Qed.

Lemma concatenation_app (l1 l2 : list string) :
  concatenation (l1 ++ l2) = concatenation l1 +:+ concatenation l2.
Proof.
  induction l1 as [|s l1 IH]; [reflexivity|].
  change (s +:+ concatenation (l1 ++ l2)
          = (s +:+ concatenation l1) +:+ concatenation l2).
  by rewrite IH, append_assoc.
Qed.

(** ** The loop over the stream *)

(** The text the loop adds for a chunk is the text the chunk carries. *)
Lemma chunkText_increment (chunk : Chunk) :
  match chunkText chunk with
  | Some s => incrementText chunk = s /\ s <> EmptyString
  | None => incrementText chunk = EmptyString
  end.
Proof.
  unfold chunkText, incrementText.
  destruct (chunkResponse chunk) as [r|]; [|reflexivity].
  destruct (responseText r) as [s|]; [|reflexivity].
  cbn. destruct s; cbn; [reflexivity|]. split; [reflexivity|discriminate].
Qed.

Lemma hasId_true i m : hasId i m = true <-> msgId m = i.
Proof. unfold hasId. apply bool_decide_eq_true. Qed.

(** After [onText], the message of the stream carries the response so far. *)
Lemma onText_inProgress nodeId A txt w :
  exists w',
    onText nodeId A txt w = Returns tt w'
    /\ inProgress A txt (getSession w' nodeId)
    /\ length (getSession w nodeId) <= length (getSession w' nodeId)
    /\ trace w' = trace w /\ clock w' = clock w
    /\ isExecuting w' nodeId = isExecuting w nodeId.
Proof.
  unfold onText, mbind, Async_bind, async_bind, getNodeMessages.
  fold (getSession w nodeId).
  destruct (List.find (hasId A) (getSession w nodeId)) as [m0|] eqn:Hfind.
  - eexists. split; [reflexivity|].
    rewrite getSession_withStore_set. repeat split; try reflexivity.
    + apply find_some in Hfind as [Hin Hid].
      exists (withText m0 txt). split; [|by apply hasId_true in Hid].
      apply list_elem_of_In. apply in_map_iff. exists m0. by rewrite Hid.
    + intros m Hin Hm. apply list_elem_of_In, in_map_iff in Hin as (m' & <- & _).
      destruct (hasId A m') eqn:Hid'; [reflexivity|].
      apply hasId_true in Hm. congruence.
    + by rewrite length_map.
  - eexists. split; [reflexivity|].
    rewrite getSession_withStore_add. repeat split; try reflexivity.
    + exists (plainMessage A agent txt). split; [|reflexivity].
      apply list_elem_of_In, in_or_app. right. by left.
    + intros m Hin Hm. apply list_elem_of_In, in_app_or in Hin as [Hin|[<-|[]]];
        [|reflexivity].
      pose proof (find_none _ _ Hfind _ Hin) as Hno.
      apply hasId_true in Hm. congruence.
    + rewrite length_app. cbn. lia.
Qed.

(** The loop over chunks of the text phase: the response is the response so
    far followed by the texts of the chunks, in order, and once a text was
    received the message of the stream carries it. *)
Lemma consume_text_phase nodeId A chunks : forall cr tcs w,
  Forall textPhase chunks ->
  exists w',
    consume nodeId A chunks cr tcs w
    = Returns (loopEnd (cr +:+ concatenation (map incrementText chunks)) tcs false) w'
    /\ (concatenation (map incrementText chunks) = EmptyString -> w' = w)
    /\ (concatenation (map incrementText chunks) <> EmptyString ->
        inProgress A (cr +:+ concatenation (map incrementText chunks))
                   (getSession w' nodeId))
    /\ length (getSession w nodeId) <= length (getSession w' nodeId).
Proof.
  induction chunks as [|chunk rest IH]; intros cr tcs w Hall.
  - exists w. cbn [consume map concatenation foldr]. rewrite append_empty_r.
    split; [reflexivity|]. split; [done|]. split; [done|lia].
  - apply Forall_cons in Hall as [[Hfail Htools] Hrest].
    cbn [consume]. rewrite Hfail.
    change (concatenation (map incrementText (chunk :: rest)))
      with (incrementText chunk +:+ concatenation (map incrementText rest)).
    pose proof (chunkText_increment chunk) as Hinc.
    rewrite bind_unfold. unfold textStep, toolCallsStep. rewrite Htools.
    destruct (chunkText chunk) as [s|].
    + destruct Hinc as [Hs Hne].
      destruct (onText_inProgress nodeId A (cr +:+ s) w)
        as (w1 & Hon & Hprog & Hlen & _).
      rewrite bind_unfold, Hon. cbn [mret Async_ret async_ret].
      destruct (IH (cr +:+ s) tcs w1 Hrest) as (w' & Hrun & Hsame & Hprog' & Hlen').
      exists w'. rewrite bind_unfold. cbn [mret Async_ret async_ret].
      rewrite Hrun, Hs, <- append_assoc. split; [reflexivity|].
      split; [|split].
      * intros Hempty. destruct s; [done|]. rewrite append_cons in Hempty. discriminate.
      * intros _.
        destruct (decide (concatenation (map incrementText rest) = EmptyString)) as [He|Hn].
        -- rewrite (Hsame He), He, append_empty_r. exact Hprog.
        -- by apply Hprog'.
      * lia.
    + cbn [mret Async_ret async_ret].
      destruct (IH cr tcs w Hrest) as (w' & Hrun & Hsame & Hprog' & Hlen').
      exists w'. rewrite bind_unfold. cbn [mret Async_ret async_ret].
      rewrite Hrun, Hinc.
      change (EmptyString +:+ concatenation (map incrementText rest))
        with (concatenation (map incrementText rest)).
      split; [reflexivity|]. split; [done|]. by split.
Qed.

(** C9: over increments of the text phase (no error, no tool calls), after
    the part received so far the message of the stream carries the ordered
    concatenation of the texts received, the same holds when the stream ends,
    and the text at the end extends the text so far: its length never
    decreases. *)
Theorem C9_streamed_text_grows_to_concatenation (nodeId A : string)
    (received coming : list Chunk) (w : World) :
  Forall textPhase (received ++ coming) ->
  let soFar := concatenation (map incrementText received) in
  let atEnd := concatenation (map incrementText (received ++ coming)) in
  exists w1 w2,
    consume nodeId A received EmptyString [] w = Returns (loopEnd soFar [] false) w1
    /\ forAwait nodeId A {| yielded := received ++ coming; failure := None |} w
       = Returns (loopEnd atEnd [] false) w2
    /\ (soFar <> EmptyString -> inProgress A soFar (getSession w1 nodeId))
    /\ (atEnd <> EmptyString -> inProgress A atEnd (getSession w2 nodeId))
    /\ atEnd = soFar +:+ concatenation (map incrementText coming)
    /\ String.length soFar <= String.length atEnd.
Proof.
  intros Hall soFar atEnd.
  pose proof (proj1 (Forall_app _ _ _) Hall) as [Hrec _].
  destruct (consume_text_phase nodeId A received EmptyString [] w Hrec)
    as (w1 & Hrun1 & _ & Hprog1 & _).
  destruct (consume_text_phase nodeId A (received ++ coming) EmptyString [] w Hall)
    as (w2 & Hrun2 & _ & Hprog2 & _).
  exists w1, w2.
  assert (atEnd = soFar +:+ concatenation (map incrementText coming)) as Hext.
  { unfold atEnd, soFar. by rewrite map_app, concatenation_app. }
  split; [exact Hrun1|]. split; [|split; [exact Hprog1|split; [exact Hprog2|split]]].
  - unfold forAwait, mbind, Async_bind, async_bind. cbn [yielded failure].
    rewrite Hrun2. reflexivity.
  - exact Hext.
  - rewrite Hext, length_append. lia.
Qed.

Lemma C9_streamed_text_witness :
  let w := sampleWorld [] false EmptyString in
  exists w1 w2,
    consume "node-1" "msg-7-agent" [textChunk "Hel"] EmptyString [] w
    = Returns (loopEnd "Hel" [] false) w1
    /\ forAwait "node-1" "msg-7-agent"
         {| yielded := [textChunk "Hel"; textChunk "lo"]; failure := None |} w
       = Returns (loopEnd "Hello" [] false) w2
    /\ ("Hel" <> EmptyString -> inProgress "msg-7-agent" "Hel" (getSession w1 "node-1"))
    /\ ("Hello" <> EmptyString -> inProgress "msg-7-agent" "Hello" (getSession w2 "node-1"))
    /\ "Hello" = "Hel" +:+ "lo"
    /\ 3 <= 5.
Proof.
  apply (C9_streamed_text_grows_to_concatenation "node-1" "msg-7-agent"
           [textChunk "Hel"] [textChunk "lo"] (sampleWorld [] false EmptyString)).
  repeat constructor.
Defined.

(** ** What the loop over the stream leaves alone *)

Lemma sessionOnly_refl nodeId w : sessionOnly nodeId w w.
Proof. by repeat split. Qed.

Lemma sessionOnly_trans nodeId w1 w2 w3 :
  sessionOnly nodeId w1 w2 -> sessionOnly nodeId w2 w3 -> sessionOnly nodeId w1 w3.
Proof.
  intros (? & ? & ? & ?) (? & ? & ? & ?). repeat split; try congruence. lia.
Qed.

Lemma addNodeMessage_sessionOnly nodeId m w :
  sessionOnly nodeId w (withStore (fun s => store_addNodeMessage s nodeId m) w).
Proof.
  repeat split. rewrite getSession_withStore_add, length_app. lia.
Qed.

Lemma textStep_sessionOnly nodeId A chunk cr w :
  exists cr' w', textStep nodeId A chunk cr w = Returns cr' w' /\ sessionOnly nodeId w w'.
Proof.
  unfold textStep. destruct (chunkText chunk) as [s|].
  - destruct (onText_inProgress nodeId A (cr +:+ s) w)
      as (w' & Hrun & _ & Hlen & Htr & Hck & Hex).
    exists (cr +:+ s), w'. rewrite (bind_returns _ _ _ _ _ Hrun). by repeat split.
  - exists cr, w. split; [reflexivity|apply sessionOnly_refl].
Qed.

Lemma toolCallsStep_sessionOnly nodeId A chunk cr tcs w :
  exists tcs' w',
    toolCallsStep nodeId A chunk cr tcs w = Returns tcs' w' /\ sessionOnly nodeId w w'.
Proof.
  unfold toolCallsStep. destruct (chunkToolCalls chunk) as [tcs'|].
  - eexists _, _. split; [reflexivity|]. repeat split.
    cbn [finalWorld]. rewrite getSession_withStore_set, length_map.
    by fold (getSession w nodeId).
  - exists tcs, w. split; [reflexivity|apply sessionOnly_refl].
Qed.

(** The loop always comes to its end, by itself or by [break]. *)
Lemma consume_sessionOnly nodeId A chunks : forall cr tcs w,
  exists st w',
    consume nodeId A chunks cr tcs w = Returns st w' /\ sessionOnly nodeId w w'.
Proof.
  induction chunks as [|chunk rest IH]; intros cr tcs w.
  - exists (loopEnd cr tcs false), w. split; [reflexivity|apply sessionOnly_refl].
  - cbn [consume]. destruct (chunkFailure chunk) as [e|].
    + eexists _, _. split; [reflexivity|]. apply addNodeMessage_sessionOnly.
    + destruct (textStep_sessionOnly nodeId A chunk cr w) as (cr1 & w1 & Ht & H1).
      destruct (toolCallsStep_sessionOnly nodeId A chunk cr1 tcs w1)
        as (tcs2 & w2 & Hc & H2).
      destruct (IH cr1 tcs2 w2) as (st & w' & Hrun & H3).
      exists st, w'.
      rewrite (bind_returns _ _ _ _ _ Ht), (bind_returns _ _ _ _ _ Hc).
      split; [exact Hrun|]. eauto using sessionOnly_trans.
Qed.

(** The chunks after an error chunk are never read: the loop ends with the
    error message appended to the session the chunks before it left. *)
Lemma consume_until_error nodeId A pre chunk post e : forall cr tcs w,
  Forall (fun c => chunkFailure c = None) pre ->
  chunkFailure chunk = Some e ->
  exists st w1,
    consume nodeId A pre cr tcs w = Returns st w1
    /\ broken st = false
    /\ consume nodeId A (pre ++ chunk :: post) cr tcs w
       = Returns (loopEnd (currentResponse st) (recordedToolCalls st) true)
           (withStore (fun s => store_addNodeMessage s nodeId (errorMessageOf A e)) w1).
Proof.
  induction pre as [|c pre IH]; intros cr tcs w Hpre Hchunk.
  - exists (loopEnd cr tcs false), w. split; [reflexivity|]. split; [reflexivity|].
    cbn [app consume]. rewrite Hchunk. reflexivity.
  - apply Forall_cons in Hpre as [Hc Hpre].
    cbn [app consume]. rewrite Hc.
    destruct (textStep_sessionOnly nodeId A c cr w) as (cr1 & w1 & Ht & _).
    destruct (toolCallsStep_sessionOnly nodeId A c cr1 tcs w1) as (tcs2 & w2 & Htc & _).
    destruct (IH cr1 tcs2 w2 Hpre Hchunk) as (st & w3 & Hrun & Hbr & Hall).
    exists st, w3.
    rewrite !(bind_returns _ _ _ _ _ Ht), !(bind_returns _ _ _ _ _ Htc).
    by repeat split.
Qed.

(** ** An error increment *)

(** C7, as the code has it: an error increment appends an error-flagged agent
    message, under the id of the message of the stream, to the session the
    earlier increments left, and the loop ends there: later increments are not
    read, and an exception ending the generator is not raised.  The message
    of the stream is not converted: when the earlier increments carried text,
    it stays in the session with the text accumulated so far. *)
Theorem C7_error_increment_appends_and_ends (nodeId A : string)
    (pre : list Chunk) (chunk : Chunk) (post : list Chunk) (e : string)
    (ending : option JsThrown) (w : World) :
  Forall (fun c => chunkFailure c = None) pre ->
  chunkFailure chunk = Some e ->
  exists st w1 w2,
    consume nodeId A pre EmptyString [] w = Returns st w1
    /\ forAwait nodeId A {| yielded := pre ++ chunk :: post; failure := ending |} w
       = Returns (loopEnd (currentResponse st) (recordedToolCalls st) true) w2
    /\ getSession w2 nodeId = getSession w1 nodeId ++ [errorMessageOf A e]
    /\ (Forall textPhase pre ->
        concatenation (map incrementText pre) <> EmptyString ->
        inProgress A (concatenation (map incrementText pre)) (getSession w1 nodeId)).
Proof.
  intros Hpre Hchunk.
  destruct (consume_until_error nodeId A pre chunk post e EmptyString [] w Hpre Hchunk)
    as (st & w1 & Hrun & Hbr & Hall).
  exists st, w1, (withStore (fun s => store_addNodeMessage s nodeId (errorMessageOf A e)) w1).
  split; [exact Hrun|]. split; [|split].
  - unfold forAwait. cbn [yielded failure].
    rewrite (bind_returns _ _ _ _ _ Hall). reflexivity.
  - apply getSession_withStore_add.
  - intros Htext Hne.
    destruct (consume_text_phase nodeId A pre EmptyString [] w Htext)
      as (w1' & Hrun' & _ & Hprog & _).
    rewrite Hrun in Hrun'. injection Hrun' as _ <-. by apply Hprog.
Qed.

Lemma C7_error_increment_witness :
  let w := sampleWorld [] false EmptyString in
  exists st w1 w2,
    consume "node-1" "msg-7-agent" [textChunk "Hel"] EmptyString [] w = Returns st w1
    /\ forAwait "node-1" "msg-7-agent"
         {| yielded := [textChunk "Hel"] ++ errorChunk "boom" :: [textChunk "lo"];
            failure := None |} w
       = Returns (loopEnd (currentResponse st) (recordedToolCalls st) true) w2
    /\ getSession w2 "node-1"
       = getSession w1 "node-1" ++ [errorMessageOf "msg-7-agent" "boom"]
    /\ (Forall textPhase [textChunk "Hel"] ->
        concatenation (map incrementText [textChunk "Hel"]) <> EmptyString ->
        inProgress "msg-7-agent" (concatenation (map incrementText [textChunk "Hel"]))
                   (getSession w1 "node-1")).
Proof.
  apply (C7_error_increment_appends_and_ends "node-1" "msg-7-agent"
           [textChunk "Hel"] (errorChunk "boom") [textChunk "lo"] "boom" None
           (sampleWorld [] false EmptyString)).
  - repeat constructor.
  - reflexivity.
Defined.

(** C7 as stated fails: after the text [Hel] and the error [boom], the session
    still holds the message of the stream with its partial text, not flagged,
    followed by the error message under the same id. *)
Lemma C7_partial_text_is_kept :
  let E := scriptedEnv (Resolved "S")
             {| yielded := [textChunk "Hel"; errorChunk "boom"; textChunk "lo"];
                failure := None |} silent in
  let w := sampleWorld [] false "hi" in
  getSession (finalWorld (submit E "node-1" (Some (sampleAgent [Chat] None)) w)) "node-1"
  = [plainMessage "msg-1700000000000" user "hi";
     plainMessage "msg-1700000000001-agent" agent "Hel";
     errorMessageOf "msg-1700000000001-agent" "boom"].
Proof. vm_compute. reflexivity. Qed.

(** ** The tool loop *)

Lemma runToolCall_run E nodeId toolCall w :
  runToolCall E nodeId toolCall w
  = Returns tt
      (withStore (fun s => store_addNodeMessage s nodeId (toolMessageAt E (clock w) toolCall))
         (advance (called (ToolRun toolCall) w))).
Proof.
  unfold runToolCall, tryCatch, toolMessageAt.
  rewrite bind_unfold. unfold executeTool.
  destruct (tool_executeTool E (clock w) toolCall) as [v|e]; reflexivity.
Qed.

Lemma runToolCalls_run E nodeId toolCalls : forall w,
  exists w',
    runToolCalls E nodeId toolCalls w = Returns tt w'
    /\ getSession w' nodeId = getSession w nodeId ++ toolMessagesFrom E (clock w) toolCalls
    /\ trace w' = trace w ++ map ToolRun toolCalls
    /\ clock w' = clock w + 2 * length toolCalls
    /\ isExecuting w' nodeId = isExecuting w nodeId.
Proof.
  induction toolCalls as [|tc rest IH]; intros w.
  - exists w. cbn. rewrite !app_nil_r. repeat split. lia.
  - cbn [runToolCalls].
    rewrite (bind_returns _ _ _ _ _ (runToolCall_run E nodeId tc w)).
    set (w1 := withStore _ _).
    destruct (IH w1) as (w' & Hrun & Hs & Htr & Hck & Hex).
    exists w'. split; [exact Hrun|].
    rewrite Hs, Htr, Hck, Hex. unfold w1.
    rewrite getSession_withStore_add. cbn.
    rewrite <- !app_assoc. repeat split. lia.
Qed.

Lemma toolMessagesFrom_length E k toolCalls :
  length (toolMessagesFrom E k toolCalls) = length toolCalls.
Proof.
  revert k. induction toolCalls as [|tc rest IH]; intros k; [reflexivity|].
  cbn. by rewrite IH.
Qed.

Lemma toolMessagesFrom_lookup E toolCalls : forall k i tc,
  toolCalls !! i = Some tc ->
  toolMessagesFrom E k toolCalls !! i = Some (toolMessageAt E (k + 2 * i) tc).
Proof.
  induction toolCalls as [|tc0 rest IH]; intros k i tc Hi; [done|].
  destruct i as [|i].
  - injection Hi as ->. cbn. do 2 f_equal. lia.
  - change (toolMessagesFrom E (S (S k)) rest !! i
            = Some (toolMessageAt E (k + 2 * S i) tc)).
    rewrite (IH (S (S k)) i tc Hi). do 2 f_equal. lia.
Qed.

Lemma toolMessageAt_shape E k tc :
  sender (toolMessageAt E k tc) = tool_result
  /\ toolCallId (toolMessageAt E k tc) = Some (callId tc)
  /\ toolName (toolMessageAt E k tc) = Some (callName tc)
  /\ status (toolMessageAt E k tc) = None
  /\ (isError (toolMessageAt E k tc) = true
      <-> exists e, tool_executeTool E k tc = Rejected e).
Proof.
  unfold toolMessageAt. destruct (tool_executeTool E k tc) as [v|e]; cbn.
  - repeat split; try done. by intros [e He].
  - repeat split; try done. intros _. by exists e.
Qed.

(** ** The follow-up *)

Lemma consumeFollowUp_sessionOnly nodeId A chunks : forall cr w,
  exists b w',
    consumeFollowUp nodeId A chunks cr w = Returns b w' /\ sessionOnly nodeId w w'.
Proof.
  induction chunks as [|chunk rest IH]; intros cr w.
  - exists false, w. split; [reflexivity|apply sessionOnly_refl].
  - cbn [consumeFollowUp]. destruct (chunkFailure chunk) as [e|].
    + eexists _, _. split; [reflexivity|]. apply addNodeMessage_sessionOnly.
    + destruct (textStep_sessionOnly nodeId A chunk cr w) as (cr1 & w1 & Ht & H1).
      destruct (IH cr1 w1) as (b & w' & Hrun & H2).
      exists b, w'. rewrite (bind_returns _ _ _ _ _ Ht).
      split; [exact Hrun|]. eauto using sessionOnly_trans.
Qed.

Lemma withToolContext_run E session w :
  exists w',
    withToolContext E session w = Returns (followUpHistory E (clock w) session) w'
    /\ store w' = store w /\ trace w' = trace w.
Proof.
  unfold withToolContext, followUpHistory.
  destruct (0 <? length (List.filter isToolResult session))%nat.
  - eexists. split; [reflexivity|]. by split.
  - eexists. rewrite app_nil_r. split; [reflexivity|]. by split.
Qed.

Lemma forAwaitFollowUp_sessionOnly nodeId A stream w :
  sessionOnly nodeId w (finalWorld (forAwaitFollowUp nodeId A stream w)).
Proof.
  unfold forAwaitFollowUp.
  destruct (consumeFollowUp_sessionOnly nodeId A (yielded stream) EmptyString w)
    as (b & w' & Hrun & Hs).
  rewrite (bind_returns _ _ _ _ _ Hrun).
  destruct b; [exact Hs|]. by destruct (failure stream).
Qed.

(** The follow-up makes one stream call, and nothing it does afterwards
    shortens the session or sets the executing flag. *)
Lemma followUp_run E nodeId a key w :
  let w' := finalWorld (followUp E nodeId a key w) in
  trace w' = trace w
             ++ [followUpCall a key (followUpHistory E (clock w) (getSession w nodeId))]
  /\ length (getSession w nodeId) <= length (getSession w' nodeId)
  /\ isExecuting w' nodeId = isExecuting w nodeId.
Proof.
  unfold followUp, followUpCall.
  rewrite bind_unfold. cbn [setLoadingMessage modifyWorld].
  rewrite bind_unfold. cbn [getNodeMessages].
  set (w0 := withLoadingMessage _ w).
  change (store_getNodeMessages (store w0) nodeId) with (getSession w nodeId).
  destruct (withToolContext_run E (getSession w nodeId) w0) as (w1 & Hctx & Hst1 & Htr1).
  rewrite (bind_returns _ _ _ _ _ Hctx).
  rewrite bind_unfold. cbn [dateNow].
  rewrite bind_unfold. unfold generateContentStream.
  set (stream := llm_generateContentStream _ _ _ _ _ _ _ _ _).
  set (w2 := called _ (advance w1)).
  destruct (forAwaitFollowUp_sessionOnly nodeId
              (stamped "msg-" (Date_now E (clock w1)) "-followup") stream w2)
    as (Htr3 & Hck3 & Hex3 & Hlen3).
  cbn zeta. rewrite Htr3, Hex3. subst w2. cbn [trace called advance]. rewrite Htr1.
  split; [reflexivity|]. split.
  - etrans; [|exact Hlen3]. unfold getSession. cbn. by rewrite Hst1.
  - unfold isExecuting. cbn. by rewrite Hst1.
Qed.

(** ** The tools, then the follow-up *)

Lemma afterStream_none E nodeId a key w :
  afterStream E nodeId a key [] w = Returns tt w.
Proof. reflexivity. Qed.

(** With tool calls recorded, the tools are run, the status is cleared, and
    the follow-up is generated for an agent with the Chat capability only. *)
Lemma afterStream_run E nodeId a key toolCalls w :
  toolCalls <> [] ->
  exists w2,
    getSession w2 nodeId
    = map clearExecutingTool (getSession w nodeId ++ toolMessagesFrom E (clock w) toolCalls)
    /\ trace w2 = trace w ++ map ToolRun toolCalls
    /\ clock w2 = clock w + 2 * length toolCalls
    /\ isExecuting w2 nodeId = isExecuting w nodeId
    /\ afterStream E nodeId a key toolCalls w
       = if bool_decide (Chat ∈ capabilities a)
         then followUp E nodeId a key w2
         else Returns tt w2.
Proof.
  intros Hne. unfold afterStream.
  rewrite (proj2 (length_pos_nonempty toolCalls) Hne).
  destruct (runToolCalls_run E nodeId toolCalls w) as (w1 & Hrun & Hs & Htr & Hck & Hex).
  rewrite (bind_returns _ _ _ _ _ Hrun).
  rewrite bind_unfold. cbn [getNodeMessages].
  rewrite bind_unfold. cbn [setNodeMessages modifyWorld].
  exists (withStore (fun s => store_setNodeMessages s nodeId
                      (map clearExecutingTool (getSession w1 nodeId))) w1).
  split; [|split; [|split; [|split]]].
  - by rewrite getSession_withStore_set, Hs.
  - exact Htr.
  - exact Hck.
  - exact Hex.
  - by destruct (bool_decide (Chat ∈ capabilities a)).
Qed.

Lemma forAwait_sessionOnly nodeId A stream w :
  sessionOnly nodeId w (finalWorld (forAwait nodeId A stream w)).
Proof.
  unfold forAwait.
  destruct (consume_sessionOnly nodeId A (yielded stream) EmptyString [] w)
    as (st & w' & Hrun & Hs).
  rewrite (bind_returns _ _ _ _ _ Hrun).
  destruct (broken st); [exact Hs|]. by destruct (failure stream).
Qed.

(** ** The handler around the turn *)

Lemma getSession_errored E nodeId e w :
  getSession (errored E nodeId e w) nodeId
  = getSession w nodeId
    ++ [errorMessageOf (stamped "msg-" (Date_now E (clock w)) EmptyString)
                       ("Erreur: " +:+ errorText e)].
Proof. unfold errored. by rewrite getSession_withStore_add. Qed.

Lemma getSession_finished nodeId w :
  getSession (finished nodeId w) nodeId = getSession w nodeId.
Proof. reflexivity. Qed.

Lemma isExecuting_finished nodeId w : isExecuting (finished nodeId w) nodeId = false.
Proof. unfold finished, isExecuting. cbn. by autorewrite with store. Qed.

(** Once the [try] is entered the handler returns: what the turn throws is
    caught, and the [finally] runs last. *)
Lemma tryCatchFinally_turn E nodeId (body : Async unit) w :
  tryCatchFinally body (onTurnError E nodeId) (finish nodeId) w
  = Returns tt (finished nodeId (settled E nodeId (body w))).
Proof.
  unfold tryCatchFinally. destruct (body w) as [[] w1|e w1]; reflexivity.
Qed.

Lemma submit_settles E nodeId a w um cfg :
  accepted E a w um cfg ->
  submit E nodeId (Some a) w
  = Returns tt
      (finished nodeId
         (settled E nodeId
            (turn E nodeId (llmConfigs (store w)) a cfg (getSession w nodeId) um
               (begun nodeId um w)))).
Proof.
  intros Hacc. rewrite (submit_accepted _ _ _ _ _ _ Hacc).
  apply tryCatchFinally_turn.
Qed.

(** ** The response of the agent *)

Lemma respond_unfold E nodeId a cfg msgs um w :
  respond E nodeId a cfg msgs um w
  = match forAwait nodeId (stamped "msg-" (Date_now E (clock w)) "-agent")
            (llm_generateContentStream E (S (clock w)) (llmProvider a) (apiKey cfg)
               (model a) (systemPrompt a) (msgs ++ [um]) (tools a) (outputConfig a))
            (called (primaryCall a cfg (msgs ++ [um])) (advance w)) with
    | Returns st w3 => afterStream E nodeId a (apiKey cfg) (recordedToolCalls st) w3
    | Rejects e w3 => Rejects e w3
    end.
Proof. reflexivity. Qed.

Lemma length_map_clear (l : list ChatMessage) :
  length (map clearExecutingTool l) = length l.
Proof. apply length_map. Qed.

(** The calls of the response: the primary stream call, on the prior history
    and the user message, then the tool phase; the session does not shrink. *)
Lemma respond_events E nodeId a cfg msgs um w :
  exists post,
    trace (finalWorld (respond E nodeId a cfg msgs um w))
    = trace w ++ primaryCall a cfg (msgs ++ [um]) :: post
    /\ toolPhase a (apiKey cfg) post
    /\ length (getSession w nodeId)
       <= length (getSession (finalWorld (respond E nodeId a cfg msgs um w)) nodeId).
Proof.
  rewrite respond_unfold.
  set (A := stamped _ _ _). set (stream := llm_generateContentStream _ _ _ _ _ _ _ _ _).
  set (w2 := called _ _).
  pose proof (forAwait_sessionOnly nodeId A stream w2) as (Htr & Hck & Hex & Hlen).
  assert (trace w2 = trace w ++ [primaryCall a cfg (msgs ++ [um])]) as Htr2 by reflexivity.
  assert (getSession w2 nodeId = getSession w nodeId) as Hs2 by reflexivity.
  destruct (forAwait nodeId A stream w2) as [st w3|e w3]; cbn [finalWorld] in *.
  - destruct (recordedToolCalls st) as [|tc tcs] eqn:Htcs.
    + exists []. rewrite afterStream_none. cbn [finalWorld].
      rewrite Htr, Htr2. split; [reflexivity|]. split; [by left|]. by rewrite <- Hs2.
    + destruct (afterStream_run E nodeId a (apiKey cfg) (tc :: tcs) w3 ltac:(done))
        as (w4 & Hs4 & Htr4 & Hck4 & Hex4 & Hrun).
      rewrite Hrun. case_bool_decide as Hchat.
      * pose proof (followUp_run E nodeId a (apiKey cfg) w4) as (Htr5 & Hlen5 & _).
        eexists. rewrite Htr5, Htr4, Htr, Htr2, <- !app_assoc.
        split; [reflexivity|]. split.
        -- right. exists (tc :: tcs). split; [done|]. left. split; [done|]. by eexists.
        -- etrans; [|exact Hlen5]. rewrite Hs4, length_map_clear, length_app.
           rewrite <- Hs2. lia.
      * exists (map ToolRun (tc :: tcs)). cbn [finalWorld].
        rewrite Htr4, Htr, Htr2, <- !app_assoc.
        split; [reflexivity|]. split.
        -- right. exists (tc :: tcs). split; [done|]. by right.
        -- rewrite Hs4, length_map_clear, length_app. rewrite <- Hs2. lia.
  - exists []. rewrite Htr, Htr2. split; [reflexivity|]. split; [by left|].
    by rewrite <- Hs2.
Qed.

(** ** The turn *)

(** What the history policy does to a world: nothing, or a compaction that
    fails before or in its call, or a compaction that replaces the session by
    the summary and the user message. *)
Lemma manageHistory_cases E nodeId cs a msgs um w :
  (exists h, manageHistory E nodeId cs a msgs um w = Returns h w)
  \/ (exists e w1,
        manageHistory E nodeId cs a msgs um w = Rejects e w1
        /\ getSession w1 nodeId = getSession w nodeId
        /\ (trace w1 = trace w
            \/ exists sc hc, trace w1 = trace w ++ [summaryCall E sc hc (clock w) (msgs ++ [um])]))
  \/ (exists sc hc summary w1,
        manageHistory E nodeId cs a msgs um w
        = Returns [summaryMessageOf (Date_now E (S (S (clock w)))) summary; um] w1
        /\ getSession w1 nodeId
           = [summaryMessageOf (Date_now E (S (S (clock w)))) summary; um]
        /\ trace w1 = trace w ++ [summaryCall E sc hc (clock w) (msgs ++ [um])]).
Proof.
  unfold manageHistory.
  destruct (historyConfig a) as [hc|]; [|left; by eexists].
  destruct (historyEnabled hc && (0 <? length msgs)%nat); [|left; by eexists].
  destruct (shouldSummarize E (limits hc) (msgs ++ [um])); [|left; by eexists].
  right. destruct (findConfig cs (historyProvider hc)) as [sc|] eqn:Hsc.
  - rewrite (summarize_resolved _ _ _ _ _ _ _ _ Hsc). cbn zeta.
    destruct (llm_generateContent _ _ _ _ _ _ _) as [summary|e].
    + right. exists sc, hc, summary. eexists. split; [reflexivity|]. split.
      * unfold getSession. cbn. by autorewrite with store.
      * reflexivity.
    + left. eexists _, _. split; [reflexivity|]. split; [reflexivity|].
      right. by exists sc, hc.
  - rewrite (summarize_unresolved _ _ _ _ _ _ _ Hsc).
    left. eexists _, _. split; [reflexivity|]. split; [reflexivity|]. by left.
Qed.

(** The calls of a turn: at most the call for the summary, then, unless the
    policy failed, the primary stream call on the prior history and the user
    message, then the tool phase. *)
Lemma turn_events E nodeId cs a cfg msgs um w :
  exists pre rest,
    trace (finalWorld (turn E nodeId cs a cfg msgs um w)) = trace w ++ pre ++ rest
    /\ (pre = [] \/ exists sc hc, pre = [summaryCall E sc hc (clock w) (msgs ++ [um])])
    /\ (rest = []
        \/ exists post, rest = primaryCall a cfg (msgs ++ [um]) :: post
                        /\ toolPhase a (apiKey cfg) post).
Proof.
  unfold turn. rewrite bind_unfold.
  destruct (manageHistory_cases E nodeId cs a msgs um w)
    as [(h & ->)|[(e & w1 & -> & _ & Htr)|(sc & hc & summary & w1 & -> & _ & Htr)]].
  - destruct (respond_events E nodeId a cfg msgs um w) as (post & Htr & Hphase & _).
    exists [], (primaryCall a cfg (msgs ++ [um]) :: post).
    split; [exact Htr|]. split; [by left|]. right. by exists post.
  - cbn [finalWorld]. destruct Htr as [Htr|(sc & hc & Htr)].
    + exists [], []. rewrite Htr, app_nil_r. split; [reflexivity|]. split; by left.
    + eexists _, []. rewrite Htr, app_nil_r. split; [reflexivity|].
      split; [right; by exists sc, hc|by left].
  - destruct (respond_events E nodeId a cfg msgs um w1) as (post & Htr1 & Hphase & _).
    eexists _, (primaryCall a cfg (msgs ++ [um]) :: post).
    rewrite Htr1, Htr, <- app_assoc. split; [reflexivity|].
    split; [right; by exists sc, hc|]. right. by exists post.
Qed.

(** ** The calls of a submission *)

Lemma eventsSince_app {A : Type} (w : World) (o : Outcome A) (evs : list Event) :
  trace (finalWorld o) = trace w ++ evs -> eventsSince w o = evs.
Proof. intros H. unfold eventsSince. rewrite H. apply drop_app_length. Qed.

Lemma trace_settled E nodeId o : trace (settled E nodeId o) = trace (finalWorld o).
Proof. by destruct o. Qed.

(** A submission the handler does not accept makes no call. *)
Lemma submit_refused E nodeId a w :
  (forall um cfg, ~ accepted E a w um cfg) ->
  eventsSince w (submit E nodeId (Some a) w) = [].
Proof.
  intros Hno. apply eventsSince_app. rewrite app_nil_r.
  unfold submit, handleSendMessage.
  cbn [render userInput attachedFile dataAgent id configs messages].
  destruct (negb (truthy (trim (userInputState w)))
            && negb (bool_decide (is_Some (attachedFileState w)))) eqn:Hguard;
    [reflexivity|].
  assert (truthy (trim (userInputState w)) = true \/ is_Some (attachedFileState w)) as Hne.
  { apply andb_false_iff in Hguard as [H|H].
    - left. by destruct (truthy _).
    - right. apply negb_false_iff, bool_decide_eq_true in H. exact H. }
  rewrite bind_unfold. cbn [setNodeExecuting modifyWorld].
  rewrite bind_unfold. cbn [dateNow].
  rewrite bind_unfold.
  change (clock (withStore _ w)) with (clock w).
  fold (typedMessage E a w).
  destruct (typedMessage E a w) as [um|e] eqn:Hum; [|reflexivity].
  cbn [await async_ret].
  rewrite bind_unfold. cbn [addNodeMessage modifyWorld].
  rewrite bind_unfold. cbn [setUserInput modifyWorld].
  rewrite bind_unfold. cbn [setAttachedFile modifyWorld].
  destruct (findConfig (llmConfigs (store w)) (llmProvider a)) as [cfg|] eqn:Hcfg;
    [|reflexivity].
  unfold notConfigured.
  destruct (enabled cfg) eqn:Hen; [|reflexivity].
  destruct (truthy (apiKey cfg)) eqn:Hkey; [|reflexivity].
  exfalso. apply (Hno um cfg). by repeat split.
Qed.

(** The calls of an accepted submission are the calls of its turn. *)
Lemma submit_trace E nodeId a w um cfg :
  accepted E a w um cfg ->
  trace (finalWorld (submit E nodeId (Some a) w))
  = trace (finalWorld (turn E nodeId (llmConfigs (store w)) a cfg (getSession w nodeId) um
                         (begun nodeId um w))).
Proof.
  intros Hacc. rewrite (submit_settles _ _ _ _ _ _ Hacc). cbn [finalWorld].
  apply trace_settled.
Qed.

Lemma accepted_dec E a w :
  (exists um cfg, accepted E a w um cfg) \/ (forall um cfg, ~ accepted E a w um cfg).
Proof.
  unfold accepted.
  destruct (typedMessage E a w) as [um|e]; [|right; intros ?? (_ & ? & _); done].
  destruct (findConfig (llmConfigs (store w)) (llmProvider a)) as [cfg|];
    [|right; intros ?? (_ & _ & ? & _); done].
  destruct (enabled cfg) eqn:Hen;
    [|right; intros ?? (_ & _ & [= <-] & ? & _); congruence].
  destruct (truthy (apiKey cfg)) eqn:Hkey;
    [|right; intros ?? (_ & _ & [= <-] & _ & ?); congruence].
  destruct (truthy (trim (userInputState w))) eqn:Htxt.
  { left. exists um, cfg. repeat split; by auto. }
  destruct (attachedFileState w) as [f|] eqn:Hfile.
  { left. exists um, cfg. repeat split; by eauto. }
  right. intros ?? ([?|[? ?]] & _); done.
Qed.

(** The calls of an accepted submission: at most the call for the summary,
    then, unless the policy failed, the primary stream call on the prior
    history and the user message, then the tool phase. *)
Lemma submit_events E nodeId a w um cfg :
  accepted E a w um cfg ->
  exists pre rest,
    eventsSince w (submit E nodeId (Some a) w) = pre ++ rest
    /\ (pre = []
        \/ exists sc hc,
             pre = [summaryCall E sc hc (S (clock w)) (getSession w nodeId ++ [um])])
    /\ (rest = []
        \/ exists post,
             rest = primaryCall a cfg (getSession w nodeId ++ [um]) :: post
             /\ toolPhase a (apiKey cfg) post).
Proof.
  intros Hacc.
  destruct (turn_events E nodeId (llmConfigs (store w)) a cfg (getSession w nodeId) um
              (begun nodeId um w)) as (pre & rest & Htr & Hpre & Hrest).
  exists pre, rest. split; [|by split].
  apply eventsSince_app. by rewrite (submit_trace _ _ _ _ _ _ Hacc), Htr.
Qed.

(** ** The history of the primary stream call *)

(** C4, as the code has it: the first stream call of a submission is made on
    the session as read when the handler was bound, followed by the new user
    message, whatever the history policy computed; the history the policy
    returns is passed only where it is that very list.  With the policy
    disabled or absent, the policy computes the user message alone, which is
    what the call gets exactly on the first message of an empty session; after
    a compaction, the policy computes the summary and the user message, which
    is what the call gets only if the session was the summary message
    already. *)
Theorem C4_primary_stream_gets_prior_history (E : Env) (nodeId : string) (a : Agent)
    (w : World) (ev : Event) :
  List.find isStreamCall (eventsSince w (submit E nodeId (Some a) w)) = Some ev ->
  exists um cfg,
    accepted E a w um cfg
    /\ ev = primaryCall a cfg (getSession w nodeId ++ [um])
    /\ (forall h w1,
          manageHistory E nodeId (llmConfigs (store w)) a (getSession w nodeId) um
            (begun nodeId um w) = Returns h w1 ->
          (ev = primaryCall a cfg h <-> h = getSession w nodeId ++ [um]))
    /\ ((forall hc, historyConfig a = Some hc -> historyEnabled hc = false) ->
        manageHistory E nodeId (llmConfigs (store w)) a (getSession w nodeId) um
          (begun nodeId um w) = Returns [um] (begun nodeId um w)
        /\ (ev = primaryCall a cfg [um] <-> getSession w nodeId = []))
    /\ (forall sm w1,
          manageHistory E nodeId (llmConfigs (store w)) a (getSession w nodeId) um
            (begun nodeId um w) = Returns [sm; um] w1 ->
          (ev = primaryCall a cfg [sm; um] <-> getSession w nodeId = [sm])).
Proof.
  intros Hfind.
  destruct (accepted_dec E a w) as [(um & cfg & Hacc)|Hno];
    [|by rewrite (submit_refused _ _ _ _ Hno) in Hfind].
  exists um, cfg. split; [exact Hacc|].
  destruct (submit_events E nodeId a w um cfg Hacc) as (pre & rest & Hev & Hpre & Hrest).
  rewrite Hev in Hfind.
  assert (List.find isStreamCall rest = Some ev) as Hrestfind.
  { destruct Hpre as [->|(sc & hc & ->)]; exact Hfind. }
  destruct Hrest as [->|(post & -> & _)]; [done|].
  cbn in Hrestfind. injection Hrestfind as <-.
  assert (forall h, primaryCall a cfg (getSession w nodeId ++ [um]) = primaryCall a cfg h
                    <-> h = getSession w nodeId ++ [um]) as Hsame.
  { intros h. split.
    - unfold primaryCall. by intros [= <-].
    - by intros ->. }
  split; [reflexivity|]. split; [|split].
  - intros h w1 _. apply Hsame.
  - intros Hoff. split.
    + unfold manageHistory. destruct (historyConfig a) as [hc|] eqn:Hhc; [|reflexivity].
      by rewrite (Hoff hc eq_refl).
    + rewrite Hsame. split.
      * intros Heq. destruct (getSession w nodeId) as [|m l]; [reflexivity|].
        destruct l; discriminate Heq.
      * by intros ->.
  - intros sm w1 _. rewrite Hsame. split.
    + intros Heq. symmetry in Heq.
      by destruct (app_inj_tail (getSession w nodeId) [sm] um um Heq).
    + by intros ->.
Qed.

Lemma C4_primary_stream_witness :
  let E := scriptedEnv (Resolved "S") silent silent in
  let a := sampleAgent [Chat] (Some (samplePolicy Gemini 5)) in
  let w := sampleWorld (earlier 5) false ("sixth" +:+ nbsp) in
  let ev := primaryCall a sampleGeminiConfig
              (earlier 5 ++ [plainMessage "msg-1700000000000" user "sixth"]) in
  exists um cfg,
    accepted E a w um cfg
    /\ ev = primaryCall a cfg (getSession w "node-1" ++ [um])
    /\ (forall h w1,
          manageHistory E "node-1" (llmConfigs (store w)) a (getSession w "node-1") um
            (begun "node-1" um w) = Returns h w1 ->
          (ev = primaryCall a cfg h <-> h = getSession w "node-1" ++ [um]))
    /\ ((forall hc, historyConfig a = Some hc -> historyEnabled hc = false) ->
        manageHistory E "node-1" (llmConfigs (store w)) a (getSession w "node-1") um
          (begun "node-1" um w) = Returns [um] (begun "node-1" um w)
        /\ (ev = primaryCall a cfg [um] <-> getSession w "node-1" = []))
    /\ (forall sm w1,
          manageHistory E "node-1" (llmConfigs (store w)) a (getSession w "node-1") um
            (begun "node-1" um w) = Returns [sm; um] w1 ->
          (ev = primaryCall a cfg [sm; um] <-> getSession w "node-1" = [sm])).
Proof.
  apply (C4_primary_stream_gets_prior_history
           (scriptedEnv (Resolved "S") silent silent) "node-1"
           (sampleAgent [Chat] (Some (samplePolicy Gemini 5)))
           (sampleWorld (earlier 5) false ("sixth" +:+ nbsp))).
  vm_compute. reflexivity.
Defined.

(** C4 as stated fails on the first message of a session whose agent has no
    history policy: the policy computes the user message alone, and the user
    message alone is the history the primary stream call gets. *)
Lemma C4_first_message_coincides :
  let E := scriptedEnv (Resolved "S") silent silent in
  let a := sampleAgent [Chat] None in
  let w := sampleWorld [] false "hi" in
  let um := plainMessage "msg-1700000000000" user "hi" in
  manageHistory E "node-1" (llmConfigs (store w)) a (getSession w "node-1") um
    (begun "node-1" um w) = Returns [um] (begun "node-1" um w)
  /\ List.find isStreamCall (eventsSince w (submit E "node-1" (Some a) w))
     = Some (primaryCall a sampleGeminiConfig [um]).
Proof. split; vm_compute; reflexivity. Qed.

(** ** The follow-up and the Chat capability *)

Lemma clearExecutingTool_toolMessages E tcs : forall k,
  map clearExecutingTool (toolMessagesFrom E k tcs) = toolMessagesFrom E k tcs.
Proof.
  induction tcs as [|tc rest IH]; intros k; [reflexivity|].
  cbn [toolMessagesFrom map]. rewrite IH. f_equal.
  unfold clearExecutingTool.
  by rewrite (proj1 (proj2 (proj2 (proj2 (toolMessageAt_shape E k tc))))).
Qed.

Lemma toolMessagesFrom_senders E tcs : forall k,
  Forall (fun r => sender r = tool_result) (toolMessagesFrom E k tcs).
Proof.
  induction tcs as [|tc rest IH]; intros k; constructor.
  - apply toolMessageAt_shape.
  - apply IH.
Qed.

(** The response either runs no tool and makes the primary call only, or
    runs the recorded tool calls, leaves their results at the end of the
    session, and goes on to the follow-up for an agent with Chat only. *)
Lemma respond_cases E nodeId a cfg msgs um w :
  (trace (finalWorld (respond E nodeId a cfg msgs um w))
   = trace w ++ [primaryCall a cfg (msgs ++ [um])])
  \/ exists tcs before k w4,
       tcs <> []
       /\ getSession w4 nodeId = map clearExecutingTool before ++ toolMessagesFrom E k tcs
       /\ trace w4 = trace w ++ primaryCall a cfg (msgs ++ [um]) :: map ToolRun tcs
       /\ respond E nodeId a cfg msgs um w
          = if bool_decide (Chat ∈ capabilities a)
            then followUp E nodeId a (apiKey cfg) w4
            else Returns tt w4.
Proof.
  rewrite respond_unfold.
  set (A := stamped _ _ _). set (stream := llm_generateContentStream _ _ _ _ _ _ _ _ _).
  set (w2 := called _ _).
  pose proof (forAwait_sessionOnly nodeId A stream w2) as (Htr & _).
  assert (trace w2 = trace w ++ [primaryCall a cfg (msgs ++ [um])]) as Htr2 by reflexivity.
  destruct (forAwait nodeId A stream w2) as [st w3|e w3]; cbn [finalWorld] in *.
  - destruct (recordedToolCalls st) as [|tc tcs] eqn:Htcs.
    + left. rewrite afterStream_none. cbn [finalWorld]. by rewrite Htr.
    + right.
      destruct (afterStream_run E nodeId a (apiKey cfg) (tc :: tcs) w3 ltac:(done))
        as (w4 & Hs4 & Htr4 & _ & _ & Hrun).
      exists (tc :: tcs), (getSession w3 nodeId), (clock w3), w4.
      split; [done|]. split; [|split; [|exact Hrun]].
      * by rewrite Hs4, map_app, clearExecutingTool_toolMessages.
      * by rewrite Htr4, Htr, Htr2, <- app_assoc.
  - left. by rewrite Htr.
Qed.

Lemma toolRun_not_in_calls (tc : ToolCall) (evs : list Event) :
  Forall (fun ev => isToolRun ev = false) evs -> ToolRun tc ∉ evs.
Proof.
  intros Hall Hin. rewrite Forall_forall in Hall.
  by specialize (Hall _ Hin).
Qed.

(** A turn that runs a tool made its primary call, ran the recorded tool
    calls, and then made the follow-up call exactly when the agent has the
    Chat capability; without it the turn returns with the tool results at the
    end of the session. *)
Lemma turn_tools E nodeId cs a cfg msgs um w tc :
  ToolRun tc ∈ eventsSince w (turn E nodeId cs a cfg msgs um w) ->
  exists pre tcs,
    tcs <> []
    /\ Forall (fun ev => isStreamCall ev = false) pre
    /\ ((Chat ∈ capabilities a
         /\ exists h,
              eventsSince w (turn E nodeId cs a cfg msgs um w)
              = pre ++ primaryCall a cfg (msgs ++ [um]) :: map ToolRun tcs
                ++ [followUpCall a (apiKey cfg) h])
        \/ ((Chat ∉ capabilities a)
            /\ eventsSince w (turn E nodeId cs a cfg msgs um w)
               = pre ++ primaryCall a cfg (msgs ++ [um]) :: map ToolRun tcs
            /\ exists w4 before results,
                 turn E nodeId cs a cfg msgs um w = Returns tt w4
                 /\ getSession w4 nodeId = before ++ results
                 /\ length results = length tcs
                 /\ Forall (fun r => sender r = tool_result) results)).
Proof.
  unfold turn. rewrite bind_unfold.
  assert (forall w1 pre,
            trace w1 = trace w ++ pre ->
            Forall (fun ev => isStreamCall ev = false) pre ->
            Forall (fun ev => isToolRun ev = false) pre ->
            ToolRun tc ∈ eventsSince w (respond E nodeId a cfg msgs um w1) ->
            exists pre tcs,
              tcs <> []
              /\ Forall (fun ev => isStreamCall ev = false) pre
              /\ ((Chat ∈ capabilities a
                   /\ exists h,
                        eventsSince w (respond E nodeId a cfg msgs um w1)
                        = pre ++ primaryCall a cfg (msgs ++ [um]) :: map ToolRun tcs
                          ++ [followUpCall a (apiKey cfg) h])
                  \/ ((Chat ∉ capabilities a)
                      /\ eventsSince w (respond E nodeId a cfg msgs um w1)
                         = pre ++ primaryCall a cfg (msgs ++ [um]) :: map ToolRun tcs
                      /\ exists w4 before results,
                           respond E nodeId a cfg msgs um w1 = Returns tt w4
                           /\ getSession w4 nodeId = before ++ results
                           /\ length results = length tcs
                           /\ Forall (fun r => sender r = tool_result) results)))
    as Hrespond.
  { intros w1 pre Htr1 Hpre Hpre' Hin.
    destruct (respond_cases E nodeId a cfg msgs um w1)
      as [Htr|(tcs & before & k & w4 & Hne & Hs4 & Htr4 & Hrun)].
    - exfalso. rewrite Htr1, <- app_assoc in Htr.
      rewrite (eventsSince_app _ _ _ Htr) in Hin.
      apply elem_of_app in Hin as [Hin|Hin].
      + by apply (toolRun_not_in_calls tc pre Hpre').
      + apply list_elem_of_singleton in Hin. discriminate Hin.
    - exists pre, tcs. split; [exact Hne|]. split; [exact Hpre|].
      rewrite Hrun. rewrite Htr1, <- app_assoc in Htr4.
      case_bool_decide as Hchat.
      + left. split; [exact Hchat|].
        pose proof (followUp_run E nodeId a (apiKey cfg) w4) as (Htr5 & _).
        eexists. apply eventsSince_app.
        rewrite Htr5, Htr4, <- !app_assoc. reflexivity.
      + right. split; [exact Hchat|]. split.
        * by apply eventsSince_app.
        * exists w4, (map clearExecutingTool before), (toolMessagesFrom E k tcs).
          split; [reflexivity|]. split; [exact Hs4|].
          split; [apply toolMessagesFrom_length|apply toolMessagesFrom_senders]. }
  destruct (manageHistory_cases E nodeId cs a msgs um w)
    as [(h & ->)|[(e & w1 & -> & _ & Htr)|(sc & hc & summary & w1 & -> & _ & Htr)]].
  - intros Hin. apply (Hrespond w []); [by rewrite app_nil_r|constructor|constructor|exact Hin].
  - intros Hin. exfalso. cbn [finalWorld] in Hin.
    destruct Htr as [Htr|(sc & hc & Htr)].
    + rewrite <- (app_nil_r (trace w)) in Htr.
      rewrite (eventsSince_app w (Rejects e w1) [] Htr) in Hin. by apply elem_of_nil in Hin.
    + rewrite (eventsSince_app w (Rejects e w1) _ Htr) in Hin.
      apply list_elem_of_singleton in Hin. discriminate Hin.
  - intros Hin. apply (Hrespond w1 _ Htr); [by repeat constructor|by repeat constructor|exact Hin].
Qed.

Lemma eventsSince_submit E nodeId a w um cfg :
  accepted E a w um cfg ->
  eventsSince w (submit E nodeId (Some a) w)
  = eventsSince (begun nodeId um w)
      (turn E nodeId (llmConfigs (store w)) a cfg (getSession w nodeId) um
         (begun nodeId um w)).
Proof.
  intros Hacc. unfold eventsSince. by rewrite (submit_trace _ _ _ _ _ _ Hacc).
Qed.

(** The tool calls the loop over the primary stream recorded are run: when
    the policy returned in [w1] and the loop ended, by itself or by [break],
    with tool calls recorded, the first of them is among the calls of the
    submission.  (When the generator throws instead, the turn goes to its
    [catch] and no tool is run.) *)
Lemma recorded_tool_calls_are_run E nodeId a w um cfg h w1 st w3 tc tcs :
  accepted E a w um cfg ->
  manageHistory E nodeId (llmConfigs (store w)) a (getSession w nodeId) um
    (begun nodeId um w) = Returns h w1 ->
  forAwait nodeId (stamped "msg-" (Date_now E (clock w1)) "-agent")
    (llm_generateContentStream E (S (clock w1)) (llmProvider a) (apiKey cfg)
       (model a) (systemPrompt a) (getSession w nodeId ++ [um]) (tools a) (outputConfig a))
    (called (primaryCall a cfg (getSession w nodeId ++ [um])) (advance w1))
  = Returns st w3 ->
  recordedToolCalls st = tc :: tcs ->
  ToolRun tc ∈ eventsSince w (submit E nodeId (Some a) w).
Proof.
  intros Hacc Hm Hloop Htcs.
  rewrite (eventsSince_submit _ _ _ _ _ _ Hacc).
  unfold turn. rewrite (bind_returns _ _ _ _ _ Hm), respond_unfold, Hloop, Htcs.
  destruct (afterStream_run E nodeId a (apiKey cfg) (tc :: tcs) w3 ltac:(done))
    as (w4 & _ & Htr4 & _ & _ & Hrun).
  pose proof (forAwait_sessionOnly nodeId (stamped "msg-" (Date_now E (clock w1)) "-agent")
                (llm_generateContentStream E (S (clock w1)) (llmProvider a) (apiKey cfg)
                   (model a) (systemPrompt a) (getSession w nodeId ++ [um]) (tools a)
                   (outputConfig a))
                (called (primaryCall a cfg (getSession w nodeId ++ [um])) (advance w1)))
    as (Htr3 & _).
  rewrite Hloop in Htr3. cbn [finalWorld] in Htr3.
  assert (exists pre post,
            trace (finalWorld (afterStream E nodeId a (apiKey cfg) (tc :: tcs) w3))
            = trace w ++ pre ++ ToolRun tc :: post) as (pre & post & Htr).
  { assert (exists pre, trace w3 = trace w ++ pre) as (pre & Hpre).
    { rewrite Htr3. cbn [trace called advance].
      destruct (manageHistory_cases E nodeId (llmConfigs (store w)) a (getSession w nodeId)
                  um (begun nodeId um w))
        as [(h' & Hm')|[(e & w1' & Hm' & _)|(sc & hc & sm & w1' & Hm' & _ & Htr1)]];
        rewrite Hm in Hm'.
      - injection Hm' as _ ->. by eexists.
      - discriminate.
      - injection Hm' as _ ->. rewrite Htr1. cbn [trace begun].
        rewrite <- app_assoc. by eexists. }
    rewrite Hrun. case_bool_decide.
    - pose proof (followUp_run E nodeId a (apiKey cfg) w4) as (Htr5 & _).
      exists pre. eexists. rewrite Htr5, Htr4, Hpre. cbn [map].
      rewrite <- !app_assoc. reflexivity.
    - exists pre. eexists. cbn [finalWorld]. rewrite Htr4, Hpre. cbn [map].
      rewrite <- !app_assoc. reflexivity. }
  unfold eventsSince. cbn [trace begun]. rewrite Htr, drop_app_length.
  apply elem_of_app. right. apply list_elem_of_here.
Qed.

(** C8: a submission whose turn runs tools makes, after its primary stream
    call and the tool calls, one follow-up stream call if the agent declares
    the Chat capability, and none if it does not; in that case the handler
    returns with the executing flag cleared and the tool results as the last
    messages of the session. *)
Theorem C8_follow_up_iff_chat (E : Env) (nodeId : string) (a : Agent) (w : World)
    (tc : ToolCall) :
  ToolRun tc ∈ eventsSince w (submit E nodeId (Some a) w) ->
  exists um cfg pre tcs,
    accepted E a w um cfg
    /\ tcs <> []
    /\ Forall (fun ev => isStreamCall ev = false) pre
    /\ ((Chat ∈ capabilities a
         /\ exists h,
              eventsSince w (submit E nodeId (Some a) w)
              = pre ++ primaryCall a cfg (getSession w nodeId ++ [um])
                :: map ToolRun tcs ++ [followUpCall a (apiKey cfg) h])
        \/ ((Chat ∉ capabilities a)
            /\ eventsSince w (submit E nodeId (Some a) w)
               = pre ++ primaryCall a cfg (getSession w nodeId ++ [um]) :: map ToolRun tcs
            /\ exists w' before results,
                 submit E nodeId (Some a) w = Returns tt w'
                 /\ isExecuting w' nodeId = false
                 /\ getSession w' nodeId = before ++ results
                 /\ length results = length tcs
                 /\ Forall (fun r => sender r = tool_result) results)).
Proof.
  intros Hin.
  destruct (accepted_dec E a w) as [(um & cfg & Hacc)|Hno];
    [|rewrite (submit_refused _ _ _ _ Hno) in Hin; by apply elem_of_nil in Hin].
  rewrite (eventsSince_submit _ _ _ _ _ _ Hacc) in *.
  destruct (turn_tools _ _ _ _ _ _ _ _ _ Hin)
    as (pre & tcs & Hne & Hpre & [(Hchat & h & Hev)|(Hchat & Hev & w4 & before & results
                                                    & Hrun & Hs & Hlen & Hsend)]).
  - exists um, cfg, pre, tcs. split; [exact Hacc|]. split; [exact Hne|].
    split; [exact Hpre|]. left. split; [exact Hchat|]. by exists h.
  - exists um, cfg, pre, tcs. split; [exact Hacc|]. split; [exact Hne|].
    split; [exact Hpre|]. right. split; [exact Hchat|]. split; [exact Hev|].
    exists (finished nodeId w4), before, results.
    rewrite (submit_settles _ _ _ _ _ _ Hacc), Hrun. cbn [settled].
    split; [reflexivity|]. split; [apply isExecuting_finished|].
    by rewrite getSession_finished.
Qed.

Lemma C8_follow_up_witness :
  let E := scriptedEnv (Resolved "S")
             {| yielded := [textChunk "Let me see"; toolCallsChunk [sampleCall "lookup"]];
                failure := None |}
             {| yielded := [textChunk "fine"]; failure := None |} in
  let a := sampleAgent [FunctionCalling] None in
  let w := sampleWorld [] false (nbsp +:+ "hi") in
  exists um cfg pre tcs,
    accepted E a w um cfg
    /\ tcs <> []
    /\ Forall (fun ev => isStreamCall ev = false) pre
    /\ ((Chat ∈ capabilities a
         /\ exists h,
              eventsSince w (submit E "node-1" (Some a) w)
              = pre ++ primaryCall a cfg (getSession w "node-1" ++ [um])
                :: map ToolRun tcs ++ [followUpCall a (apiKey cfg) h])
        \/ ((Chat ∉ capabilities a)
            /\ eventsSince w (submit E "node-1" (Some a) w)
               = pre ++ primaryCall a cfg (getSession w "node-1" ++ [um]) :: map ToolRun tcs
            /\ exists w' before results,
                 submit E "node-1" (Some a) w = Returns tt w'
                 /\ isExecuting w' "node-1" = false
                 /\ getSession w' "node-1" = before ++ results
                 /\ length results = length tcs
                 /\ Forall (fun r => sender r = tool_result) results)).
Proof.
  apply (C8_follow_up_iff_chat _ "node-1" _ _ (sampleCall "lookup")).
  vm_compute. apply list_elem_of_further, list_elem_of_here.
Defined.

(** ** One result per tool call *)

(** C6: the tool loop returns whatever the tools do; it appends to the
    session one [tool_result] message per recorded tool call, in the order of
    the calls, each carrying the id and the name of its call, and flagged as an
    error exactly when [executeTool] threw for that call; every tool is run
    before the follow-up stream call, if there is one. *)
Theorem C6_one_result_per_tool_call (E : Env) (nodeId : string) (a : Agent)
    (key : string) (tcs : list ToolCall) (w : World) :
  exists w1 results,
    runToolCalls E nodeId tcs w = Returns tt w1
    /\ getSession w1 nodeId = getSession w nodeId ++ results
    /\ length results = length tcs
    /\ (forall i tc,
          tcs !! i = Some tc ->
          exists r,
            results !! i = Some r
            /\ sender r = tool_result
            /\ toolCallId r = Some (callId tc)
            /\ toolName r = Some (callName tc)
            /\ (isError r = true
                <-> exists e, tool_executeTool E (clock w + 2 * i) tc = Rejected e))
    /\ trace w1 = trace w ++ map ToolRun tcs
    /\ (tcs <> [] ->
        exists rest,
          eventsSince w (afterStream E nodeId a key tcs w) = map ToolRun tcs ++ rest
          /\ (rest = [] \/ exists h, rest = [followUpCall a key h])).
Proof.
  destruct (runToolCalls_run E nodeId tcs w) as (w1 & Hrun & Hs & Htr & _).
  exists w1, (toolMessagesFrom E (clock w) tcs).
  split; [exact Hrun|]. split; [exact Hs|].
  split; [apply toolMessagesFrom_length|]. split; [|split; [exact Htr|]].
  - intros i tc Hi. exists (toolMessageAt E (clock w + 2 * i) tc).
    split; [by apply toolMessagesFrom_lookup|].
    pose proof (toolMessageAt_shape E (clock w + 2 * i) tc) as (H1 & H2 & H3 & _ & H4).
    split; [exact H1|]. split; [exact H2|]. split; [exact H3|exact H4].
  - intros Hne.
    destruct (afterStream_run E nodeId a key tcs w Hne) as (w2 & _ & Htr2 & _ & _ & Hafter).
    rewrite Hafter. case_bool_decide.
    + pose proof (followUp_run E nodeId a key w2) as (Htr3 & _).
      eexists. split.
      * apply eventsSince_app. rewrite Htr3, Htr2, <- app_assoc. reflexivity.
      * right. by eexists.
    + exists []. split; [|by left].
      apply eventsSince_app. by rewrite app_nil_r.
Qed.

Lemma C6_one_result_witness :
  let E := scriptedEnv (Resolved "S") silent silent in
  let tcs := [sampleCall "first"; sampleCall "explode"; sampleCall "third"] in
  let w := sampleWorld [] false EmptyString in
  exists w1 results,
    runToolCalls E "node-1" tcs w = Returns tt w1
    /\ getSession w1 "node-1" = getSession w "node-1" ++ results
    /\ length results = length tcs
    /\ (forall i tc,
          tcs !! i = Some tc ->
          exists r,
            results !! i = Some r
            /\ sender r = tool_result
            /\ toolCallId r = Some (callId tc)
            /\ toolName r = Some (callName tc)
            /\ (isError r = true
                <-> exists e, tool_executeTool E (clock w + 2 * i) tc = Rejected e))
    /\ trace w1 = trace w ++ map ToolRun tcs
    /\ (tcs <> [] ->
        exists rest,
          eventsSince w (afterStream E "node-1" (sampleAgent [Chat] None) "k-gemini" tcs w)
          = map ToolRun tcs ++ rest
          /\ (rest = [] \/ exists h, rest = [followUpCall (sampleAgent [Chat] None) "k-gemini" h])).
Proof.
  apply (C6_one_result_per_tool_call
           (scriptedEnv (Resolved "S") silent silent) "node-1"
           (sampleAgent [Chat] None) "k-gemini"
           [sampleCall "first"; sampleCall "explode"; sampleCall "third"]
           (sampleWorld [] false EmptyString)).
Defined.

(** Three tool calls, the second of which throws: three results, the second
    alone flagged. *)
Example tool_batch_isolation :
  let E := scriptedEnv (Resolved "S") silent silent in
  let tcs := [sampleCall "first"; sampleCall "explode"; sampleCall "third"] in
  let w1 := finalWorld (runToolCalls E "node-1" tcs (sampleWorld [] false EmptyString)) in
  map (fun r => (sender r, toolName r, text r, isError r)) (getSession w1 "node-1")
  = [(tool_result, Some "first", "done first", false);
     (tool_result, Some "explode", "Erreur: kaboom", true);
     (tool_result, Some "third", "done third", false)].
Proof. vm_compute. reflexivity. Qed.

(** ** Compaction *)

Lemma turn_due_resolved E nodeId cs a cfg hc sc msgs um w :
  historyConfig a = Some hc -> historyEnabled hc = true -> msgs <> [] ->
  anyCounterMet E (limits hc) (msgs ++ [um]) ->
  findConfig cs (historyProvider hc) = Some sc ->
  exists rest,
    trace (finalWorld (turn E nodeId cs a cfg msgs um w))
    = trace w ++ summaryCall E sc hc (clock w) (msgs ++ [um]) :: rest.
Proof.
  intros Hhc Hen Hne Hmet Hsc. unfold turn. rewrite bind_unfold.
  rewrite (manageHistory_due _ _ _ _ _ _ _ Hhc Hen Hne Hmet).
  rewrite (summarize_resolved _ _ _ _ _ _ _ _ Hsc). cbn zeta.
  destruct (llm_generateContent _ _ _ _ _ _ _) as [summary|e].
  - set (w1 := withLoadingMessage _ _).
    destruct (respond_events E nodeId a cfg msgs um w1) as (post & Htr & _).
    eexists. rewrite Htr. unfold w1. cbn [trace withLoadingMessage withStore advance called].
    rewrite <- app_assoc. reflexivity.
  - exists []. reflexivity.
Qed.

(** ** The streaming entry point *)

(** The generator of the Gemini service throws exactly when the history
    cannot be formatted, and then before it yields anything. *)
Lemma gemini_stream_failure G key mdl sys history tls oc :
  match geminiService.formatHistory G history with
  | Rejected e =>
      geminiService.generateContentStream G key mdl sys history tls oc
      = {| yielded := []; failure := Some e |}
  | Resolved _ =>
      failure (geminiService.generateContentStream G key mdl sys history tls oc) = None
  end.
Proof.
  unfold geminiService.generateContentStream.
  destruct (geminiService.formatHistory G history) as [cs|e]; [|reflexivity].
  by destruct (ai_generateContentStream G _).
Qed.

(** What the SDK throws, at the call or while its stream is read, is caught
    and yielded as the last increment. *)
Lemma gemini_relay_catches G chunks e :
  Forall (fun c => functionCalls c = None \/ functionCalls c = Some []) chunks ->
  exists before,
    geminiService.relay G chunks (Some e) = before ++ [geminiService.caughtChunk e]
    /\ length before = length chunks.
Proof.
  induction chunks as [|c rest IH]; intros Hall.
  - by exists [].
  - apply Forall_cons in Hall as [Hc Hrest].
    destruct (IH Hrest) as (before & Hrun & Hlen).
    cbn [geminiService.relay].
    destruct Hc as [-> | ->]; rewrite Hrun; eexists (_ :: before);
      (split; [reflexivity|by cbn; rewrite Hlen]).
Qed.

Lemma gemini_backend_failures_are_caught G key mdl sys history tls oc cs :
  geminiService.formatHistory G history = Resolved cs ->
  let request := geminiService.requestOf mdl sys cs (geminiService.formatTools tls) oc in
  let out := geminiService.generateContentStream G key mdl sys history tls oc in
  failure out = None
  /\ (forall e, ai_generateContentStream G request = Rejected e ->
                yielded out = [geminiService.caughtChunk e])
  /\ (forall s e,
        ai_generateContentStream G request = Resolved s ->
        sdkFailure s = Some e ->
        Forall (fun c => functionCalls c = None \/ functionCalls c = Some []) (sdkChunks s) ->
        exists before,
          yielded out = before ++ [geminiService.caughtChunk e]
          /\ length before = length (sdkChunks s)).
Proof.
  intros Hfmt request out. unfold out, geminiService.generateContentStream.
  rewrite Hfmt. fold request. split; [|split].
  - by destruct (ai_generateContentStream G request).
  - by intros e ->.
  - intros s e -> Hfail Hall. cbn [yielded]. rewrite Hfail.
    by apply gemini_relay_catches.
Qed.

(** A history with a tool result whose text is not JSON cannot be formatted. *)
Lemma formatHistory_rejects G pre m post cs name e :
  geminiService.formatHistory G pre = Resolved cs ->
  sender m = tool_result -> toolName m = Some name -> truthy name = true ->
  JSON_parse G (text m) = Rejected e ->
  geminiService.formatHistory G (pre ++ m :: post) = Rejected e.
Proof.
  revert cs. induction pre as [|m0 pre IH]; intros cs Hpre Hs Hn Ht Hp.
  - cbn [app geminiService.formatHistory]. unfold geminiService.formatMessage.
    by rewrite Hs, Hn, Ht, Hp.
  - cbn [app geminiService.formatHistory] in *.
    destruct (geminiService.formatMessage G m0) as [c0|e0]; [|done].
    destruct (geminiService.formatHistory G pre) as [cs'|e']; [|done].
    by rewrite (IH cs' eq_refl Hs Hn Ht Hp).
Qed.

(** C10 fails on the code: a history that holds the message the tool loop
    appends when a tool throws (text [Erreur: kaboom], not JSON) makes the
    generator of the Gemini service, and so the dispatcher's, throw before the
    [try] of line 85 is entered; no increment is yielded, the error one
    neither, and the SDK is not called. *)
Theorem C10_stream_throws_on_tool_error_history :
  let G := sampleGemini
             (Resolved {| sdkChunks := [{| functionCalls := None; geminiText := Some "ok" |}];
                          sdkFailure := None |}) in
  let history :=
    [plainMessage "msg-1700000000000" user "run it";
     toolErrorMessageOf 1700000000006 (sampleCall "explode") (ErrorObject "kaboom");
     plainMessage "msg-1700000000009" user "and now?"] in
  text (toolErrorMessageOf 1700000000006 (sampleCall "explode") (ErrorObject "kaboom"))
  = "Erreur: kaboom"
  /\ llmService.generateContentStream G noOthers Gemini "k-gemini" "gemini-2.5-flash"
       "Be brief." history [] None EmptyString
     = {| yielded := [];
          failure := Some (ErrorObject "Unexpected token in JSON at position 0") |}.
Proof. split; vm_compute; reflexivity. Qed.

(** ** The ids of the messages *)

Lemma lastChar_append (s1 : string) (c : ascii) (s2 : string) :
  lastChar (s1 +:+ String c s2) = lastChar (String c s2).
Proof.
  induction s1 as [|c1 s1 IH]; [reflexivity|].
  rewrite append_cons. cbn [lastChar]. rewrite IH.
  by destruct (s1 +:+ String c s2) eqn:Heq; [destruct s1; discriminate|].
Qed.

Lemma pretty_N_char_digit (x : N) : isDigit (pretty_N_char x) = true.
Proof. unfold pretty_N_char. by repeat case_match. Qed.

Lemma lastChar_pretty_N_go (x : N) : forall s c,
  lastChar s = Some c -> lastChar (pretty_N_go x s) = Some c.
Proof.
  induction (N.lt_wf_0 x) as [x _ IH]; intros s c Hs.
  assert (x = 0 \/ 0 < x)%N as [->|Hpos] by lia; [by rewrite pretty_N_go_0|].
  rewrite pretty_N_go_step by done.
  apply IH; [by apply N.div_lt|].
  destruct s; [discriminate|exact Hs].
Qed.

Lemma lastChar_pretty_Z (z : Z) :
  exists c, lastChar (pretty z) = Some c /\ isDigit c = true.
Proof.
  assert (forall p : positive,
            exists c, lastChar (pretty_N_go (N.pos p) EmptyString) = Some c
                      /\ isDigit c = true)
    as Hpos.
  { intros p. rewrite pretty_N_go_step by lia.
    eexists. split; [by apply lastChar_pretty_N_go|apply pretty_N_char_digit]. }
  destruct z as [|p|p].
  - by exists "0"%char.
  - apply Hpos.
  - destruct (Hpos p) as (c & Hc & Hd). exists c. split; [|exact Hd].
    change (pretty (Z.neg p)) with ("-" +:+ pretty_N_go (N.pos p) EmptyString).
    destruct (pretty_N_go (N.pos p) EmptyString) as [|c0 r] eqn:Heq; [discriminate|].
    by rewrite lastChar_append.
Qed.

Lemma lastChar_stamped_suffix (now : Z) (c : ascii) (s : string) :
  lastChar (stamped "msg-" now (String c s)) = lastChar (String c s).
Proof.
  unfold stamped. rewrite <- append_assoc. apply lastChar_append.
Qed.

Lemma lastChar_stamped_plain (now : Z) :
  exists c, lastChar (stamped "msg-" now EmptyString) = Some c /\ isDigit c = true.
Proof.
  destruct (lastChar_pretty_Z now) as (c & Hc & Hd). exists c. split; [|exact Hd].
  unfold stamped. rewrite append_empty_r.
  destruct (pretty now) as [|c0 r] eqn:Heq; [discriminate|].
  by rewrite lastChar_append.
Qed.

Lemma streamId_lastChar (i : string) :
  streamId i -> lastChar i = Some "t"%char \/ lastChar i = Some "p"%char.
Proof.
  intros (now & [-> | ->]); rewrite lastChar_stamped_suffix; [by left|by right].
Qed.

(** The id of a user message and the id of a summary are not ids of streamed
    messages. *)
Lemma plain_id_not_stream (now : Z) : ~ streamId (stamped "msg-" now EmptyString).
Proof.
  intros Hs. destruct (lastChar_stamped_plain now) as (c & Hc & Hd).
  destruct (streamId_lastChar _ Hs) as [H|H]; rewrite Hc in H;
    injection H as ->; discriminate.
Qed.

Lemma summary_id_not_stream (now : Z) : ~ streamId (stamped "msg-" now "-summary").
Proof.
  intros Hs. destruct (streamId_lastChar _ Hs) as [H|H];
    rewrite lastChar_stamped_suffix in H; discriminate.
Qed.

Lemma summaryMessage_settled now summary : settledMessage (summaryMessageOf now summary).
Proof. split; [reflexivity|apply summary_id_not_stream]. Qed.

(** The user message of a submission: the trimmed text under a plain id. *)
Lemma typedMessage_shape E a w um :
  typedMessage E a w = Resolved um ->
  msgId um = stamped "msg-" (Date_now E (clock w)) EmptyString
  /\ sender um = user
  /\ text um = trim (userInputState w)
  /\ status um = None.
Proof.
  unfold typedMessage, attachFile.
  destruct (attachedFileState w) as [f|]; [|by intros [= <-]].
  cbn zeta.
  destruct (bool_decide (llmProvider a = Mistral)), (fileAsText f), (fileAsBase64 f);
    intros [= <-]; by repeat split.
Qed.

Lemma typedMessage_settled E a w um :
  typedMessage E a w = Resolved um -> settledMessage um.
Proof.
  intros H. destruct (typedMessage_shape _ _ _ _ H) as (Hid & _ & _ & Hst).
  split; [exact Hst|]. rewrite Hid. apply plain_id_not_stream.
Qed.

(** ** What a turn keeps of the session *)

Lemma preserves_ret {A : Type} (P : World -> Prop) (a : A) : preserves P (mret a).
Proof. by intros w Hw. Qed.

Lemma preserves_bind {A B : Type} (P : World -> Prop) (c : Async A) (k : A -> Async B) :
  preserves P c -> (forall a, preserves P (k a)) -> preserves P (c ≫= k).
Proof.
  intros Hc Hk w Hw. rewrite bind_unfold. specialize (Hc w Hw).
  destruct (c w) as [a w'|e w']; [by apply Hk|exact Hc].
Qed.

Lemma preserves_tryCatch {A : Type} (P : World -> Prop) (c : Async A)
    (h : JsThrown -> Async A) :
  preserves P c -> (forall e, preserves P (h e)) -> preserves P (tryCatch c h).
Proof.
  intros Hc Hh w Hw. unfold tryCatch. specialize (Hc w Hw).
  destruct (c w) as [a w'|e w']; [exact Hc|by apply Hh].
Qed.

(** A computation that leaves the session as it is keeps what holds of it. *)
Lemma preserves_same_session {A : Type} nodeId keep (c : Async A) :
  (forall w, getSession (finalWorld (c w)) nodeId = getSession w nodeId) ->
  preserves (beginsWith nodeId keep) c.
Proof. intros Hsame w (extra & Hw). exists extra. by rewrite Hsame. Qed.

Lemma preserves_dateNow E nodeId keep : preserves (beginsWith nodeId keep) (dateNow E).
Proof. by apply preserves_same_session. Qed.

Lemma preserves_setLoadingMessage nodeId keep s :
  preserves (beginsWith nodeId keep) (setLoadingMessage s).
Proof. by apply preserves_same_session. Qed.

Lemma preserves_generateContentStream E nodeId keep p key mdl sys h tls oc :
  preserves (beginsWith nodeId keep) (generateContentStream E p key mdl sys h tls oc).
Proof. by apply preserves_same_session. Qed.

Lemma preserves_executeTool E nodeId keep tc :
  preserves (beginsWith nodeId keep) (executeTool E tc).
Proof.
  apply preserves_same_session. intros w. unfold executeTool.
  by destruct (tool_executeTool E (clock w) tc).
Qed.

Lemma preserves_addNodeMessage nodeId keep m :
  preserves (beginsWith nodeId keep) (addNodeMessage nodeId m).
Proof.
  intros w (extra & Hw). exists (extra ++ [m]). cbn [addNodeMessage modifyWorld finalWorld].
  by rewrite getSession_withStore_add, Hw, app_assoc.
Qed.

Lemma map_keep {A : Type} (f : A -> A) (keep extra : list A) :
  Forall (fun x => f x = x) keep -> map f (keep ++ extra) = keep ++ map f extra.
Proof.
  intros Hkeep. rewrite map_app. f_equal.
  induction Hkeep as [|x l Hx _ IH]; [reflexivity|]. cbn. by rewrite Hx, IH.
Qed.

(** Rewriting the messages of the session one by one keeps the messages the
    rewriting leaves alone. *)
Lemma preserves_rewrite nodeId keep (f : ChatMessage -> ChatMessage) :
  Forall (fun m => f m = m) keep ->
  preserves (beginsWith nodeId keep)
    (existingMessages ← getNodeMessages nodeId;
     setNodeMessages nodeId (map f existingMessages)).
Proof.
  intros Hkeep w (extra & Hw). exists (map f extra).
  rewrite bind_unfold. cbn [getNodeMessages setNodeMessages modifyWorld finalWorld].
  rewrite getSession_withStore_set. fold (getSession w nodeId).
  by rewrite Hw, map_keep.
Qed.

Lemma onText_preserves nodeId keep A txt :
  Forall (fun m => msgId m <> A) keep ->
  preserves (beginsWith nodeId keep) (onText nodeId A txt).
Proof.
  intros Hkeep w Hw. unfold onText. rewrite bind_unfold. cbn [getNodeMessages].
  destruct (List.find (hasId A) (store_getNodeMessages (store w) nodeId)).
  - apply (preserves_rewrite nodeId keep
             (fun m => if hasId A m then withText m txt else m)); [|exact Hw].
    eapply Forall_impl; [exact Hkeep|]. intros m Hm. cbn beta.
    destruct (hasId A m) eqn:Hid; [|reflexivity]. by apply hasId_true in Hid.
  - by apply preserves_addNodeMessage.
Qed.

Lemma onToolCalls_preserves nodeId keep A txt tcs :
  Forall (fun m => msgId m <> A) keep ->
  preserves (beginsWith nodeId keep) (onToolCalls nodeId A txt tcs).
Proof.
  intros Hkeep. unfold onToolCalls.
  apply (preserves_rewrite nodeId keep
           (fun m => if hasId A m then toolMessageOf A txt tcs else m)).
  eapply Forall_impl; [exact Hkeep|]. intros m Hm. cbn beta.
  destruct (hasId A m) eqn:Hid; [|reflexivity]. by apply hasId_true in Hid.
Qed.

Lemma textStep_preserves nodeId keep A chunk cr :
  Forall (fun m => msgId m <> A) keep ->
  preserves (beginsWith nodeId keep) (textStep nodeId A chunk cr).
Proof.
  intros Hkeep. unfold textStep. destruct (chunkText chunk); [|apply preserves_ret].
  apply preserves_bind; [by apply onText_preserves|]. intros _. apply preserves_ret.
Qed.

Lemma toolCallsStep_preserves nodeId keep A chunk cr tcs :
  Forall (fun m => msgId m <> A) keep ->
  preserves (beginsWith nodeId keep) (toolCallsStep nodeId A chunk cr tcs).
Proof.
  intros Hkeep. unfold toolCallsStep. destruct (chunkToolCalls chunk); [|apply preserves_ret].
  apply preserves_bind; [by apply onToolCalls_preserves|]. intros _. apply preserves_ret.
Qed.

Lemma consume_preserves nodeId keep A chunks : forall cr tcs,
  Forall (fun m => msgId m <> A) keep ->
  preserves (beginsWith nodeId keep) (consume nodeId A chunks cr tcs).
Proof.
  induction chunks as [|chunk rest IH]; intros cr tcs Hkeep; [apply preserves_ret|].
  cbn [consume]. destruct (chunkFailure chunk).
  - apply preserves_bind; [apply preserves_addNodeMessage|]. intros _. apply preserves_ret.
  - apply preserves_bind; [by apply textStep_preserves|]. intros cr1.
    apply preserves_bind; [by apply toolCallsStep_preserves|]. intros tcs1.
    by apply IH.
Qed.

Lemma forAwait_preserves nodeId keep A stream :
  Forall (fun m => msgId m <> A) keep ->
  preserves (beginsWith nodeId keep) (forAwait nodeId A stream).
Proof.
  intros Hkeep. unfold forAwait.
  apply preserves_bind; [by apply consume_preserves|]. intros st.
  destruct (broken st); [apply preserves_ret|].
  destruct (failure stream); [by intros w Hw|apply preserves_ret].
Qed.

Lemma consumeFollowUp_preserves nodeId keep A chunks : forall cr,
  Forall (fun m => msgId m <> A) keep ->
  preserves (beginsWith nodeId keep) (consumeFollowUp nodeId A chunks cr).
Proof.
  induction chunks as [|chunk rest IH]; intros cr Hkeep; [apply preserves_ret|].
  cbn [consumeFollowUp]. destruct (chunkFailure chunk).
  - apply preserves_bind; [apply preserves_addNodeMessage|]. intros _. apply preserves_ret.
  - apply preserves_bind; [by apply textStep_preserves|]. intros cr1. by apply IH.
Qed.

Lemma forAwaitFollowUp_preserves nodeId keep A stream :
  Forall (fun m => msgId m <> A) keep ->
  preserves (beginsWith nodeId keep) (forAwaitFollowUp nodeId A stream).
Proof.
  intros Hkeep. unfold forAwaitFollowUp.
  apply preserves_bind; [by apply consumeFollowUp_preserves|]. intros b.
  destruct b; [apply (preserves_ret _ tt)|].
  destruct (failure stream); [by intros w Hw|apply (preserves_ret _ tt)].
Qed.

Lemma settled_not_stamped keep now suffix :
  Forall settledMessage keep ->
  suffix = "-agent" \/ suffix = "-followup" ->
  Forall (fun m => msgId m <> stamped "msg-" now suffix) keep.
Proof.
  intros Hkeep Hsuffix. eapply Forall_impl; [exact Hkeep|].
  intros m [_ Hid] Heq. apply Hid. exists now. rewrite Heq.
  destruct Hsuffix as [-> | ->]; [by left|by right].
Qed.

Lemma runToolCalls_preserves E nodeId keep tcs :
  preserves (beginsWith nodeId keep) (runToolCalls E nodeId tcs).
Proof.
  induction tcs as [|tc rest IH]; [apply (preserves_ret _ tt)|].
  cbn [runToolCalls]. apply preserves_bind; [|by intros _].
  unfold runToolCall. apply preserves_tryCatch.
  - apply preserves_bind; [apply preserves_executeTool|]. intros v.
    apply preserves_bind; [apply preserves_dateNow|]. intros now.
    apply preserves_addNodeMessage.
  - intros e. apply preserves_bind; [apply preserves_dateNow|]. intros now.
    apply preserves_addNodeMessage.
Qed.

Lemma followUp_preserves E nodeId keep a key :
  Forall settledMessage keep ->
  preserves (beginsWith nodeId keep) (followUp E nodeId a key).
Proof.
  intros Hkeep. unfold followUp.
  apply preserves_bind; [apply preserves_setLoadingMessage|]. intros _.
  apply preserves_bind; [by apply preserves_same_session|]. intros updated.
  apply preserves_bind.
  { unfold withToolContext. destruct (0 <? _)%nat; [|apply preserves_ret].
    apply preserves_bind; [apply preserves_dateNow|]. intros now. apply preserves_ret. }
  intros h. apply preserves_bind; [apply preserves_dateNow|]. intros now.
  apply preserves_bind; [apply preserves_generateContentStream|]. intros stream.
  apply forAwaitFollowUp_preserves. apply settled_not_stamped; [exact Hkeep|by right].
Qed.

Lemma afterStream_preserves E nodeId keep a key tcs :
  Forall settledMessage keep ->
  preserves (beginsWith nodeId keep) (afterStream E nodeId a key tcs).
Proof.
  intros Hkeep. unfold afterStream.
  destruct (0 <? length tcs)%nat; [|apply (preserves_ret _ tt)].
  apply preserves_bind; [apply runToolCalls_preserves|]. intros _.
  intros w Hw. rewrite bind_unfold. cbn [getNodeMessages]. rewrite bind_unfold.
  assert (beginsWith nodeId keep
            (finalWorld ((existingMessages ← getNodeMessages nodeId;
                          setNodeMessages nodeId (map clearExecutingTool existingMessages)) w)))
    as Hcleared.
  { apply preserves_rewrite; [|exact Hw]. eapply Forall_impl; [exact Hkeep|].
    intros m [Hst _]. unfold clearExecutingTool. by rewrite Hst. }
  cbn [setNodeMessages modifyWorld]. revert Hcleared.
  rewrite bind_unfold. cbn [getNodeMessages setNodeMessages modifyWorld finalWorld].
  intros Hcleared.
  case_bool_decide; [by apply followUp_preserves|exact Hcleared].
Qed.

(** The response of the agent keeps the settled messages the session began
    with: it adds messages after them and rewrites its own only. *)
Lemma respond_preserves E nodeId keep a cfg msgs um :
  Forall settledMessage keep ->
  preserves (beginsWith nodeId keep) (respond E nodeId a cfg msgs um).
Proof.
  intros Hkeep. unfold respond.
  apply preserves_bind; [apply preserves_dateNow|]. intros now.
  apply preserves_bind; [apply preserves_generateContentStream|]. intros stream.
  apply preserves_bind.
  - apply forAwait_preserves. apply settled_not_stamped; [exact Hkeep|by left].
  - intros st. by apply afterStream_preserves.
Qed.

Lemma beginsWith_settled E nodeId keep o :
  beginsWith nodeId keep (finalWorld o) -> beginsWith nodeId keep (settled E nodeId o).
Proof.
  destruct o as [u w|e w]; [done|]. intros (extra & Hw). cbn [settled finalWorld] in *.
  eexists. by rewrite getSession_errored, Hw, <- app_assoc.
Qed.

(** The history of the theorem above is one the component passes: a Gemini
    agent without the Chat capability calls the tool [explode], which throws;
    the next submission of the user reaches the dispatcher with the error
    result in its history, the generator throws, and the turn ends in the
    [catch] of the handler. *)
Example tool_error_breaks_next_turn :
  let G := sampleGemini
             (Resolved {| sdkChunks := [{| functionCalls :=
                                             Some [{| fcName := "explode"; fcArgs := "{}" |}];
                                           geminiText := None |}];
                          sdkFailure := None |}) in
  let E := dispatched G noOthers (scriptedEnv (Resolved "S") silent silent) in
  let a := Some (sampleAgent [FunctionCalling] None) in
  let w1 := finalWorld (submit E "node-1" a (sampleWorld [] false "run it")) in
  let w2 := finalWorld (submit E "node-1" a (typing "and now?" w1)) in
  map (fun m => (sender m, text m, isError m)) (getSession w1 "node-1")
  = [(user, "run it", false); (tool_result, "Erreur: kaboom", true)]
  /\ map (fun m => (sender m, text m, isError m)) (getSession w2 "node-1")
     = [(user, "run it", false); (tool_result, "Erreur: kaboom", true);
        (user, "and now?", false);
        (agent, "Erreur: Unexpected token in JSON at position 0", true)].
Proof. split; vm_compute; reflexivity. Qed.

(** ** The session after a compaction *)

(** C2, as the code has it: with the policy enabled, a message limit of 5 and
    5 messages in the session, the sixth submission, once accepted and its
    summary obtained from the configured provider of the policy, leaves the
    session as the summary message followed by the user message when the
    policy returns, before the primary stream is called; no older message is
    retained, then or later: the history after the turn is these two messages
    followed by what the turn itself added. *)
Theorem C2_compaction_leaves_summary_and_trigger (E : Env) (nodeId : string)
    (a : Agent) (w : World) (um : ChatMessage) (cfg : LLMConfig) (hc : HistoryConfig)
    (sc : LLMConfig) (summary : string) :
  accepted E a w um cfg ->
  historyConfig a = Some hc ->
  historyEnabled hc = true ->
  limitMessage (limits hc) = 5 ->
  length (getSession w nodeId) = 5 ->
  findConfig (llmConfigs (store w)) (historyProvider hc) = Some sc ->
  llm_generateContent E (S (S (clock w))) (provider sc) (apiKey sc)
    (historyModel hc) (historySystemPrompt hc)
    [plainMessage (stamped "msg-summary-prompt-" (Date_now E (S (clock w))) EmptyString)
       user (summarizationPrompt E (getSession w nodeId ++ [um]))]
  = Resolved summary ->
  let sm := summaryMessageOf (Date_now E (S (S (S (clock w))))) summary in
  exists w1 w',
    manageHistory E nodeId (llmConfigs (store w)) a (getSession w nodeId) um
      (begun nodeId um w) = Returns [sm; um] w1
    /\ getSession w1 nodeId = [sm; um]
    /\ sender sm = agent /\ text sm = "(Résumé de l'historique): " +:+ summary
    /\ submit E nodeId (Some a) w = Returns tt w'
    /\ w' = finished nodeId
              (settled E nodeId (respond E nodeId a cfg (getSession w nodeId) um w1))
    /\ exists added, getSession w' nodeId = [sm; um] ++ added.
Proof.
  intros Hacc Hhc Hen Hlim Hlen Hsc Hsum sm.
  assert (getSession w nodeId <> []) as Hne.
  { intros Heq. by rewrite Heq in Hlen. }
  assert (anyCounterMet E (limits hc) (getSession w nodeId ++ [um])) as Hmet.
  { right; right; right. unfold countMessages. rewrite Hlim, length_app, Hlen. cbn. lia. }
  pose proof (manageHistory_due E nodeId (llmConfigs (store w)) a hc (getSession w nodeId)
                um Hhc Hen Hne Hmet) as Hdue.
  assert (exists w1,
            manageHistory E nodeId (llmConfigs (store w)) a (getSession w nodeId) um
              (begun nodeId um w) = Returns [sm; um] w1
            /\ getSession w1 nodeId = [sm; um]) as (w1 & Hm & Hs1).
  { rewrite Hdue, (summarize_resolved _ _ _ _ _ _ _ _ Hsc). cbn zeta.
    change (clock (begun nodeId um w)) with (S (clock w)). rewrite Hsum.
    eexists. split; [reflexivity|]. unfold getSession. cbn. by autorewrite with store. }
  exists w1. eexists. split; [exact Hm|]. split; [exact Hs1|].
  split; [reflexivity|]. split; [reflexivity|].
  rewrite (submit_settles _ _ _ _ _ _ Hacc). unfold turn.
  rewrite (bind_returns _ _ _ _ _ Hm).
  split; [reflexivity|]. split; [reflexivity|].
  rewrite getSession_finished.
  apply beginsWith_settled, respond_preserves.
  - repeat constructor.
    + apply summaryMessage_settled.
    + destruct Hacc as (_ & Hum & _). exact (proj1 (typedMessage_settled _ _ _ _ Hum)).
    + destruct Hacc as (_ & Hum & _). exact (proj2 (typedMessage_settled _ _ _ _ Hum)).
  - exists []. by rewrite Hs1, app_nil_r.
Qed.

Lemma C2_compaction_witness :
  let E := scriptedEnv (Resolved "S")
             {| yielded := [textChunk "Hel"; textChunk "lo"]; failure := None |} silent in
  let a := sampleAgent [Chat] (Some (samplePolicy Gemini 5)) in
  let w := sampleWorld (earlier 5) false ("sixth" +:+ nbsp) in
  let um := plainMessage "msg-1700000000000" user "sixth" in
  let sm := summaryMessageOf (Date_now E (S (S (S (clock w))))) "S" in
  length (getSession w "node-1") = 5
  /\ exists w1 w',
       manageHistory E "node-1" (llmConfigs (store w)) a (getSession w "node-1") um
         (begun "node-1" um w) = Returns [sm; um] w1
       /\ getSession w1 "node-1" = [sm; um]
       /\ sender sm = agent /\ text sm = "(Résumé de l'historique): " +:+ "S"
       /\ submit E "node-1" (Some a) w = Returns tt w'
       /\ w' = finished "node-1"
                 (settled E "node-1" (respond E "node-1" a sampleGeminiConfig
                                        (getSession w "node-1") um w1))
       /\ exists added, getSession w' "node-1" = [sm; um] ++ added.
Proof.
  split; [reflexivity|].
  apply (C2_compaction_leaves_summary_and_trigger
           (scriptedEnv (Resolved "S")
              {| yielded := [textChunk "Hel"; textChunk "lo"]; failure := None |} silent)
           "node-1" (sampleAgent [Chat] (Some (samplePolicy Gemini 5)))
           (sampleWorld (earlier 5) false ("sixth" +:+ nbsp))
           (plainMessage "msg-1700000000000" user "sixth")
           sampleGeminiConfig (samplePolicy Gemini 5) sampleGeminiConfig "S").
  - unfold accepted. split; [left; reflexivity|]. repeat split; reflexivity.
  - reflexivity.
  - reflexivity.
  - reflexivity.
  - reflexivity.
  - reflexivity.
  - reflexivity.
Defined.

(** C2 as stated fails: with a message limit of 5 and 5 messages in the
    session, a sixth submission answered by the text [Hello] leaves three
    messages after the turn: the summary, the user message and the answer. *)
Lemma C2_history_after_turn_has_three :
  let E := scriptedEnv (Resolved "S")
             {| yielded := [textChunk "Hel"; textChunk "lo"]; failure := None |} silent in
  let a := sampleAgent [Chat] (Some (samplePolicy Gemini 5)) in
  let w := sampleWorld (earlier 5) false "sixth" in
  length (getSession w "node-1") = 5
  /\ getSession (finalWorld (submit E "node-1" (Some a) w)) "node-1"
     = [plainMessage "msg-1700000000003-summary" agent "(Résumé de l'historique): S";
        plainMessage "msg-1700000000000" user "sixth";
        plainMessage "msg-1700000000004-agent" agent "Hello"]
  /\ length (getSession (finalWorld (submit E "node-1" (Some a) w)) "node-1") <> 2.
Proof. split; [reflexivity|]. split; vm_compute; [reflexivity|discriminate]. Qed.

(** ** The first message of a session *)

(** Line 1256: with no prior message the policy computes the user message
    alone and touches nothing, whatever the counters and the configuration. *)
Lemma manageHistory_first E nodeId cs a um w :
  manageHistory E nodeId cs a [] um w = Returns [um] w.
Proof.
  unfold manageHistory. destruct (historyConfig a) as [hc|]; [|reflexivity].
  by destruct (historyEnabled hc).
Qed.

Lemma toolPhase_no_completion a key post :
  toolPhase a key post -> Forall (fun ev => isCompleteCall ev = false) post.
Proof.
  intros [->|(tcs & _ & [(_ & h & ->)|(_ & ->)])].
  - constructor.
  - apply Forall_app. split; [|by repeat constructor].
    apply Forall_fmap. by apply Forall_true.
  - apply Forall_fmap. by apply Forall_true.
Qed.

(** An accepted first message goes to the primary stream at once: the first
    call is the stream call on the user message alone, no completion call is
    made, and the session after the turn begins with the user message. *)
Lemma submit_first_message E nodeId a w um cfg :
  accepted E a w um cfg ->
  getSession w nodeId = [] ->
  exists w' post added,
    submit E nodeId (Some a) w = Returns tt w'
    /\ eventsSince w (submit E nodeId (Some a) w) = primaryCall a cfg [um] :: post
    /\ toolPhase a (apiKey cfg) post
    /\ Forall (fun ev => isCompleteCall ev = false)
              (eventsSince w (submit E nodeId (Some a) w))
    /\ isExecuting w' nodeId = false
    /\ getSession w' nodeId = um :: added.
Proof.
  intros Hacc Hs.
  pose proof (submit_settles _ nodeId _ _ _ _ Hacc) as Hrun.
  pose proof (submit_trace _ nodeId _ _ _ _ Hacc) as Htr.
  rewrite Hs in Hrun, Htr. unfold turn in Hrun, Htr.
  rewrite (bind_returns _ _ _ _ _ (manageHistory_first E nodeId _ a um _)) in Hrun, Htr.
  destruct (respond_events E nodeId a cfg [] um (begun nodeId um w))
    as (post & Hev & Hphase & _).
  assert (eventsSince w (submit E nodeId (Some a) w) = primaryCall a cfg [um] :: post)
    as Hevents.
  { apply eventsSince_app. rewrite Htr, Hev. reflexivity. }
  assert (beginsWith nodeId [um]
            (finished nodeId
               (settled E nodeId (respond E nodeId a cfg [] um (begun nodeId um w)))))
    as (added & Hadded).
  { unfold beginsWith. rewrite getSession_finished.
    apply beginsWith_settled, respond_preserves.
    - destruct Hacc as (_ & Hum & _).
      constructor; [exact (typedMessage_settled _ _ _ _ Hum)|constructor].
    - exists []. unfold begun, getSession. cbn [store]. autorewrite with store.
      unfold getSession in Hs. by rewrite Hs. }
  eexists _, post, added. split; [exact Hrun|]. split; [exact Hevents|].
  split; [exact Hphase|]. split.
  { rewrite Hevents. constructor; [reflexivity|]. by eapply toolPhase_no_completion. }
  split; [apply isExecuting_finished|exact Hadded].
Qed.

(** ** When the history is compacted *)

(** C3, as the code has it: for an accepted submission with the policy
    enabled and one of the four counters over the prior history and the new
    message at its limit, two cases.  On a session that is not empty, with a
    configuration at hand for the provider of the policy, the first call of
    the turn is a completion call with the key of that configuration and the
    model and the prompt of the policy, on one user message: the heading,
    then one [sender: text] line per message of the prior history and for the
    new message; when the call resolves to a summary, the session is the
    summary message and the user message when the policy returns.  On the
    first message of an empty session nothing is compacted, whatever the
    limits: the policy returns the user message alone and leaves the world as
    it is, the first call is the primary stream call, no completion call is
    made, and the session after the turn begins with the user message. *)
Theorem C3_compaction_on_any_counter (E : Env) (nodeId : string) (a : Agent)
    (w : World) (um : ChatMessage) (cfg : LLMConfig) (hc : HistoryConfig)
    (sc : LLMConfig) :
  accepted E a w um cfg ->
  historyConfig a = Some hc ->
  historyEnabled hc = true ->
  (limitToken (limits hc) <= countTokens E (getSession w nodeId ++ [um])
   \/ limitWord (limits hc) <= countWords E (getSession w nodeId ++ [um])
   \/ limitSentence (limits hc) <= countSentences E (getSession w nodeId ++ [um])
   \/ limitMessage (limits hc) <= countMessages (getSession w nodeId ++ [um])) ->
  let prompt :=
    plainMessage (stamped "msg-summary-prompt-" (Date_now E (S (clock w))) EmptyString) user
      (t E "conversation_to_summarize" +:+ ":" +:+ nl +:+ nl
       +:+ join nl (map (fun m => senderText (sender m) +:+ ": " +:+ text m)
                        (getSession w nodeId ++ [um]))) in
  (getSession w nodeId <> [] ->
   findConfig (llmConfigs (store w)) (historyProvider hc) = Some sc ->
   (exists rest,
      eventsSince w (submit E nodeId (Some a) w)
      = CompleteCall (provider sc) (apiKey sc) (historyModel hc) (historySystemPrompt hc)
          [prompt] :: rest)
   /\ forall summary,
        llm_generateContent E (S (S (clock w))) (provider sc) (apiKey sc)
          (historyModel hc) (historySystemPrompt hc) [prompt] = Resolved summary ->
        let sm := plainMessage (stamped "msg-" (Date_now E (S (S (S (clock w))))) "-summary")
                    agent ("(Résumé de l'historique): " +:+ summary) in
        exists w1,
          manageHistory E nodeId (llmConfigs (store w)) a (getSession w nodeId) um
            (begun nodeId um w) = Returns [sm; um] w1
          /\ getSession w1 nodeId = [sm; um])
  /\ (getSession w nodeId = [] ->
      manageHistory E nodeId (llmConfigs (store w)) a (getSession w nodeId) um
        (begun nodeId um w) = Returns [um] (begun nodeId um w)
      /\ exists w' post added,
           submit E nodeId (Some a) w = Returns tt w'
           /\ eventsSince w (submit E nodeId (Some a) w) = primaryCall a cfg [um] :: post
           /\ Forall (fun ev => isCompleteCall ev = false)
                     (eventsSince w (submit E nodeId (Some a) w))
           /\ getSession w' nodeId = um :: added).
Proof.
  intros Hacc Hhc Hen Hmet prompt. split.
  - intros Hne Hsc. split.
    + destruct (turn_due_resolved E nodeId (llmConfigs (store w)) a cfg hc sc
                  (getSession w nodeId) um (begun nodeId um w) Hhc Hen Hne Hmet Hsc)
        as (rest & Htr).
      exists rest. apply eventsSince_app.
      rewrite (submit_trace _ _ _ _ _ _ Hacc), Htr. reflexivity.
    + intros summary Hsum sm.
      rewrite (manageHistory_due _ _ _ _ _ _ _ Hhc Hen Hne Hmet).
      rewrite (summarize_resolved _ _ _ _ _ _ _ _ Hsc). cbn zeta.
      change (clock (begun nodeId um w)) with (S (clock w)).
      unfold summarizationPrompt, transcript.
      fold prompt. rewrite Hsum.
      eexists. split; [reflexivity|].
      unfold getSession. cbn. by autorewrite with store.
  - intros Hs. split; [rewrite Hs; apply manageHistory_first|].
    destruct (submit_first_message E nodeId a w um cfg Hacc Hs)
      as (w' & post & added & Hrun & Hev & _ & Hnone & _ & Hadded).
    by exists w', post, added.
Qed.

Lemma C3_compaction_witness :
  let E := scriptedEnv (Resolved "S") silent silent in
  let a := sampleAgent [Chat] (Some (samplePolicy Gemini 5)) in
  let w := sampleWorld (earlier 5) false "sixth" in
  let um := plainMessage "msg-1700000000000" user "sixth" in
  let prompt :=
    plainMessage (stamped "msg-summary-prompt-" (Date_now E (S (clock w))) EmptyString) user
      (t E "conversation_to_summarize" +:+ ":" +:+ nl +:+ nl
       +:+ join nl (map (fun m => senderText (sender m) +:+ ": " +:+ text m)
                        (getSession w "node-1" ++ [um]))) in
  let a1 := sampleAgent [Chat] (Some (samplePolicy Gemini 1)) in
  let w0 := sampleWorld [] false "hi" in
  let um0 := plainMessage "msg-1700000000000" user "hi" in
  ((exists rest,
      eventsSince w (submit E "node-1" (Some a) w)
      = CompleteCall Gemini "k-gemini" "gemini-2.5-flash" "Summarize." [prompt] :: rest)
   /\ forall summary,
        llm_generateContent E (S (S (clock w))) Gemini "k-gemini" "gemini-2.5-flash"
          "Summarize." [prompt] = Resolved summary ->
        let sm := plainMessage (stamped "msg-" (Date_now E (S (S (S (clock w))))) "-summary")
                    agent ("(Résumé de l'historique): " +:+ summary) in
        exists w1,
          manageHistory E "node-1" (llmConfigs (store w)) a (getSession w "node-1") um
            (begun "node-1" um w) = Returns [sm; um] w1
          /\ getSession w1 "node-1" = [sm; um])
  /\ limitMessage (limits (samplePolicy Gemini 1))
     <= countMessages (getSession w0 "node-1" ++ [um0])
  /\ manageHistory E "node-1" (llmConfigs (store w0)) a1 (getSession w0 "node-1") um0
       (begun "node-1" um0 w0) = Returns [um0] (begun "node-1" um0 w0)
  /\ exists w' post added,
       submit E "node-1" (Some a1) w0 = Returns tt w'
       /\ eventsSince w0 (submit E "node-1" (Some a1) w0)
          = primaryCall a1 sampleGeminiConfig [um0] :: post
       /\ Forall (fun ev => isCompleteCall ev = false)
                 (eventsSince w0 (submit E "node-1" (Some a1) w0))
       /\ getSession w' "node-1" = um0 :: added.
Proof.
  intros E a w um prompt a1 w0 um0. split.
  - apply (C3_compaction_on_any_counter E "node-1" a w um
             sampleGeminiConfig (samplePolicy Gemini 5) sampleGeminiConfig).
    + unfold accepted. split; [left; reflexivity|]. repeat split; reflexivity.
    + reflexivity.
    + reflexivity.
    + right; right; right. vm_compute. lia.
    + vm_compute. discriminate.
    + reflexivity.
  - assert (limitMessage (limits (samplePolicy Gemini 1))
            <= countMessages (getSession w0 "node-1" ++ [um0])) as Hmet
      by (vm_compute; lia).
    split; [exact Hmet|].
    apply (C3_compaction_on_any_counter E "node-1" a1 w0 um0
             sampleGeminiConfig (samplePolicy Gemini 1) sampleGeminiConfig).
    + unfold accepted. split; [left; reflexivity|]. repeat split; reflexivity.
    + reflexivity.
    + reflexivity.
    + right; right; right. exact Hmet.
    + reflexivity.
Defined.

(** C3 as stated fails on the first message of a session: with the policy
    enabled and a message limit of one, the message counter of the empty
    history plus the new message meets its limit, yet no summary is asked for
    and the session is not replaced: line 1256 asks for a prior history that
    is not empty. *)
Lemma C3_first_message_is_not_compacted :
  let E := scriptedEnv (Resolved "S") silent silent in
  let a := sampleAgent [Chat] (Some (samplePolicy Gemini 1)) in
  let w := sampleWorld [] false "hi" in
  let um := plainMessage "msg-1700000000000" user "hi" in
  historyEnabled (samplePolicy Gemini 1) = true
  /\ limitMessage (limits (samplePolicy Gemini 1))
     <= countMessages (getSession w "node-1" ++ [um])
  /\ eventsSince w (submit E "node-1" (Some a) w)
     = [primaryCall a sampleGeminiConfig [um]]
  /\ getSession (finalWorld (submit E "node-1" (Some a) w)) "node-1" = [um].
Proof. split; [reflexivity|]. split; [vm_compute; lia|]. split; vm_compute; reflexivity. Qed.

(** ** A compaction whose provider is not configured *)

(** C5, as the code has it: for an accepted submission with the policy
    enabled, one of the four counters at its limit and no configuration for
    the provider of the policy, two cases.  On a session that is not empty
    the turn fails: the handler returns with the user message and then one
    message of the agent, flagged as an error and carrying the text of the
    exception, appended to the session, the executing flag cleared, and no
    call dispatched: neither the summary nor the primary stream.  On the
    first message of an empty session the compaction is skipped without a
    word: the policy returns the user message alone and leaves the world as
    it is, the first call is the primary stream call, and the session after
    the turn begins with the user message. *)
Theorem C5_unresolved_summarizer_fails_turn (E : Env) (nodeId : string) (a : Agent)
    (w : World) (um : ChatMessage) (cfg : LLMConfig) (hc : HistoryConfig) :
  accepted E a w um cfg ->
  historyConfig a = Some hc ->
  historyEnabled hc = true ->
  anyCounterMet E (limits hc) (getSession w nodeId ++ [um]) ->
  findConfig (llmConfigs (store w)) (historyProvider hc) = None ->
  (getSession w nodeId <> [] ->
   exists w' err,
     submit E nodeId (Some a) w = Returns tt w'
     /\ getSession w' nodeId = getSession w nodeId ++ [um; err]
     /\ sender err = agent
     /\ isError err = true
     /\ text err = "Erreur: Summarization LLM " +:+ providerText (historyProvider hc)
                   +:+ " not configured."
     /\ msgId err = stamped "msg-" (Date_now E (S (clock w))) EmptyString
     /\ isExecuting w' nodeId = false
     /\ eventsSince w (submit E nodeId (Some a) w) = [])
  /\ (getSession w nodeId = [] ->
      manageHistory E nodeId (llmConfigs (store w)) a (getSession w nodeId) um
        (begun nodeId um w) = Returns [um] (begun nodeId um w)
      /\ exists w' post added,
           submit E nodeId (Some a) w = Returns tt w'
           /\ eventsSince w (submit E nodeId (Some a) w) = primaryCall a cfg [um] :: post
           /\ toolPhase a (apiKey cfg) post
           /\ isExecuting w' nodeId = false
           /\ getSession w' nodeId = um :: added).
Proof.
  intros Hacc Hhc Hen Hmet Hnone. split.
  - intros Hne.
    remember (submit E nodeId (Some a) w) as o eqn:Ho.
    rewrite (submit_accepted _ _ _ _ _ _ Hacc) in Ho.
    unfold tryCatchFinally, turn in Ho.
    unfold mbind at 1 in Ho. unfold Async_bind, async_bind at 1 in Ho.
    rewrite (manageHistory_due _ _ _ _ _ _ _ Hhc Hen Hne Hmet) in Ho.
    rewrite (summarize_unresolved _ _ _ _ _ _ _ Hnone) in Ho.
    cbn in Ho. subst o.
    eexists _, _. split; [reflexivity|]. split; [|split; [|split; [|split; [|split; [|split]]]]].
    + unfold getSession. cbn. autorewrite with store. rewrite <- app_assoc. reflexivity.
    + reflexivity.
    + reflexivity.
    + reflexivity.
    + reflexivity.
    + unfold isExecuting. cbn. by autorewrite with store.
    + unfold eventsSince. cbn. apply drop_all.
  - intros Hs. split; [rewrite Hs; apply manageHistory_first|].
    destruct (submit_first_message E nodeId a w um cfg Hacc Hs)
      as (w' & post & added & Hrun & Hev & Hphase & _ & Hex & Hadded).
    by exists w', post, added.
Qed.

Lemma C5_unresolved_summarizer_witness :
  let E := scriptedEnv (Resolved "S") silent silent in
  let a := sampleAgent [Chat] (Some (samplePolicy OpenAI 5)) in
  let w := sampleWorld (earlier 5) false "sixth" in
  let a1 := sampleAgent [Chat] (Some (samplePolicy OpenAI 1)) in
  let w0 := sampleWorld [] false "hi" in
  let um0 := plainMessage "msg-1700000000000" user "hi" in
  findConfig (llmConfigs (store w)) OpenAI = None
  /\ (exists w' err,
        submit E "node-1" (Some a) w = Returns tt w'
        /\ getSession w' "node-1"
           = earlier 5 ++ [plainMessage "msg-1700000000000" user "sixth"; err]
        /\ sender err = agent
        /\ isError err = true
        /\ text err = "Erreur: Summarization LLM OpenAI not configured."
        /\ msgId err = "msg-1700000000001"
        /\ isExecuting w' "node-1" = false
        /\ eventsSince w (submit E "node-1" (Some a) w) = [])
  /\ manageHistory E "node-1" (llmConfigs (store w0)) a1 (getSession w0 "node-1") um0
       (begun "node-1" um0 w0) = Returns [um0] (begun "node-1" um0 w0)
  /\ exists w' post added,
       submit E "node-1" (Some a1) w0 = Returns tt w'
       /\ eventsSince w0 (submit E "node-1" (Some a1) w0)
          = primaryCall a1 sampleGeminiConfig [um0] :: post
       /\ toolPhase a1 (apiKey sampleGeminiConfig) post
       /\ isExecuting w' "node-1" = false
       /\ getSession w' "node-1" = um0 :: added.
Proof.
  intros E a w a1 w0 um0.
  split; [reflexivity|]. split.
  - apply (C5_unresolved_summarizer_fails_turn E "node-1" a w
             (plainMessage "msg-1700000000000" user "sixth")
             sampleGeminiConfig (samplePolicy OpenAI 5)).
    + unfold accepted. split; [left; reflexivity|]. repeat split; reflexivity.
    + reflexivity.
    + reflexivity.
    + right; right; right. vm_compute. lia.
    + reflexivity.
    + vm_compute. discriminate.
  - apply (C5_unresolved_summarizer_fails_turn E "node-1" a1 w0 um0
             sampleGeminiConfig (samplePolicy OpenAI 1)).
    + unfold accepted. split; [left; reflexivity|]. repeat split; reflexivity.
    + reflexivity.
    + reflexivity.
    + right; right; right. vm_compute. lia.
    + reflexivity.
    + reflexivity.
Defined.

(** C5 as stated fails on the first message of a session: with the policy
    enabled, a message limit of one and no configuration for the provider of
    the policy, the compaction that the counters call for is skipped, no
    error message is appended and the primary stream is dispatched. *)
Lemma C5_first_message_skips_compaction :
  let E := scriptedEnv (Resolved "S") silent silent in
  let a := sampleAgent [Chat] (Some (samplePolicy OpenAI 1)) in
  let w := sampleWorld [] false "hi" in
  let um := plainMessage "msg-1700000000000" user "hi" in
  historyEnabled (samplePolicy OpenAI 1) = true
  /\ limitMessage (limits (samplePolicy OpenAI 1))
     <= countMessages (getSession w "node-1" ++ [um])
  /\ findConfig (llmConfigs (store w)) OpenAI = None
  /\ eventsSince w (submit E "node-1" (Some a) w)
     = [primaryCall a sampleGeminiConfig [um]]
  /\ getSession (finalWorld (submit E "node-1" (Some a) w)) "node-1" = [um]
  /\ isExecuting (finalWorld (submit E "node-1" (Some a) w)) "node-1" = false.
Proof.
  split; [reflexivity|]. split; [vm_compute; lia|]. split; [reflexivity|].
  split; [|split]; vm_compute; reflexivity.
Qed.

(** ** What a turn leaves alone *)

Lemma store_get_set_ne s nodeId other ms :
  other <> nodeId ->
  store_getNodeMessages (store_setNodeMessages s nodeId ms) other
  = store_getNodeMessages s other.
Proof.
  intros Hne. unfold store_getNodeMessages, store_setNodeMessages; simpl.
  by rewrite lookup_insert_ne.
Qed.

Lemma store_executing_set_ne s nodeId other b :
  other <> nodeId ->
  store_isNodeExecuting (store_setNodeExecuting s nodeId b) other
  = store_isNodeExecuting s other.
Proof.
  intros Hne. unfold store_isNodeExecuting, store_setNodeExecuting; simpl.
  by rewrite lookup_insert_ne.
Qed.

Lemma sessionConfined_refl nodeId w : sessionConfined nodeId w w.
Proof. by repeat split. Qed.

(** A computation that leaves the store as it is stays within any session. *)
Lemma confined_same_store {A : Type} nodeId w0 (c : Async A) :
  (forall w, store (finalWorld (c w)) = store w) ->
  preserves (sessionConfined nodeId w0) c.
Proof.
  intros Hs w Hw. unfold sessionConfined, getSession, isExecuting in *.
  by rewrite Hs.
Qed.

Lemma confined_setNodeMessages nodeId w0 ms :
  preserves (sessionConfined nodeId w0) (setNodeMessages nodeId ms).
Proof.
  intros w (Hc & Hx & Hs). cbn [setNodeMessages modifyWorld finalWorld].
  split; [exact Hc|]. split; [exact Hx|]. intros other Hne.
  rewrite <- (Hs other Hne). unfold getSession. cbn [withStore store].
  by apply store_get_set_ne.
Qed.

Lemma confined_addNodeMessage nodeId w0 m :
  preserves (sessionConfined nodeId w0) (addNodeMessage nodeId m).
Proof.
  intros w (Hc & Hx & Hs). cbn [addNodeMessage modifyWorld finalWorld].
  split; [exact Hc|]. split; [exact Hx|]. intros other Hne.
  rewrite <- (Hs other Hne). unfold getSession, store_addNodeMessage.
  cbn [withStore store]. by apply store_get_set_ne.
Qed.

Lemma confined_await {A : Type} nodeId w0 (p : World -> Settled A) (f : World -> World) :
  (forall w, store (f w) = store w) ->
  preserves (sessionConfined nodeId w0) (fun w => await (p w) (f w)).
Proof.
  intros Hf. apply confined_same_store. intros w.
  destruct (p w); cbn [await async_ret throw finalWorld]; apply Hf.
Qed.

Lemma confined_onText nodeId w0 A txt :
  preserves (sessionConfined nodeId w0) (onText nodeId A txt).
Proof.
  unfold onText. apply preserves_bind; [by apply confined_same_store|].
  intros existing. destruct (List.find _ _).
  - apply confined_setNodeMessages.
  - apply confined_addNodeMessage.
Qed.

Lemma confined_textStep nodeId w0 A chunk cr :
  preserves (sessionConfined nodeId w0) (textStep nodeId A chunk cr).
Proof.
  unfold textStep. destruct (chunkText chunk); [|apply preserves_ret].
  apply preserves_bind; [apply confined_onText|]. intros _. apply preserves_ret.
Qed.

Lemma confined_toolCallsStep nodeId w0 A chunk cr tcs :
  preserves (sessionConfined nodeId w0) (toolCallsStep nodeId A chunk cr tcs).
Proof.
  unfold toolCallsStep, onToolCalls. destruct (chunkToolCalls chunk); [|apply preserves_ret].
  apply preserves_bind; [|intros _; apply preserves_ret].
  apply preserves_bind; [by apply confined_same_store|]. intros existing.
  apply confined_setNodeMessages.
Qed.

Lemma confined_consume nodeId w0 A chunks : forall cr tcs,
  preserves (sessionConfined nodeId w0) (consume nodeId A chunks cr tcs).
Proof.
  induction chunks as [|chunk rest IH]; intros cr tcs; [apply preserves_ret|].
  cbn [consume]. destruct (chunkFailure chunk).
  - apply preserves_bind; [apply confined_addNodeMessage|]. intros _. apply preserves_ret.
  - apply preserves_bind; [apply confined_textStep|]. intros cr1.
    apply preserves_bind; [apply confined_toolCallsStep|]. intros tcs1. apply IH.
Qed.

Lemma confined_forAwait nodeId w0 A stream :
  preserves (sessionConfined nodeId w0) (forAwait nodeId A stream).
Proof.
  unfold forAwait. apply preserves_bind; [apply confined_consume|]. intros st.
  destruct (broken st); [apply preserves_ret|].
  destruct (failure stream); [by intros w Hw|apply preserves_ret].
Qed.

Lemma confined_consumeFollowUp nodeId w0 A chunks : forall cr,
  preserves (sessionConfined nodeId w0) (consumeFollowUp nodeId A chunks cr).
Proof.
  induction chunks as [|chunk rest IH]; intros cr; [apply preserves_ret|].
  cbn [consumeFollowUp]. destruct (chunkFailure chunk).
  - apply preserves_bind; [apply confined_addNodeMessage|]. intros _. apply preserves_ret.
  - apply preserves_bind; [apply confined_textStep|]. intros cr1. apply IH.
Qed.

Lemma confined_dateNow E nodeId w0 : preserves (sessionConfined nodeId w0) (dateNow E).
Proof. by apply confined_same_store. Qed.

Lemma confined_runToolCalls E nodeId w0 tcs :
  preserves (sessionConfined nodeId w0) (runToolCalls E nodeId tcs).
Proof.
  induction tcs as [|tc rest IH]; [apply (preserves_ret _ tt)|].
  cbn [runToolCalls]. apply preserves_bind; [|by intros _].
  unfold runToolCall. apply preserves_tryCatch.
  - apply preserves_bind.
    { unfold executeTool. apply (confined_await nodeId w0
        (fun w => tool_executeTool E (clock w) tc) (called (ToolRun tc))). done. }
    intros v. apply preserves_bind; [apply confined_dateNow|]. intros now.
    apply confined_addNodeMessage.
  - intros e. apply preserves_bind; [apply confined_dateNow|]. intros now.
    apply confined_addNodeMessage.
Qed.

Lemma confined_followUp E nodeId w0 a key :
  preserves (sessionConfined nodeId w0) (followUp E nodeId a key).
Proof.
  unfold followUp.
  apply preserves_bind; [by apply confined_same_store|]. intros _.
  apply preserves_bind; [by apply confined_same_store|]. intros updated.
  apply preserves_bind.
  { unfold withToolContext. destruct (0 <? _)%nat; [|apply preserves_ret].
    apply preserves_bind; [apply confined_dateNow|]. intros now. apply preserves_ret. }
  intros h. apply preserves_bind; [apply confined_dateNow|]. intros now.
  apply preserves_bind; [by apply confined_same_store|]. intros stream.
  unfold forAwaitFollowUp.
  apply preserves_bind; [apply confined_consumeFollowUp|]. intros b.
  destruct b; [apply (preserves_ret _ tt)|].
  destruct (failure stream); [by intros w Hw|apply (preserves_ret _ tt)].
Qed.

Lemma confined_afterStream E nodeId w0 a key tcs :
  preserves (sessionConfined nodeId w0) (afterStream E nodeId a key tcs).
Proof.
  unfold afterStream. destruct (0 <? length tcs)%nat; [|apply (preserves_ret _ tt)].
  apply preserves_bind; [apply confined_runToolCalls|]. intros _.
  apply preserves_bind; [by apply confined_same_store|]. intros existing.
  apply preserves_bind; [apply confined_setNodeMessages|]. intros _.
  case_bool_decide; [apply confined_followUp|apply (preserves_ret _ tt)].
Qed.

Lemma confined_respond E nodeId w0 a cfg msgs um :
  preserves (sessionConfined nodeId w0) (respond E nodeId a cfg msgs um).
Proof.
  unfold respond.
  apply preserves_bind; [apply confined_dateNow|]. intros now.
  apply preserves_bind; [by apply confined_same_store|]. intros stream.
  apply preserves_bind; [apply confined_forAwait|]. intros st.
  apply confined_afterStream.
Qed.

Lemma confined_summarize E nodeId w0 cs hc history um :
  preserves (sessionConfined nodeId w0) (summarize E nodeId cs hc history um).
Proof.
  unfold summarize.
  apply preserves_bind; [by apply confined_same_store|]. intros _.
  destruct (findConfig cs (historyProvider hc)) as [sc|]; [|by intros w Hw].
  apply preserves_bind; [apply confined_dateNow|]. intros now.
  apply preserves_bind.
  { unfold generateContent.
    apply (confined_await nodeId w0
             (fun w => llm_generateContent E (clock w) (provider sc) (apiKey sc)
                         (historyModel hc) (historySystemPrompt hc) _)
             (called _)). done. }
  intros summary. apply preserves_bind; [apply confined_dateNow|]. intros now'.
  apply preserves_bind; [apply confined_setNodeMessages|]. intros _.
  apply preserves_bind; [by apply confined_same_store|]. intros _.
  apply preserves_ret.
Qed.

Lemma confined_turn E nodeId w0 cs a cfg msgs um :
  preserves (sessionConfined nodeId w0) (turn E nodeId cs a cfg msgs um).
Proof.
  unfold turn. apply preserves_bind; [|intros h; apply confined_respond].
  unfold manageHistory. destruct (historyConfig a) as [hc|]; [|apply preserves_ret].
  destruct (historyEnabled hc && (0 <? length msgs)%nat); [|apply preserves_ret].
  destruct (shouldSummarize _ _ _); [apply confined_summarize|apply preserves_ret].
Qed.

(** ** The ways through the handler *)

Lemma submit_cases E nodeId a w :
  submit E nodeId (Some a) w
  = if negb (truthy (trim (userInputState w)))
       && negb (bool_decide (is_Some (attachedFileState w)))
    then Returns tt w
    else match typedMessage E a w with
         | Rejected e => Rejects e (unread nodeId w)
         | Resolved um =>
             match findConfig (llmConfigs (store w)) (llmProvider a) with
             | Some cfg =>
                 if notConfigured (Some cfg) then Returns tt (unconfigured E nodeId a um w)
                 else Returns tt
                        (finished nodeId
                           (settled E nodeId
                              (turn E nodeId (llmConfigs (store w)) a cfg (getSession w nodeId)
                                 um (begun nodeId um w))))
             | None => Returns tt (unconfigured E nodeId a um w)
             end
         end.
Proof.
  unfold submit, handleSendMessage.
  cbn [render userInput attachedFile dataAgent id configs messages].
  destruct (negb (truthy (trim (userInputState w)))
            && negb (bool_decide (is_Some (attachedFileState w)))); [reflexivity|].
  rewrite bind_unfold. cbn [setNodeExecuting modifyWorld].
  rewrite bind_unfold. cbn [dateNow].
  rewrite bind_unfold.
  change (clock (withStore _ w)) with (clock w).
  fold (typedMessage E a w).
  destruct (typedMessage E a w) as [um|e]; [|reflexivity].
  cbn [await async_ret].
  rewrite bind_unfold. cbn [addNodeMessage modifyWorld].
  rewrite bind_unfold. cbn [setUserInput modifyWorld].
  rewrite bind_unfold. cbn [setAttachedFile modifyWorld].
  destruct (findConfig (llmConfigs (store w)) (llmProvider a)) as [cfg|];
    [|reflexivity].
  destruct (notConfigured (Some cfg)); [reflexivity|].
  apply tryCatchFinally_turn.
Qed.

Lemma elsewhere_refl nodeId w : elsewhere nodeId w w.
Proof. by split. Qed.

Lemma elsewhere_trans nodeId w1 w2 w3 :
  elsewhere nodeId w1 w2 -> elsewhere nodeId w2 w3 -> elsewhere nodeId w1 w3.
Proof.
  intros (Hc1 & H1) (Hc2 & H2). split; [congruence|]. intros other Hne.
  destruct (H1 other Hne) as (Hs1 & Hx1). destruct (H2 other Hne) as (Hs2 & Hx2).
  split; congruence.
Qed.

Lemma sessionConfined_elsewhere nodeId w w' :
  sessionConfined nodeId w w' -> elsewhere nodeId w w'.
Proof. intros (Hc & Hx & Hs). split; [exact Hc|]. intros other Hne. by split; [apply Hs|]. Qed.

(** Writing to the session and to the executing flag of the node changes
    nothing elsewhere. *)
Lemma elsewhere_setNodeExecuting nodeId b w :
  elsewhere nodeId w (withStore (fun s => store_setNodeExecuting s nodeId b) w).
Proof.
  split; [reflexivity|]. intros other Hne. split; [reflexivity|].
  unfold isExecuting. cbn [withStore store]. by apply store_executing_set_ne.
Qed.

Lemma elsewhere_addNodeMessage nodeId m w :
  elsewhere nodeId w (withStore (fun s => store_addNodeMessage s nodeId m) w).
Proof.
  split; [reflexivity|]. intros other Hne. split; [|reflexivity].
  unfold getSession, store_addNodeMessage. cbn [withStore store].
  by apply store_get_set_ne.
Qed.

Lemma elsewhere_same_store nodeId w w' : store w' = store w -> elsewhere nodeId w w'.
Proof. intros Hs. unfold elsewhere, getSession, isExecuting. by rewrite Hs. Qed.

Lemma elsewhere_unread nodeId w : elsewhere nodeId w (unread nodeId w).
Proof.
  eapply elsewhere_trans; [apply (elsewhere_setNodeExecuting nodeId true)|].
  by apply elsewhere_same_store.
Qed.

Lemma elsewhere_begun nodeId um w : elsewhere nodeId w (begun nodeId um w).
Proof.
  eapply elsewhere_trans; [apply (elsewhere_setNodeExecuting nodeId true)|].
  eapply elsewhere_trans; [apply (elsewhere_addNodeMessage nodeId um)|].
  by apply elsewhere_same_store.
Qed.

Lemma elsewhere_unconfigured E nodeId a um w :
  elsewhere nodeId w (unconfigured E nodeId a um w).
Proof.
  eapply elsewhere_trans; [apply (elsewhere_begun nodeId um)|].
  eapply elsewhere_trans; [|apply elsewhere_setNodeExecuting].
  eapply elsewhere_trans; [|apply elsewhere_addNodeMessage].
  by apply elsewhere_same_store.
Qed.

Lemma elsewhere_finished nodeId w : elsewhere nodeId w (finished nodeId w).
Proof.
  eapply elsewhere_trans; [apply (elsewhere_setNodeExecuting nodeId false)|].
  by apply elsewhere_same_store.
Qed.

Lemma elsewhere_settled E nodeId (o : Outcome unit) :
  elsewhere nodeId (finalWorld o) (settled E nodeId o).
Proof.
  destruct o as [u w|e w]; cbn [settled finalWorld]; [apply elsewhere_refl|].
  unfold errored.
  eapply elsewhere_trans; [|apply elsewhere_addNodeMessage].
  by apply elsewhere_same_store.
Qed.

(** X1.  The body of a turn (lines 1250-1480), however it ends, writes to
    nothing but the session of its own node: the executing flag of every
    node, its own included, the sessions of the other nodes and the configured
    providers are as the turn found them.  The flag the handler sets before
    the turn therefore holds until the [finally] of the handler clears it. *)
Theorem turn_writes_its_session_only (E : Env) (nodeId : string) (cs : list LLMConfig)
    (a : Agent) (cfg : LLMConfig) (msgs : list ChatMessage) (um : ChatMessage) (w : World) :
  sessionConfined nodeId w (finalWorld (turn E nodeId cs a cfg msgs um w)).
Proof. apply confined_turn, sessionConfined_refl. Qed.

(** X2.  A submission to one node, whatever it is and however it ends,
    leaves the session and the executing flag of every other node, and the
    configured providers, as they were: sessions share no state. *)
Theorem submit_leaves_other_nodes (E : Env) (nodeId : string) (a : option Agent)
    (w : World) :
  elsewhere nodeId w (finalWorld (submit E nodeId a w)).
Proof.
  destruct a as [a|].
  2:{ unfold submit, handleSendMessage. cbn [render dataAgent].
      destruct (_ && _); apply elsewhere_refl. }
  rewrite submit_cases.
  destruct (_ && _); [apply elsewhere_refl|].
  destruct (typedMessage E a w) as [um|e]; [|apply elsewhere_unread].
  assert (elsewhere nodeId w
            (finished nodeId
               (settled E nodeId
                  (turn E nodeId (llmConfigs (store w)) a
                     (default {| provider := Gemini; enabled := false; apiKey := EmptyString |}
                        (findConfig (llmConfigs (store w)) (llmProvider a)))
                     (getSession w nodeId) um (begun nodeId um w))))) as Hturn.
  { eapply elsewhere_trans; [apply (elsewhere_begun nodeId um)|].
    eapply elsewhere_trans; [|apply elsewhere_finished].
    eapply elsewhere_trans; [|apply elsewhere_settled].
    apply sessionConfined_elsewhere, confined_turn, sessionConfined_refl. }
  destruct (findConfig (llmConfigs (store w)) (llmProvider a)) as [cfg|];
    [|apply elsewhere_unconfigured].
  destruct (notConfigured (Some cfg)); [apply elsewhere_unconfigured|exact Hturn].
Qed.

(** X3.  When the attachment of a submission cannot be read as an image
    (and, for a Mistral agent, not as text either), the handler rejects with
    the error of the read, outside its [try]: the executing flag set at line
    1206 is never cleared, nothing is appended or dispatched, and the controls
    of the node's form stay disabled. *)
Theorem unreadable_attachment_leaves_node_executing (E : Env) (nodeId : string)
    (a : Agent) (w : World) (f : File) (e : JsThrown) :
  attachedFileState w = Some f ->
  fileAsBase64 f = Rejected e ->
  (llmProvider a = Mistral -> exists e', fileAsText f = Rejected e') ->
  exists w',
    submit E nodeId (Some a) w = Rejects e w'
    /\ isExecuting w' nodeId = true
    /\ getSession w' nodeId = getSession w nodeId
    /\ trace w' = trace w
    /\ attachedFileState w' = Some f
    /\ forall g, onGesture E g (render nodeId (Some a) w') w' = Returns tt w'.
Proof.
  intros Hf H64 Htxt. exists (unread nodeId w).
  assert (typedMessage E a w = Rejected e) as Hum.
  { unfold typedMessage, attachFile. rewrite Hf, H64.
    case_bool_decide as Hm; [|reflexivity].
    destruct (Htxt Hm) as (e' & ->). reflexivity. }
  assert (isExecuting (unread nodeId w) nodeId = true) as Hex.
  { unfold unread, isExecuting. cbn. by autorewrite with store. }
  split.
  { rewrite submit_cases, Hum, Hf.
    rewrite (bool_decide_eq_true_2 (is_Some (Some f))) by eauto.
    by rewrite andb_false_r. }
  split; [exact Hex|]. split; [reflexivity|]. split; [reflexivity|].
  split; [exact Hf|].
  intros g. unfold onGesture, textareaDisabled, sendDisabled.
  cbn [render isLoading]. unfold isExecuting in Hex. rewrite Hex. by destruct g.
Qed.

Lemma unreadable_attachment_witness :
  let E := scriptedEnv (Resolved "S") silent silent in
  let w := attaching unreadableFile (sampleWorld [] false "see this") in
  attachedFileState w = Some unreadableFile
  /\ exists w',
       submit E "node-1" (Some (sampleAgent [Chat] None)) w
       = Rejects (ErrorObject "NotReadableError") w'
       /\ isExecuting w' "node-1" = true
       /\ getSession w' "node-1" = getSession w "node-1"
       /\ trace w' = trace w
       /\ attachedFileState w' = Some unreadableFile
       /\ forall g, onGesture E g (render "node-1" (Some (sampleAgent [Chat] None)) w') w'
                    = Returns tt w'.
Proof.
  split; [reflexivity|].
  apply (unreadable_attachment_leaves_node_executing
           (scriptedEnv (Resolved "S") silent silent) "node-1" (sampleAgent [Chat] None)
           (attaching unreadableFile (sampleWorld [] false "see this")) unreadableFile
           (ErrorObject "NotReadableError")).
  - reflexivity.
  - reflexivity.
  - intros H. vm_compute in H. discriminate.
Defined.

(** X4.  A submission to an agent whose provider has no configuration, or a
    disabled one, or one without a key, dispatches nothing: the user message
    and then one message of the agent, flagged as an error and naming the
    provider (lines 1239-1244), are appended to the session, the input is
    cleared and the executing flag is cleared. *)
Theorem unconfigured_provider_is_reported (E : Env) (nodeId : string) (a : Agent)
    (w : World) (um : ChatMessage) :
  nonEmpty w ->
  typedMessage E a w = Resolved um ->
  notConfigured (findConfig (llmConfigs (store w)) (llmProvider a)) = true ->
  exists w' err,
    submit E nodeId (Some a) w = Returns tt w'
    /\ getSession w' nodeId = getSession w nodeId ++ [um; err]
    /\ sender err = agent
    /\ isError err = true
    /\ text err = "Erreur: " +:+ providerText (llmProvider a)
                  +:+ " n'est pas configuré ou activé."
    /\ msgId err = stamped "msg-" (Date_now E (S (clock w))) EmptyString
    /\ isExecuting w' nodeId = false
    /\ trace w' = trace w
    /\ userInputState w' = EmptyString
    /\ attachedFileState w' = None.
Proof.
  intros Hne Hum Hnot.
  exists (unconfigured E nodeId a um w), (notConfiguredMessage E a (S (clock w))).
  split.
  { rewrite submit_cases, Hum.
    assert (negb (truthy (trim (userInputState w)))
            && negb (bool_decide (is_Some (attachedFileState w))) = false) as ->.
    { destruct Hne as [-> | Hs]; [reflexivity|].
      rewrite (bool_decide_eq_true_2 _ Hs). apply andb_false_r. }
    destruct (findConfig (llmConfigs (store w)) (llmProvider a)) as [cfg|]; [|reflexivity].
    by rewrite Hnot. }
  split.
  { unfold unconfigured, begun, getSession. cbn [withStore advance store].
    autorewrite with store. by rewrite <- app_assoc. }
  split; [reflexivity|]. split; [reflexivity|]. split; [reflexivity|].
  split; [reflexivity|].
  split.
  { unfold unconfigured, isExecuting. cbn [withStore store]. by autorewrite with store. }
  repeat split.
Qed.

Lemma unconfigured_provider_witness :
  let E := scriptedEnv (Resolved "S") silent silent in
  let a := {| llmProvider := OpenAI; model := "gpt-4o"; systemPrompt := EmptyString;
              tools := []; outputConfig := None; capabilities := [Chat];
              historyConfig := None |} in
  let w := sampleWorld (earlier 1) false (nbsp +:+ "hello ") in
  let um := plainMessage "msg-1700000000000" user "hello" in
  nonEmpty w
  /\ exists w' err,
       submit E "node-1" (Some a) w = Returns tt w'
       /\ getSession w' "node-1" = getSession w "node-1" ++ [um; err]
       /\ sender err = agent
       /\ isError err = true
       /\ text err = "Erreur: OpenAI n'est pas configuré ou activé."
       /\ msgId err = "msg-1700000000001"
       /\ isExecuting w' "node-1" = false
       /\ trace w' = trace w
       /\ userInputState w' = EmptyString
       /\ attachedFileState w' = None.
Proof.
  split; [left; reflexivity|].
  apply (unconfigured_provider_is_reported
           (scriptedEnv (Resolved "S") silent silent) "node-1"
           {| llmProvider := OpenAI; model := "gpt-4o"; systemPrompt := EmptyString;
              tools := []; outputConfig := None; capabilities := [Chat];
              historyConfig := None |}
           (sampleWorld (earlier 1) false (nbsp +:+ "hello "))
           (plainMessage "msg-1700000000000" user "hello")).
  - left; reflexivity.
  - reflexivity.
  - reflexivity.
Defined.

(** ** Invariants of the session through a turn *)

(** A property [P] of the session that holds on when a message of [Q] is
    appended and when the messages are rewritten by a function of [F] is kept
    by the steps of a turn that append and rewrite such messages only. *)
Section SessionInvariant.

Variable nodeId : string.
Variable P : list ChatMessage -> Prop.
Variable Q : ChatMessage -> Prop.
Variable F : (ChatMessage -> ChatMessage) -> Prop.

Hypothesis P_add : forall l m, Q m -> P l -> P (l ++ [m]).
Hypothesis P_map : forall l f, F f -> P l -> P (map f l).

Hypothesis Q_streamed : forall i txt, streamId i -> Q (plainMessage i agent txt).
Hypothesis Q_error : forall i e, streamId i -> Q (errorMessageOf i e).
Hypothesis Q_result : forall now tc v, Q (toolResultMessageOf now tc v).
Hypothesis Q_toolError : forall now tc e, Q (toolErrorMessageOf now tc e).
Hypothesis F_text :
  forall i txt, streamId i -> F (fun m => if hasId i m then withText m txt else m).
Hypothesis F_tool :
  forall i txt tcs, streamId i ->
    F (fun m => if hasId i m then toolMessageOf i txt tcs else m).
Hypothesis F_clear : F clearExecutingTool.

Lemma inv_same {A : Type} (c : Async A) :
  (forall w, getSession (finalWorld (c w)) nodeId = getSession w nodeId) ->
  preserves (sessionHas P nodeId) c.
Proof. intros Hsame w Hw. unfold sessionHas. by rewrite Hsame. Qed.

Lemma inv_add m : Q m -> preserves (sessionHas P nodeId) (addNodeMessage nodeId m).
Proof.
  intros Hm w Hw. unfold sessionHas. cbn [addNodeMessage modifyWorld finalWorld].
  rewrite getSession_withStore_add. by apply P_add.
Qed.

Lemma inv_rewrite f :
  F f ->
  preserves (sessionHas P nodeId)
    (existingMessages ← getNodeMessages nodeId;
     setNodeMessages nodeId (map f existingMessages)).
Proof.
  intros Hf w Hw. unfold sessionHas. rewrite bind_unfold.
  cbn [getNodeMessages setNodeMessages modifyWorld finalWorld].
  rewrite getSession_withStore_set. by apply P_map.
Qed.

Lemma inv_dateNow E : preserves (sessionHas P nodeId) (dateNow E).
Proof. by apply inv_same. Qed.

Lemma inv_onText i txt :
  streamId i -> preserves (sessionHas P nodeId) (onText nodeId i txt).
Proof.
  intros Hi w Hw. unfold onText. rewrite bind_unfold. cbn [getNodeMessages].
  destruct (List.find (hasId i) (store_getNodeMessages (store w) nodeId)).
  - apply (inv_rewrite (fun m => if hasId i m then withText m txt else m));
      [by apply F_text|exact Hw].
  - apply inv_add; [by apply Q_streamed|exact Hw].
Qed.

Lemma inv_textStep i chunk cr :
  streamId i -> preserves (sessionHas P nodeId) (textStep nodeId i chunk cr).
Proof.
  intros Hi. unfold textStep. destruct (chunkText chunk); [|apply preserves_ret].
  apply preserves_bind; [by apply inv_onText|]. intros _. apply preserves_ret.
Qed.

Lemma inv_toolCallsStep i chunk cr tcs :
  streamId i -> preserves (sessionHas P nodeId) (toolCallsStep nodeId i chunk cr tcs).
Proof.
  intros Hi. unfold toolCallsStep, onToolCalls.
  destruct (chunkToolCalls chunk) as [tcs'|]; [|apply preserves_ret].
  apply preserves_bind; [|intros _; apply preserves_ret].
  apply (inv_rewrite (fun m => if hasId i m then toolMessageOf i cr tcs' else m)).
  by apply F_tool.
Qed.

Lemma inv_consume i chunks : forall cr tcs,
  streamId i -> preserves (sessionHas P nodeId) (consume nodeId i chunks cr tcs).
Proof.
  induction chunks as [|chunk rest IH]; intros cr tcs Hi; [apply preserves_ret|].
  cbn [consume]. destruct (chunkFailure chunk).
  - apply preserves_bind; [by apply inv_add, Q_error|]. intros _. apply preserves_ret.
  - apply preserves_bind; [by apply inv_textStep|]. intros cr1.
    apply preserves_bind; [by apply inv_toolCallsStep|]. intros tcs1. by apply IH.
Qed.

Lemma inv_forAwait i stream :
  streamId i -> preserves (sessionHas P nodeId) (forAwait nodeId i stream).
Proof.
  intros Hi. unfold forAwait. apply preserves_bind; [by apply inv_consume|]. intros st.
  destruct (broken st); [apply preserves_ret|].
  destruct (failure stream); [by intros w Hw|apply preserves_ret].
Qed.

Lemma inv_consumeFollowUp i chunks : forall cr,
  streamId i -> preserves (sessionHas P nodeId) (consumeFollowUp nodeId i chunks cr).
Proof.
  induction chunks as [|chunk rest IH]; intros cr Hi; [apply preserves_ret|].
  cbn [consumeFollowUp]. destruct (chunkFailure chunk).
  - apply preserves_bind; [by apply inv_add, Q_error|]. intros _. apply preserves_ret.
  - apply preserves_bind; [by apply inv_textStep|]. intros cr1. by apply IH.
Qed.

Lemma inv_runToolCalls E tcs : preserves (sessionHas P nodeId) (runToolCalls E nodeId tcs).
Proof.
  induction tcs as [|tc rest IH]; [apply (preserves_ret _ tt)|].
  cbn [runToolCalls]. apply preserves_bind; [|by intros _].
  unfold runToolCall. apply preserves_tryCatch.
  - apply preserves_bind.
    { apply inv_same. intros w. unfold executeTool.
      by destruct (tool_executeTool E (clock w) tc). }
    intros v. apply preserves_bind; [apply inv_dateNow|]. intros now.
    apply inv_add, Q_result.
  - intros e. apply preserves_bind; [apply inv_dateNow|]. intros now.
    apply inv_add, Q_toolError.
Qed.

Lemma inv_followUp E a key : preserves (sessionHas P nodeId) (followUp E nodeId a key).
Proof.
  unfold followUp.
  apply preserves_bind; [by apply inv_same|]. intros _.
  apply preserves_bind; [by apply inv_same|]. intros updated.
  apply preserves_bind.
  { unfold withToolContext. destruct (0 <? _)%nat; [|apply preserves_ret].
    apply preserves_bind; [apply inv_dateNow|]. intros now. apply preserves_ret. }
  intros h. apply preserves_bind; [apply inv_dateNow|]. intros now.
  apply preserves_bind; [by apply inv_same|]. intros stream.
  unfold forAwaitFollowUp.
  apply preserves_bind; [apply inv_consumeFollowUp; exists now; by right|]. intros b.
  destruct b; [apply (preserves_ret _ tt)|].
  destruct (failure stream); [by intros w Hw|apply (preserves_ret _ tt)].
Qed.

Lemma inv_afterStream E a key tcs :
  preserves (sessionHas P nodeId) (afterStream E nodeId a key tcs).
Proof.
  unfold afterStream. destruct (0 <? length tcs)%nat; [|apply (preserves_ret _ tt)].
  apply preserves_bind; [apply inv_runToolCalls|]. intros _.
  intros w Hw. rewrite bind_unfold. cbn [getNodeMessages].
  rewrite bind_unfold. cbn [setNodeMessages modifyWorld].
  assert (sessionHas P nodeId
            (withStore (fun s => store_setNodeMessages s nodeId
                                   (map clearExecutingTool (getSession w nodeId))) w))
    as Hcleared.
  { unfold sessionHas. rewrite getSession_withStore_set. by apply P_map. }
  case_bool_decide; [by apply inv_followUp|exact Hcleared].
Qed.

Lemma inv_respond E a cfg msgs um :
  preserves (sessionHas P nodeId) (respond E nodeId a cfg msgs um).
Proof.
  unfold respond.
  apply preserves_bind; [apply inv_dateNow|]. intros now.
  apply preserves_bind; [by apply inv_same|]. intros stream.
  apply preserves_bind; [apply inv_forAwait; exists now; by left|]. intros st.
  apply inv_afterStream.
Qed.

End SessionInvariant.

(** ** The status of the tool message *)

Lemma status_clearExecutingTool m : status (clearExecutingTool m) = None.
Proof. unfold clearExecutingTool. by destruct (status m) as [[]|] eqn:H. Qed.

(** X5.  Once the tool calls of a turn are run (lines 1375-1480, with tool
    calls recorded), no message of the session is marked as executing a tool,
    whether or not a follow-up is generated and however the follow-up ends:
    the statuses are cleared before the follow-up, which appends and rewrites
    messages without a status only. *)
Theorem tool_status_is_cleared (E : Env) (nodeId : string) (a : Agent) (key : string)
    (tcs : list ToolCall) (w : World) :
  tcs <> [] ->
  noneExecutingTool nodeId (finalWorld (afterStream E nodeId a key tcs w)).
Proof.
  intros Hne.
  destruct (afterStream_run E nodeId a key tcs w Hne) as (w2 & Hs & _ & _ & _ & ->).
  assert (noneExecutingTool nodeId w2) as H2.
  { unfold noneExecutingTool. rewrite Hs. apply Forall_forall.
    intros m Hm. apply list_elem_of_fmap in Hm as (m' & -> & _).
    apply status_clearExecutingTool. }
  case_bool_decide; [|exact H2].
  apply (inv_followUp nodeId (Forall (fun m => status m = None))
           (fun m => status m = None)
           (fun f => forall m, status m = None -> status (f m) = None)); try done.
  - intros l m Hm Hl. apply Forall_app. split; [exact Hl|]. by apply Forall_singleton.
  - intros l f Hf Hl. apply Forall_forall. intros m Hm.
    apply list_elem_of_fmap in Hm as (m' & -> & Hm').
    apply Hf. rewrite Forall_forall in Hl. by apply Hl.
  - intros i txt _ m Hm. by destruct (hasId i m).
Qed.

Lemma tool_status_witness :
  let E := scriptedEnv (Resolved "S") silent (Build_StreamOutcome [textChunk "18 degrees"] None) in
  let tcs := [sampleCall "get_weather"] in
  let w := sampleWorld [toolMessageOf "msg-1700000000000-agent" "Let me check." tcs]
             true EmptyString in
  ~ noneExecutingTool "node-1" w
  /\ noneExecutingTool "node-1"
       (finalWorld (afterStream E "node-1" (sampleAgent [Chat] None) "k-gemini" tcs w)).
Proof.
  split.
  - intros H. apply Forall_inv in H. discriminate H.
  - apply (tool_status_is_cleared
             (scriptedEnv (Resolved "S") silent
                (Build_StreamOutcome [textChunk "18 degrees"] None))
             "node-1" (sampleAgent [Chat] None) "k-gemini" [sampleCall "get_weather"]
             (sampleWorld [toolMessageOf "msg-1700000000000-agent" "Let me check."
                             [sampleCall "get_weather"]] true EmptyString)).
    discriminate.
Defined.

(** ** The message of the user *)

Lemma submit_nonEmpty (w : World) :
  nonEmpty w ->
  negb (truthy (trim (userInputState w)))
  && negb (bool_decide (is_Some (attachedFileState w))) = false.
Proof.
  intros [-> | Hs]; [reflexivity|].
  rewrite (bool_decide_eq_true_2 _ Hs). apply andb_false_r.
Qed.

Lemma kept_respond E nodeId a cfg msgs um0 um :
  settledMessage um ->
  preserves (sessionHas (fun l => um ∈ l) nodeId) (respond E nodeId a cfg msgs um0).
Proof.
  intros (Hst & Hid).
  apply (inv_respond nodeId (fun l => um ∈ l) (fun _ => True) (fun f => f um = um));
    try done.
  - intros l m _ Hl. apply elem_of_app. by left.
  - intros l f Hf Hl. rewrite <- Hf. by apply list_elem_of_fmap_2.
  - intros i txt Hi. destruct (hasId i um) eqn:Heq; [|reflexivity].
    apply hasId_true in Heq. by rewrite Heq in Hid.
  - intros i txt tcs Hi. destruct (hasId i um) eqn:Heq; [|reflexivity].
    apply hasId_true in Heq. by rewrite Heq in Hid.
  - unfold clearExecutingTool. by rewrite Hst.
Qed.

(** Once appended, the message of the user stays in the session to the end
    of the handler, which then returns with the executing flag cleared. *)
Lemma submit_keeps_user_message E nodeId a w um :
  nonEmpty w ->
  typedMessage E a w = Resolved um ->
  exists w',
    submit E nodeId (Some a) w = Returns tt w'
    /\ isExecuting w' nodeId = false
    /\ um ∈ getSession w' nodeId.
Proof.
  intros Hne Hum.
  rewrite submit_cases, (submit_nonEmpty w Hne), Hum.
  assert (exists w', Returns tt (unconfigured E nodeId a um w) = Returns tt w'
                     /\ isExecuting w' nodeId = false /\ um ∈ getSession w' nodeId)
    as Hunconfigured.
  { eexists. split; [reflexivity|]. split.
    - unfold unconfigured, isExecuting. cbn [withStore store]. by autorewrite with store.
    - unfold unconfigured, begun, getSession. cbn [withStore advance store].
      autorewrite with store. rewrite !elem_of_app, !list_elem_of_singleton. tauto. }
  destruct (findConfig (llmConfigs (store w)) (llmProvider a)) as [cfg|];
    [|exact Hunconfigured].
  destruct (notConfigured (Some cfg)); [exact Hunconfigured|].
  eexists. split; [reflexivity|]. split; [apply isExecuting_finished|].
  rewrite getSession_finished.
  assert (um ∈ getSession (begun nodeId um w) nodeId) as Hbegun.
  { unfold begun, getSession. cbn [store]. autorewrite with store.
    apply elem_of_app. right. by apply list_elem_of_singleton. }
  assert (um ∈ getSession
            (finalWorld (turn E nodeId (llmConfigs (store w)) a cfg (getSession w nodeId) um
                           (begun nodeId um w))) nodeId) as Hturn.
  { unfold turn. rewrite bind_unfold.
    pose proof (kept_respond E nodeId a cfg (getSession w nodeId) um um
                  (typedMessage_settled _ _ _ _ Hum)) as Hkeep.
    destruct (manageHistory_cases E nodeId (llmConfigs (store w)) a (getSession w nodeId) um
                (begun nodeId um w))
      as [(h & ->)|[(e & w1 & -> & Hs & _)|(sc & hc & summary & w1 & -> & Hs & _)]].
    - by apply Hkeep.
    - cbn [finalWorld]. by rewrite Hs.
    - apply Hkeep. unfold sessionHas. rewrite Hs.
      apply elem_of_cons. right. by apply list_elem_of_singleton. }
  destruct (turn _ _ _ _ _ _ _ _) as [u w1|e w1]; cbn [settled finalWorld] in *;
    [exact Hturn|].
  rewrite getSession_errored. apply elem_of_app. by left.
Qed.

(** X6.  A submission that is not empty and whose attachment is read always
    returns, with the executing flag cleared and the message of the user in
    the session: whether the provider is configured or not, whether the
    history is compacted or not, and however the turn ends, no step removes
    or rewrites the user message once it is appended. *)
Theorem user_message_is_kept (E : Env) (nodeId : string) (a : Agent) (w : World)
    (um : ChatMessage) :
  nonEmpty w ->
  typedMessage E a w = Resolved um ->
  exists w',
    submit E nodeId (Some a) w = Returns tt w'
    /\ isExecuting w' nodeId = false
    /\ um ∈ getSession w' nodeId.
Proof.
  apply submit_keeps_user_message.
Qed.

Lemma user_message_witness :
  let E := scriptedEnv (Resolved "S") (Build_StreamOutcome [textChunk "Bonjour"] None) silent in
  let w := sampleWorld (earlier 5) false ("sixth" +:+ nbsp) in
  let um := plainMessage "msg-1700000000000" user "sixth" in
  nonEmpty w
  /\ exists w',
       submit E "node-1" (Some (sampleAgent [Chat] (Some (samplePolicy Gemini 5)))) w
       = Returns tt w'
       /\ isExecuting w' "node-1" = false
       /\ um ∈ getSession w' "node-1".
Proof.
  split; [left; reflexivity|].
  apply (user_message_is_kept
           (scriptedEnv (Resolved "S") (Build_StreamOutcome [textChunk "Bonjour"] None) silent)
           "node-1" (sampleAgent [Chat] (Some (samplePolicy Gemini 5)))
           (sampleWorld (earlier 5) false ("sixth" +:+ nbsp))
           (plainMessage "msg-1700000000000" user "sixth")).
  - left; reflexivity.
  - reflexivity.
Defined.

(** ** Mutual exclusion *)

Lemma flagged_overwritten nodeId b b' w :
  flagged nodeId b' (flagged nodeId b w) = flagged nodeId b' w.
Proof.
  unfold flagged, withStore, store_setNodeExecuting. cbn.
  by rewrite insert_insert_eq.
Qed.

(** The handler reads nothing of the executing flag: a submission it does
    not refuse begins by setting the flag, whatever it was. *)
Lemma submit_flagged E nodeId ag b w :
  nonEmpty w ->
  submit E nodeId (Some ag) (flagged nodeId b w) = submit E nodeId (Some ag) w.
Proof.
  intros Hne. unfold submit, handleSendMessage.
  cbn [render userInput attachedFile dataAgent id configs messages].
  change (userInputState (flagged nodeId b w)) with (userInputState w).
  change (attachedFileState (flagged nodeId b w)) with (attachedFileState w).
  change (llmConfigs (store (flagged nodeId b w))) with (llmConfigs (store w)).
  change (store_getNodeMessages (store (flagged nodeId b w)) nodeId)
    with (store_getNodeMessages (store w) nodeId).
  rewrite (submit_nonEmpty w Hne).
  rewrite !(bind_unfold (setNodeExecuting nodeId true)).
  cbn [setNodeExecuting modifyWorld].
  fold (flagged nodeId true (flagged nodeId b w)). fold (flagged nodeId true w).
  by rewrite flagged_overwritten.
Qed.

Lemma emptySubmission_guard w :
  negb (truthy (trim (userInputState w)))
  && negb (bool_decide (is_Some (attachedFileState w))) = true
  <-> emptySubmission w.
Proof.
  unfold emptySubmission. rewrite andb_true_iff, !negb_true_iff. split.
  - intros [Htxt Hfile]. split.
    + by destruct (trim (userInputState w)).
    + apply bool_decide_eq_false in Hfile.
      destruct (attachedFileState w) as [f|]; [|done]. exfalso. apply Hfile. by exists f.
  - intros [-> ->]. split; [reflexivity|]. apply bool_decide_eq_false. by intros [? ?].
Qed.

Lemma isExecuting_unconfigured E nodeId a um w :
  isExecuting (unconfigured E nodeId a um w) nodeId = false.
Proof. unfold unconfigured, isExecuting. cbn [withStore store]. by autorewrite with store. Qed.

(** C1, as the code has it: while [isExecuting] holds for the session, the
    textarea and the send button of the node are disabled, so neither gesture
    of the user reaches the handler and the world is left as it is.  The
    handler itself does not read the executing flag.  It returns at once on
    an empty submission (blank text and no attachment) and on a node without
    agent.  On every other submission the flag the world had makes no
    difference to what the handler does, and when the attachment, if any, is
    read, the handler returns with the user message in the session and the
    flag cleared.  So, called while the flag is set, the handler returns
    leaving the world as it is exactly when the submission is empty or the
    node has no agent. *)
Theorem C1_gestures_blocked_while_executing (E : Env) (nodeId : string)
    (a : option Agent) (w : World) :
  (isExecuting w nodeId = true ->
   forall g, onGesture E g (render nodeId a w) w = Returns tt w)
  /\ (emptySubmission w \/ a = None -> submit E nodeId a w = Returns tt w)
  /\ (forall ag, a = Some ag -> nonEmpty w ->
        (forall b, submit E nodeId a (flagged nodeId b w) = submit E nodeId a w)
        /\ (forall um, typedMessage E ag w = Resolved um ->
              exists w', submit E nodeId a w = Returns tt w'
                         /\ isExecuting w' nodeId = false
                         /\ um ∈ getSession w' nodeId))
  /\ (isExecuting w nodeId = true ->
      (submit E nodeId a w = Returns tt w <-> emptySubmission w \/ a = None)).
Proof.
  assert (emptySubmission w \/ a = None -> submit E nodeId a w = Returns tt w) as Hrefused.
  { intros [Hempty| ->]; unfold submit, handleSendMessage;
      cbn [render userInput attachedFile dataAgent id configs messages].
    - by rewrite (proj2 (emptySubmission_guard w) Hempty).
    - by destruct (negb _ && negb _). }
  split; [|split; [exact Hrefused|split]].
  - intros Hex g. unfold onGesture, textareaDisabled, sendDisabled.
    cbn [render isLoading]. unfold isExecuting in Hex. rewrite Hex.
    by destruct g.
  - intros ag -> Hne. split.
    + intros b. by apply submit_flagged.
    + intros um Hum. by apply submit_keeps_user_message.
  - intros Hex. split; [|exact Hrefused].
    intros Hrun. destruct a as [ag|]; [|by right]. left.
    apply emptySubmission_guard. rewrite submit_cases in Hrun.
    destruct (negb (truthy (trim (userInputState w)))
              && negb (bool_decide (is_Some (attachedFileState w)))); [reflexivity|].
    exfalso.
    assert (forall w', Returns tt w' = Returns tt w -> isExecuting w' nodeId = false -> False)
      as Hno.
    { intros w' [= ->] Hw'. congruence. }
    destruct (typedMessage E ag w) as [um|e]; [|discriminate Hrun].
    destruct (findConfig (llmConfigs (store w)) (llmProvider ag)) as [cfg|].
    + destruct (notConfigured (Some cfg)).
      * apply (Hno _ Hrun), isExecuting_unconfigured.
      * apply (Hno _ Hrun), isExecuting_finished.
    + apply (Hno _ Hrun), isExecuting_unconfigured.
Qed.

Lemma C1_gestures_blocked_witness :
  let E := scriptedEnv (Resolved "S") silent silent in
  let a := Some (sampleAgent [Chat] None) in
  let busy := sampleWorld (earlier 1) true "hello" in
  let blank := sampleWorld (earlier 1) true (" " +:+ nbsp +:+ ideographicSpace) in
  isExecuting busy "node-1" = true
  /\ (forall g, onGesture E g (render "node-1" a busy) busy = Returns tt busy)
  /\ emptySubmission blank
  /\ submit E "node-1" a blank = Returns tt blank
  /\ submit E "node-1" None busy = Returns tt busy
  /\ nonEmpty busy
  /\ submit E "node-1" a (flagged "node-1" false busy) = submit E "node-1" a busy
  /\ (exists w', submit E "node-1" a busy = Returns tt w'
                 /\ isExecuting w' "node-1" = false
                 /\ plainMessage "msg-1700000000000" user "hello" ∈ getSession w' "node-1")
  /\ submit E "node-1" a busy <> Returns tt busy.
Proof.
  intros E a busy blank.
  assert (isExecuting busy "node-1" = true) as Hex by reflexivity.
  assert (emptySubmission blank) as Hblank by (split; reflexivity).
  assert (nonEmpty busy) as Hne by (left; reflexivity).
  destruct (C1_gestures_blocked_while_executing E "node-1" a busy)
    as (Hgest & _ & Hruns & Hiff).
  destruct (Hruns (sampleAgent [Chat] None) eq_refl Hne) as (Hflag & Hkept).
  split; [exact Hex|]. split; [exact (Hgest Hex)|]. split; [exact Hblank|].
  split.
  { apply (proj1 (proj2 (C1_gestures_blocked_while_executing E "node-1" a blank))).
    by left. }
  split.
  { apply (proj1 (proj2 (C1_gestures_blocked_while_executing E "node-1" None busy))).
    by right. }
  split; [exact Hne|]. split; [exact (Hflag false)|].
  split; [apply Hkept; reflexivity|].
  intros Hrun. apply (Hiff Hex) in Hrun as [[Htxt _]|Hnone]; [|discriminate Hnone].
  vm_compute in Htxt. discriminate Htxt.
Defined.

(** C1 as stated fails: [handleSendMessage] does not read the executing flag.
    Called while the session is executing, with the text [hello], it appends
    the user message and dispatches a stream call. *)
Lemma C1_handler_runs_while_executing :
  let E := scriptedEnv (Resolved "S") silent silent in
  let w := sampleWorld (earlier 1) true "hello" in
  let o := submit E "node-1" (Some (sampleAgent [Chat] None)) w in
  isExecuting w "node-1" = true
  /\ getSession w "node-1" = earlier 1
  /\ getSession (finalWorld o) "node-1"
     = earlier 1 ++ [plainMessage "msg-1700000000000" user "hello"]
  /\ isExecuting (finalWorld o) "node-1" = false
  /\ eventsSince w o
     = [StreamCall Gemini "k-gemini" "gemini-2.5-flash" "Be brief."
          (earlier 1 ++ [plainMessage "msg-1700000000000" user "hello"]) [] None].
Proof. vm_compute. repeat split. Qed.

(** ** A stream without text *)

Lemma last_cons_default {A : Type} (x d : A) (l : list A) :
  default d (last (x :: l)) = default x (last l).
Proof. rewrite last_cons. by destruct (last l). Qed.

Lemma onToolCalls_absent nodeId A txt tcs w :
  (forall m, m ∈ getSession w nodeId -> msgId m <> A) ->
  exists w',
    onToolCalls nodeId A txt tcs w = Returns tt w'
    /\ getSession w' nodeId = getSession w nodeId
    /\ trace w' = trace w /\ clock w' = clock w.
Proof.
  intros Hfresh. eexists. split; [reflexivity|]. split; [|by split].
  rewrite getSession_withStore_set. fold (getSession w nodeId).
  rewrite <- (map_id (getSession w nodeId)) at 2.
  apply map_ext_in. intros m Hm. apply list_elem_of_In in Hm.
  destruct (hasId A m) eqn:Hid; [|reflexivity].
  apply hasId_true in Hid. by apply Hfresh in Hm.
Qed.

Lemma consume_textless nodeId A chunks : forall tcs w,
  (forall m, m ∈ getSession w nodeId -> msgId m <> A) ->
  Forall (fun c => chunkFailure c = None /\ chunkText c = None) chunks ->
  exists w',
    consume nodeId A chunks EmptyString tcs w
    = Returns (loopEnd EmptyString (default tcs (last (omap chunkToolCalls chunks))) false) w'
    /\ getSession w' nodeId = getSession w nodeId
    /\ trace w' = trace w /\ clock w' = clock w.
Proof.
  induction chunks as [|chunk rest IH]; intros tcs w Hfresh Hall.
  - exists w. by repeat split.
  - apply Forall_cons in Hall as [[Hf Ht] Hrest].
    cbn [consume]. rewrite Hf. unfold textStep. rewrite Ht.
    rewrite bind_unfold. cbn [mret Async_ret async_ret].
    unfold toolCallsStep. cbn [omap list_omap].
    destruct (chunkToolCalls chunk) as [tcs'|].
    + destruct (onToolCalls_absent nodeId A EmptyString tcs' w Hfresh)
        as (w1 & Hrun & Hs1 & Htr1 & Hck1).
      rewrite bind_unfold, (bind_returns _ _ _ _ _ Hrun).
      cbn [mret Async_ret async_ret].
      destruct (IH tcs' w1) as (w' & Hrest' & Hs & Htr & Hck); [by rewrite Hs1|exact Hrest|].
      exists w'. rewrite last_cons_default.
      split; [exact Hrest'|]. split; [congruence|]. split; congruence.
    + rewrite bind_unfold. cbn [mret Async_ret async_ret].
      by apply IH.
Qed.

(** X7.  A stream that carries no text writes nothing to the session, also
    when it carries tool calls: the message with the tool calls (line 1359)
    only replaces the message of the stream, which a text increment alone
    creates (lines 1340-1352).  The tool calls of the last increment that has
    some are recorded all the same, for the tool loop to run. *)
Theorem textless_stream_stores_no_message (nodeId A : string) (stream : StreamOutcome)
    (w : World) :
  (forall m, m ∈ getSession w nodeId -> msgId m <> A) ->
  Forall (fun c => chunkFailure c = None /\ chunkText c = None) (yielded stream) ->
  failure stream = None ->
  exists w',
    forAwait nodeId A stream w
    = Returns (loopEnd EmptyString (lastToolCalls (yielded stream)) false) w'
    /\ getSession w' nodeId = getSession w nodeId
    /\ trace w' = trace w.
Proof.
  intros Hfresh Hall Hend. unfold forAwait.
  destruct (consume_textless nodeId A (yielded stream) [] w Hfresh Hall)
    as (w' & Hrun & Hs & Htr & _).
  exists w'. rewrite (bind_returns _ _ _ _ _ Hrun). cbn [broken loopEnd].
  rewrite Hend. by repeat split.
Qed.

Lemma textless_stream_witness :
  let tcs := [sampleCall "get_weather"] in
  let w := sampleWorld [plainMessage "msg-1700000000000" user "Weather in Paris?"] true
             EmptyString in
  lastToolCalls [toolCallsChunk tcs] = tcs
  /\ exists w',
       forAwait "node-1" "msg-1700000000001-agent"
         (Build_StreamOutcome [toolCallsChunk tcs] None) w
       = Returns (loopEnd EmptyString tcs false) w'
       /\ getSession w' "node-1" = getSession w "node-1"
       /\ trace w' = trace w.
Proof.
  split; [reflexivity|].
  apply (textless_stream_stores_no_message "node-1" "msg-1700000000001-agent"
           (Build_StreamOutcome [toolCallsChunk [sampleCall "get_weather"]] None)
           (sampleWorld [plainMessage "msg-1700000000000" user "Weather in Paris?"] true
              EmptyString)).
  - intros m Hm. vm_compute in Hm. apply list_elem_of_singleton in Hm. subst m.
    vm_compute. discriminate.
  - repeat constructor.
  - reflexivity.
Defined.

(** ** The history of the follow-up call *)

Lemma filter_elem_of {A : Type} (f : A -> bool) (l : list A) (x : A) :
  x ∈ List.filter f l <-> x ∈ l /\ f x = true.
Proof. rewrite !list_elem_of_In. apply filter_In. Qed.

(** X8.  The follow-up call of a turn (lines 1407-1442) is made once, and
    its history holds no [tool_result] message: it is the session without its
    tool results, in order, followed by exactly one synthetic user message
    when the session has a tool result, and by nothing when it has none. *)
Theorem follow_up_sends_no_tool_result (E : Env) (nodeId : string) (a : Agent)
    (key : string) (w : World) :
  exists h ctx,
    trace (finalWorld (followUp E nodeId a key w)) = trace w ++ [followUpCall a key h]
    /\ h = List.filter (fun m => negb (isToolResult m)) (getSession w nodeId) ++ ctx
    /\ Forall (fun m => sender m <> tool_result) h
    /\ Forall (fun m => sender m = user) ctx
    /\ length ctx <= 1
    /\ (ctx = [] <-> Forall (fun m => sender m <> tool_result) (getSession w nodeId)).
Proof.
  destruct (followUp_run E nodeId a key w) as (Htr & _).
  set (session := getSession w nodeId) in *.
  exists (followUpHistory E (clock w) session).
  exists (if (0 <? length (List.filter isToolResult session))%nat
          then [contextMessageOf E (Date_now E (clock w)) (List.filter isToolResult session)]
          else []).
  split; [exact Htr|]. split; [reflexivity|].
  assert (Forall (fun m => sender m <> tool_result)
            (List.filter (fun m => negb (isToolResult m)) session)) as Hrest.
  { apply Forall_forall. intros m Hm. apply filter_elem_of in Hm as [_ Hm].
    apply negb_true_iff, bool_decide_eq_false in Hm. exact Hm. }
  split; [|split; [|split]].
  - unfold followUpHistory. apply Forall_app. split; [exact Hrest|].
    destruct (0 <? _)%nat; [|constructor]. by repeat constructor.
  - destruct (0 <? _)%nat; by repeat constructor.
  - destruct (0 <? _)%nat; cbn; lia.
  - destruct (List.filter isToolResult session) as [|m0 l] eqn:Hf; cbn [length Nat.ltb Nat.leb].
    + split; [intros _|done]. apply Forall_forall. intros m Hm Hs.
      assert (m ∈ List.filter isToolResult session) as Hin.
      { apply filter_elem_of. split; [exact Hm|]. by apply bool_decide_eq_true. }
      rewrite Hf in Hin. by apply elem_of_nil in Hin.
    + split; [done|]. intros Hall. exfalso.
      assert (m0 ∈ List.filter isToolResult session) as Hin by (rewrite Hf; left).
      apply filter_elem_of in Hin as [Hm Hs]. rewrite Forall_forall in Hall.
      apply (Hall m0 Hm). by apply bool_decide_eq_true in Hs.
Qed.

(** ** A turn over the Gemini service *)

Lemma dispatched_gemini_stream G others E k key mdl sys history tls oc :
  llm_generateContentStream (dispatched G others E) k Gemini key mdl sys history tls oc
  = geminiService.generateContentStream G key mdl sys history tls oc.
Proof. reflexivity. Qed.

(** X9.  When the SDK of Gemini rejects the request of a turn (a transport
    or backend failure), the accepted submission of a Gemini agent ends with
    exactly two messages added to the session, the user message and one
    message of the agent, flagged as an error, that carries the text of the
    failure under the id of the stream;
    one call was dispatched, the handler returns and the flag is cleared. *)
Theorem gemini_transport_error_is_one_message (G : GeminiEnv)
    (others : LLMProvider -> BackendStream) (E : Env) (nodeId : string) (a : Agent)
    (w : World) (um : ChatMessage) (cfg : LLMConfig) (cs : list Content) (err : JsThrown) :
  let E' := dispatched G others E in
  accepted E' a w um cfg ->
  llmProvider a = Gemini ->
  (forall hc, historyConfig a = Some hc -> historyEnabled hc = true ->
              getSession w nodeId <> [] ->
              ~ anyCounterMet E' (limits hc) (getSession w nodeId ++ [um])) ->
  geminiService.formatHistory G (getSession w nodeId ++ [um]) = Resolved cs ->
  ai_generateContentStream G
    (geminiService.requestOf (model a) (systemPrompt a) cs
       (geminiService.formatTools (tools a)) (outputConfig a)) = Rejected err ->
  exists w' failed,
    submit E' nodeId (Some a) w = Returns tt w'
    /\ getSession w' nodeId = getSession w nodeId ++ [um; failed]
    /\ sender failed = agent
    /\ isError failed = true
    /\ text failed
       = "Error: Could not get a response from Gemini. "
         +:+ match err with
             | ErrorObject m => m
             | OtherThrown _ => EmptyString
             end
    /\ msgId failed = stamped "msg-" (Date_now E (S (clock w))) "-agent"
    /\ isExecuting w' nodeId = false
    /\ eventsSince w (submit E' nodeId (Some a) w)
       = [primaryCall a cfg (getSession w nodeId ++ [um])].
Proof.
  intros E' Hacc Hp Hidle Hfmt Hsdk. subst E'.
  assert (turn (dispatched G others E) nodeId (llmConfigs (store w)) a cfg (getSession w nodeId) um
            (begun nodeId um w)
          = Returns tt
              (withStore (fun s => store_addNodeMessage s nodeId
                            (errorMessageOf (stamped "msg-" (Date_now E (S (clock w))) "-agent")
                               ("Error: Could not get a response from Gemini. "
                                +:+ match err with
                                    | ErrorObject m => m
                                    | OtherThrown _ => EmptyString
                                    end)))
                 (called (primaryCall a cfg (getSession w nodeId ++ [um]))
                    (advance (begun nodeId um w))))) as Hturn.
  { unfold turn.
    destruct (manageHistory_idle (dispatched G others E) nodeId (llmConfigs (store w)) a (getSession w nodeId) um
                (begun nodeId um w) Hidle) as (h & Hh).
    rewrite (bind_returns _ _ _ _ _ Hh), respond_unfold, Hp.
    rewrite dispatched_gemini_stream.
    unfold geminiService.generateContentStream. rewrite Hfmt, Hsdk.
    reflexivity. }
  eexists _, _. split.
  { rewrite (submit_settles _ _ _ _ _ _ Hacc), Hturn. reflexivity. }
  split.
  { rewrite getSession_finished. cbn [settled]. rewrite getSession_withStore_add.
    unfold begun, getSession. cbn [called advance store]. autorewrite with store.
    rewrite <- app_assoc. reflexivity. }
  split; [reflexivity|]. split; [reflexivity|]. split; [reflexivity|].
  split; [reflexivity|].
  split; [apply isExecuting_finished|].
  apply eventsSince_app. rewrite (submit_settles _ _ _ _ _ _ Hacc), Hturn. reflexivity.
Qed.

Lemma gemini_transport_error_witness :
  let G := sampleGemini (Rejected (ErrorObject "fetch failed")) in
  let E := scriptedEnv (Resolved "S") silent silent in
  let w := sampleWorld (earlier 2) false (nbsp +:+ "hello") in
  let um := plainMessage "msg-1700000000000" user "hello" in
  accepted (dispatched G noOthers E) (sampleAgent [Chat] None) w um sampleGeminiConfig
  /\ exists w' failed,
       submit (dispatched G noOthers E) "node-1" (Some (sampleAgent [Chat] None)) w
       = Returns tt w'
       /\ getSession w' "node-1" = getSession w "node-1" ++ [um; failed]
       /\ sender failed = agent
       /\ isError failed = true
       /\ text failed = "Error: Could not get a response from Gemini. " +:+ "fetch failed"
       /\ msgId failed = stamped "msg-" (Date_now E 1) "-agent"
       /\ isExecuting w' "node-1" = false
       /\ eventsSince w
            (submit (dispatched G noOthers E) "node-1" (Some (sampleAgent [Chat] None)) w)
          = [primaryCall (sampleAgent [Chat] None) sampleGeminiConfig
               (getSession w "node-1" ++ [um])].
Proof.
  assert (accepted (dispatched (sampleGemini (Rejected (ErrorObject "fetch failed"))) noOthers
                      (scriptedEnv (Resolved "S") silent silent))
            (sampleAgent [Chat] None) (sampleWorld (earlier 2) false (nbsp +:+ "hello"))
            (plainMessage "msg-1700000000000" user "hello") sampleGeminiConfig) as Hacc.
  { unfold accepted. split; [left; reflexivity|]. repeat split; reflexivity. }
  split; [exact Hacc|].
  eapply (gemini_transport_error_is_one_message
           (sampleGemini (Rejected (ErrorObject "fetch failed"))) noOthers
           (scriptedEnv (Resolved "S") silent silent) "node-1" (sampleAgent [Chat] None)
           (sampleWorld (earlier 2) false (nbsp +:+ "hello"))
           (plainMessage "msg-1700000000000" user "hello") sampleGeminiConfig
           _
           (ErrorObject "fetch failed")).
  - exact Hacc.
  - reflexivity.
  - intros hc H. discriminate H.
  - reflexivity.
  - reflexivity.
Defined.

(** ** When the Gemini service throws *)

Lemma functionCallParts_resolves G tcs :
  (exists ps, geminiService.functionCallParts G tcs = Resolved ps)
  <-> forallb (fun tc => parses G (callArguments tc)) tcs = true.
Proof.
  induction tcs as [|tc rest IH]; cbn [geminiService.functionCallParts forallb].
  - split; [done|by eexists].
  - unfold parses at 1. destruct (JSON_parse G (callArguments tc)) as [v|e].
    + cbn [andb]. rewrite <- IH.
      destruct (geminiService.functionCallParts G rest) as [ps|e].
      * split; intros _; by eexists.
      * split; intros (ps & H); discriminate H.
    + cbn [andb]. split; [intros (ps & H); discriminate H|done].
Qed.

Lemma formatMessage_resolves G msg :
  (exists cs, geminiService.formatMessage G msg = Resolved cs) <-> formattable G msg = true.
Proof.
  unfold geminiService.formatMessage, formattable.
  destruct (sender msg).
  - split; [done|by eexists].
  - destruct (toolCalls msg) as [[|tc tcs]|].
    + split; [done|]. intros _. destruct (truthy (text msg)); by eexists.
    + rewrite <- functionCallParts_resolves.
      destruct (geminiService.functionCallParts G (tc :: tcs)) as [ps|e].
      * split; intros _; by eexists.
      * split; intros (x & H); discriminate H.
    + split; [done|]. intros _. destruct (truthy (text msg)); by eexists.
  - destruct (toolName msg) as [name|].
    + destruct (truthy name); cbn [negb orb].
      * unfold parses. destruct (JSON_parse G (text msg)) as [v|e].
        -- split; [done|by eexists].
        -- split; [intros (x & H); discriminate H|done].
      * split; [done|by eexists].
    + split; [done|by eexists].
Qed.

Lemma formatHistory_resolves G history :
  (exists cs, geminiService.formatHistory G history = Resolved cs)
  <-> forallb (formattable G) history = true.
Proof.
  induction history as [|msg rest IH]; cbn [geminiService.formatHistory forallb].
  - split; [done|by eexists].
  - rewrite andb_true_iff, <- IH, <- formatMessage_resolves.
    destruct (geminiService.formatMessage G msg) as [cs|e].
    + destruct (geminiService.formatHistory G rest) as [cs'|e].
      * split; [intros _; split; by eexists|intros _; by eexists].
      * split; [intros (x & H); discriminate H|intros [_ (x & H)]; discriminate H].
    + split; [intros (x & H); discriminate H|intros [(x & H) _]; discriminate H].
Qed.

(** X10.  The two entry points of the Gemini service format the history
    before their [try]: the generator of [generateContentStream] ends without
    an exception, and the promise of [generateContent] resolves, exactly when
    [JSON.parse] returns on the arguments of every tool call of the agent
    messages and on the text of every tool result that has a tool name; on
    every other history they throw, whatever the SDK answers. *)
Theorem gemini_throws_iff_history_unparsable (G : GeminiEnv) (K : GeminiSdk)
    (key mdl sys : string) (history : list ChatMessage) (tls : list Tool)
    (oc : option OutputConfig) :
  (failure (geminiService.generateContentStream G key mdl sys history tls oc) = None
   <-> forallb (formattable G) history = true)
  /\ ((exists txt, geminiService.generateContent G K key mdl sys history tls oc = Resolved txt)
      <-> forallb (formattable G) history = true).
Proof.
  rewrite <- formatHistory_resolves.
  unfold geminiService.generateContentStream, geminiService.generateContent.
  destruct (geminiService.formatHistory G history) as [cs|e]; split.
  - split; [intros _; by eexists|intros _].
    by destruct (ai_generateContentStream G _).
  - split; [intros _; by eexists|intros _].
    destruct (ai_generateContent K _); by eexists.
  - split; [intros H; discriminate H|intros (x & H); discriminate H].
  - split; intros (x & H); discriminate H.
Qed.

(** ** A summary that cannot be obtained *)

Lemma findConfig_provider cs p sc : findConfig cs p = Some sc -> provider sc = p.
Proof.
  unfold findConfig. intros H. apply find_some in H as [_ H].
  by apply bool_decide_eq_true in H.
Qed.

(** X11.  With Gemini as the provider of the history policy, a compaction
    that is due never fails the turn: the summary call, through the
    dispatcher and the Gemini service, always resolves, and the session
    becomes the summary message followed by the user message.  When the SDK
    rejects the call, the text of the failure is what is stored as the summary
    of the history. *)
Theorem gemini_summary_failure_becomes_summary (G : GeminiEnv) (K : GeminiSdk)
    (streams : LLMProvider -> BackendStream) (completions : LLMProvider -> BackendComplete)
    (E : Env) (nodeId : string) (a : Agent) (w : World) (um : ChatMessage)
    (hc : HistoryConfig) (sc : LLMConfig) :
  let E' := dispatchedAll G K streams completions E in
  let request :=
    ChatRequest
      (geminiService.requestOf (historyModel hc) (historySystemPrompt hc)
         [{| role := "user";
             parts := [TextPart (summarizationPrompt E (getSession w nodeId ++ [um]))] |}]
         None None) in
  historyConfig a = Some hc ->
  historyEnabled hc = true ->
  getSession w nodeId <> [] ->
  anyCounterMet E (limits hc) (getSession w nodeId ++ [um]) ->
  historyProvider hc = Gemini ->
  findConfig (llmConfigs (store w)) Gemini = Some sc ->
  exists summary w1,
    manageHistory E' nodeId (llmConfigs (store w)) a (getSession w nodeId) um
      (begun nodeId um w)
    = Returns [summaryMessageOf (Date_now E (S (S (S (clock w))))) summary; um] w1
    /\ getSession w1 nodeId
       = [summaryMessageOf (Date_now E (S (S (S (clock w))))) summary; um]
    /\ (forall err, ai_generateContent K request = Rejected err ->
                    summary = "Error: Could not get a response from Gemini. "
                              +:+ errorText err)
    /\ (forall response, ai_generateContent K request = Resolved response ->
                         summary = renderedText (sdkText response)).
Proof.
  intros E' request Hhc Hen Hne Hmet Hp Hsc.
  assert (provider sc = Gemini) as Hsp by (by apply findConfig_provider in Hsc).
  rewrite (manageHistory_due E' nodeId (llmConfigs (store w)) a hc (getSession w nodeId) um
             Hhc Hen Hne Hmet).
  rewrite <- Hp in Hsc. rewrite (summarize_resolved _ _ _ _ _ _ _ _ Hsc). cbn zeta.
  change (clock (begun nodeId um w)) with (S (clock w)).
  change (llm_generateContent E' (S (S (clock w))) (provider sc) (apiKey sc)
            (historyModel hc) (historySystemPrompt hc)
            [plainMessage
               (stamped "msg-summary-prompt-" (Date_now E' (S (clock w))) EmptyString) user
               (summarizationPrompt E' (getSession w nodeId ++ [um]))])
    with (match llmService.generateContent G K completions (provider sc) (apiKey sc)
                  (historyModel hc) (historySystemPrompt hc)
                  [plainMessage
                     (stamped "msg-summary-prompt-" (Date_now E (S (clock w))) EmptyString)
                     user (summarizationPrompt E (getSession w nodeId ++ [um]))]
                  [] None EmptyString with
          | Resolved txt => Resolved (renderedText txt)
          | Rejected e => Rejected e
          end).
  rewrite Hsp.
  change (llmService.generateContent G K completions Gemini (apiKey sc) (historyModel hc)
            (historySystemPrompt hc)
            [plainMessage
               (stamped "msg-summary-prompt-" (Date_now E (S (clock w))) EmptyString) user
               (summarizationPrompt E (getSession w nodeId ++ [um]))] [] None EmptyString)
    with (match ai_generateContent K request with
          | Resolved response => Resolved (sdkText response)
          | Rejected error =>
              @Resolved (option string)
                (Some ("Error: Could not get a response from Gemini. " +:+ errorText error))
          end).
  destruct (ai_generateContent K request) as [response|err].
  - eexists _, _. split; [reflexivity|]. split.
    + unfold getSession. cbn. by autorewrite with store.
    + split; [intros err H; discriminate H|by intros r [= <-]].
  - eexists _, _. split; [reflexivity|]. split.
    + unfold getSession. cbn. by autorewrite with store.
    + split; [by intros e [= <-]|intros r H; discriminate H].
Qed.

Lemma gemini_summary_failure_witness :
  let G := sampleGemini (Resolved {| sdkChunks := []; sdkFailure := None |}) in
  let K := sampleSdk (Rejected (ErrorObject "quota exceeded")) in
  let E := scriptedEnv (Resolved "unused") silent silent in
  let E' := dispatchedAll G K noOthers noCompletions E in
  let hc := samplePolicy Gemini 5 in
  let a := sampleAgent [Chat] (Some hc) in
  let w := sampleWorld (earlier 5) false "sixth" in
  let um := plainMessage "msg-1700000000000" user "sixth" in
  anyCounterMet E (limits hc) (getSession w "node-1" ++ [um])
  /\ exists summary w1,
       manageHistory E' "node-1" (llmConfigs (store w)) a (getSession w "node-1") um
         (begun "node-1" um w)
       = Returns [summaryMessageOf (Date_now E 3) summary; um] w1
       /\ getSession w1 "node-1" = [summaryMessageOf (Date_now E 3) summary; um]
       /\ summary = "Error: Could not get a response from Gemini. quota exceeded".
Proof.
  split; [right; right; right; vm_compute; lia|].
  destruct (gemini_summary_failure_becomes_summary
              (sampleGemini (Resolved {| sdkChunks := []; sdkFailure := None |}))
              (sampleSdk (Rejected (ErrorObject "quota exceeded"))) noOthers noCompletions
              (scriptedEnv (Resolved "unused") silent silent) "node-1"
              (sampleAgent [Chat] (Some (samplePolicy Gemini 5)))
              (sampleWorld (earlier 5) false "sixth")
              (plainMessage "msg-1700000000000" user "sixth")
              (samplePolicy Gemini 5) sampleGeminiConfig)
    as (summary & w1 & Hrun & Hs & Herr & _).
  - reflexivity.
  - reflexivity.
  - vm_compute. discriminate.
  - right; right; right. vm_compute. lia.
  - reflexivity.
  - reflexivity.
  - exists summary, w1. split; [exact Hrun|]. split; [exact Hs|].
    apply (Herr (ErrorObject "quota exceeded")). reflexivity.
Defined.

(** ** The increments of the Gemini service *)

Lemma toolCallsOf_calls G fcs : forall i,
  map callName (geminiService.toolCallsOf G i fcs) = map fcName fcs
  /\ map callArguments (geminiService.toolCallsOf G i fcs) = map fcArgs fcs.
Proof.
  induction fcs as [|fc rest IH]; intros i; [done|].
  cbn [geminiService.toolCallsOf map callName callArguments].
  destruct (IH (S i)) as [-> ->]. done.
Qed.

(** X12.  Whatever the SDK streams, the increments the Gemini service
    yields are the chunks that come before the first chunk with function
    calls, each passed on as it is (no error, no tool calls), followed by at
    most one last increment: the tool calls of that first chunk, one per
    function call, with its name and its arguments, in order, after which
    nothing of the stream is read; or, when no chunk has function calls and
    the stream of the SDK throws, the error increment of the [catch]. *)
Theorem gemini_tool_calls_end_the_stream (G : GeminiEnv) (chunks : list GeminiChunk)
    (ending : option JsThrown) :
  exists before tail,
    geminiService.relay G chunks ending = map passedOn before ++ tail
    /\ Forall withoutFunctionCalls before
    /\ Forall plainIncrement (map passedOn before)
    /\ ((chunks = before /\ ending = None /\ tail = [])
        \/ (exists c fcs tcs rest,
              chunks = before ++ c :: rest
              /\ functionCalls c = Some fcs /\ fcs <> []
              /\ tail = [toolCallsChunk tcs]
              /\ map callName tcs = map fcName fcs
              /\ map callArguments tcs = map fcArgs fcs)
        \/ (exists e, chunks = before /\ ending = Some e
                      /\ tail = [geminiService.caughtChunk e])).
Proof.
  induction chunks as [|chunk rest IH].
  - exists []. cbn [geminiService.relay map app]. destruct ending as [e|].
    + exists [geminiService.caughtChunk e]. split; [done|].
      split; [constructor|]. split; [constructor|]. right; right. by exists e.
    + exists []. split; [done|]. split; [constructor|]. split; [constructor|]. by left.
  - cbn [geminiService.relay].
    destruct IH as (before & tail & Hrun & Hbefore & Hplain & Htail).
    assert (withoutFunctionCalls chunk ->
            exists before' tail',
              passedOn chunk :: geminiService.relay G rest ending
              = map passedOn before' ++ tail'
              /\ Forall withoutFunctionCalls before'
              /\ Forall plainIncrement (map passedOn before')
              /\ ((chunk :: rest = before' /\ ending = None /\ tail' = [])
                  \/ (exists c fcs tcs rest',
                        chunk :: rest = before' ++ c :: rest'
                        /\ functionCalls c = Some fcs /\ fcs <> []
                        /\ tail' = [toolCallsChunk tcs]
                        /\ map callName tcs = map fcName fcs
                        /\ map callArguments tcs = map fcArgs fcs)
                  \/ (exists e, chunk :: rest = before' /\ ending = Some e
                                /\ tail' = [geminiService.caughtChunk e]))) as Hstep.
    { intros Hchunk. exists (chunk :: before), tail. rewrite Hrun.
      split; [done|]. split; [by constructor|].
      split; [by constructor|].
      destruct Htail as [(-> & -> & ->)|[(c & fcs & tcs & rest' & -> & Hfc & Hne & Ht & Hn & Ha)|
                                        (e & -> & -> & ->)]].
      - by left.
      - right; left. by exists c, fcs, tcs, rest'.
      - right; right. by exists e. }
    destruct (functionCalls chunk) as [[|fc fcs]|] eqn:Hfc.
    + apply Hstep. by right.
    + exists [], [toolCallsChunk (geminiService.toolCallsOf G 0 (fc :: fcs))].
      split; [done|]. split; [constructor|]. split; [constructor|]. right; left.
      exists chunk, (fc :: fcs), (geminiService.toolCallsOf G 0 (fc :: fcs)), rest.
      split; [done|]. split; [exact Hfc|]. split; [done|]. split; [done|].
      apply toolCallsOf_calls.
    + apply Hstep. by left.
Qed.

(** ** Searching with Gemini *)

Lemma citationOf_linked chunk :
  negb (bool_decide (citationUri (geminiService.citationOf chunk) = "#")) = linked chunk.
Proof.
  unfold geminiService.citationOf, linked, orElse. cbn [citationUri].
  destruct (chunkWebUri chunk) as [u|]; [|reflexivity].
  by destruct (truthy u).
Qed.

Lemma citationOf_usable chunk : linked chunk = true -> usable (geminiService.citationOf chunk).
Proof.
  unfold linked, usable, geminiService.citationOf, orElse. cbn [citationTitle citationUri].
  destruct (chunkWebUri chunk) as [u|]; [|done].
  intros [Hu Hne]%andb_true_iff. rewrite Hu.
  apply negb_true_iff, bool_decide_eq_false in Hne.
  split; [|done].
  destruct (chunkWebTitle chunk) as [s|]; [|done].
  by destruct (truthy s) eqn:Hs.
Qed.

Lemma filter_map_citations chunks :
  List.filter (fun c => negb (bool_decide (citationUri c = "#")))
    (map geminiService.citationOf chunks)
  = map geminiService.citationOf (List.filter linked chunks).
Proof.
  induction chunks as [|chunk rest IH]; [done|].
  cbn [map List.filter]. rewrite citationOf_linked, IH.
  by destruct (linked chunk).
Qed.

(** X13.  [generateContentWithSearch] of the Gemini service always returns
    a result.  Its citations are those of the grounding chunks of the response
    whose link is neither absent, nor empty, nor the placeholder [#], in the
    order of the chunks; each one has a link that is not empty and a title
    that is not empty ([Source] for a chunk without one).  When the SDK rejects
    the call, the result has the text of the failure and no citation. *)
Theorem search_citations_are_usable (K : GeminiSdk) (key mdl prompt sys : string) :
  let request := SearchRequest mdl prompt (if truthy sys then Some sys else None) in
  let result := geminiService.generateContentWithSearch K key mdl prompt sys in
  Forall usable (citations result)
  /\ (forall response,
        ai_generateContent K request = Resolved response ->
        searchText result = sdkText response
        /\ citations result
           = map geminiService.citationOf
               (List.filter linked (default [] (sdkGroundingChunks response))))
  /\ (forall err,
        ai_generateContent K request = Rejected err ->
        searchText result
        = Some ("Error: Could not get a response from Gemini. " +:+ errorText err)
        /\ citations result = []).
Proof.
  intros request result. unfold result, geminiService.generateContentWithSearch.
  fold request. destruct (ai_generateContent K request) as [response|err].
  - cbn [citations searchText]. rewrite filter_map_citations. split; [|split].
    + apply Forall_forall. intros c Hc.
      apply list_elem_of_fmap in Hc as (chunk & -> & Hin).
      apply filter_elem_of in Hin as [_ Hl]. by apply citationOf_usable.
    + by intros r [= <-].
    + intros e H. discriminate H.
  - cbn [citations searchText]. split; [constructor|]. split.
    + intros r H. discriminate H.
    + by intros e [= <-].
Qed.

(** ** Grounding through the dispatcher *)

(** X14.  For Gemini, [generateContentWithMaps] of the dispatcher always
    returns a result, with the text of the search and at most five map
    sources: one for each of the first five citations of the search, in order,
    with the link and the title of the citation, the id [place-] followed by
    its index, and no review excerpt.  The location of the user is not read.
    For a provider other than Gemini and Arc-LLM the result is an error text
    that names the provider, without a source. *)
Theorem maps_grounding_sources (K : GeminiSdk) (B : Browser)
    (key mdl prompt sys : string) (location : option Location) :
  let found := geminiService.generateContentWithSearch K key mdl prompt sys in
  let answer := llmService.generateContentWithMaps K B Gemini key mdl prompt sys location in
  mapsText answer = searchText found
  /\ length (mapSources answer) = length (citations found) `min` 5
  /\ (forall i c,
        citations found !! i = Some c -> i < 5 ->
        exists s,
          mapSources answer !! i = Some s
          /\ mapUri s = citationUri c /\ placeTitle s = citationTitle c
          /\ placeId s = "place-" +:+ pretty i /\ reviewExcerpts s = [])
  /\ (forall other,
        llmService.generateContentWithMaps K B Gemini key mdl prompt sys other = answer)
  /\ (forall p,
        p <> Gemini -> p <> ArcLLM ->
        llmService.generateContentWithMaps K B p key mdl prompt sys location
        = {| mapsText := Some ("Error: Maps Grounding not supported by " +:+ providerText p);
             mapSources := [] |}).
Proof.
  intros found answer. unfold answer, llmService.generateContentWithMaps.
  cbn [bool_decide decide_rel]. rewrite !bool_decide_eq_true_2 by reflexivity.
  fold found. cbn [mapsText mapSources].
  split; [reflexivity|]. split.
  { rewrite length_imap, length_take. lia. }
  split.
  { intros i c Hc Hi. eexists. split.
    - rewrite list_lookup_imap, lookup_take_lt, Hc by exact Hi. reflexivity.
    - by repeat split. }
  split; [reflexivity|].
  intros p Hg Ha. by rewrite !bool_decide_eq_false_2.
Qed.

Lemma search_citations_usable_aux K key mdl prompt sys :
  Forall usable (citations (geminiService.generateContentWithSearch K key mdl prompt sys)).
Proof.
  unfold geminiService.generateContentWithSearch.
  destruct (ai_generateContent K _) as [response|err]; cbn [citations]; [|constructor].
  rewrite filter_map_citations. apply Forall_forall. intros c Hc.
  apply list_elem_of_fmap in Hc as (chunk & -> & Hin).
  apply filter_elem_of in Hin as [_ Hl]. by apply citationOf_usable.
Qed.

(** X15.  For Gemini, [generateContentWithWebSearchGrounding] of the
    dispatcher always returns a result, with the text of the search and one
    web source for every citation of the search, in order: its link and its
    title are those of the citation, so neither is empty and the link is not
    the placeholder, and its snippet is empty.  For a provider other than
    Gemini and Arc-LLM the result is an error text that names the provider,
    without a source. *)
Theorem web_grounding_sources (K : GeminiSdk) (key mdl prompt sys : string) :
  let found := geminiService.generateContentWithSearch K key mdl prompt sys in
  let answer := llmService.generateContentWithWebSearchGrounding K Gemini key mdl prompt sys in
  webText answer = searchText found
  /\ map (fun s => (webUri s, webTitle s)) (webSources answer)
     = map (fun c => (citationUri c, citationTitle c)) (citations found)
  /\ Forall (fun s => truthy (webUri s) = true /\ webUri s <> "#"
                      /\ truthy (webTitle s) = true /\ snippet s = EmptyString)
            (webSources answer)
  /\ (forall p,
        p <> Gemini -> p <> ArcLLM ->
        llmService.generateContentWithWebSearchGrounding K p key mdl prompt sys
        = {| webText := Some ("Error: Web Search Grounding not supported by "
                              +:+ providerText p);
             webSources := [] |}).
Proof.
  intros found answer. unfold answer, llmService.generateContentWithWebSearchGrounding.
  rewrite !bool_decide_eq_true_2 by reflexivity. fold found. cbn [webText webSources].
  split; [reflexivity|]. split.
  { rewrite map_map. reflexivity. }
  split.
  { pose proof (search_citations_usable_aux K key mdl prompt sys) as Hall. fold found in Hall.
    apply Forall_forall. intros s Hs. apply list_elem_of_fmap in Hs as (c & -> & Hc).
    rewrite Forall_forall in Hall. destruct (Hall c Hc) as (Ht & Hu & Hne).
    by repeat split. }
  intros p Hg Ha. by rewrite !bool_decide_eq_false_2.
Qed.

Lemma search_citations_witness :
  let K := sampleSdk (Resolved (groundedResponse "Paris news" sampleChunks)) in
  map (fun c => (citationTitle c, citationUri c))
    (citations (geminiService.generateContentWithSearch K "k" "gemini-2.5-flash" "news"
                  EmptyString))
  = [("Le Monde", "https://lemonde.fr"); ("Source", "https://example.org");
     ("Three", "https://three.example"); ("Four", "https://four.example");
     ("Five", "https://five.example"); ("Six", "https://six.example")].
Proof.
  destruct (search_citations_are_usable
              (sampleSdk (Resolved (groundedResponse "Paris news" sampleChunks)))
              "k" "gemini-2.5-flash" "news" EmptyString) as (_ & Hresolved & _).
  destruct (Hresolved (groundedResponse "Paris news" sampleChunks)) as [_ Hc];
    [reflexivity|].
  cbv zeta. rewrite Hc. reflexivity.
Defined.

Lemma maps_grounding_witness :
  let K := sampleSdk (Resolved (groundedResponse "Paris news" sampleChunks)) in
  let answer :=
    llmService.generateContentWithMaps K (sampleBrowser None) Gemini "k" "gemini-2.5-flash"
      "news" EmptyString None in
  length (mapSources answer) = 5
  /\ (exists s, mapSources answer !! 4 = Some s
                /\ mapUri s = "https://five.example" /\ placeTitle s = "Five"
                /\ placeId s = "place-4" /\ reviewExcerpts s = [])
  /\ llmService.generateContentWithMaps K (sampleBrowser None) OpenAI "k" "gpt-4o" "news"
       EmptyString None
     = {| mapsText := Some ("Error: Maps Grounding not supported by " +:+ providerText OpenAI);
          mapSources := [] |}.
Proof.
  destruct (maps_grounding_sources
              (sampleSdk (Resolved (groundedResponse "Paris news" sampleChunks)))
              (sampleBrowser None) "k" "gemini-2.5-flash" "news" EmptyString None)
    as (_ & Hlen & Hnth & _ & _).
  destruct (maps_grounding_sources
              (sampleSdk (Resolved (groundedResponse "Paris news" sampleChunks)))
              (sampleBrowser None) "k" "gpt-4o" "news" EmptyString None)
    as (_ & _ & _ & _ & Hother).
  cbv zeta. split; [exact Hlen|]. split.
  - apply (Hnth 4 {| citationTitle := "Five"; citationUri := "https://five.example" |});
      [reflexivity|lia].
  - apply Hother; discriminate.
Defined.

Lemma web_grounding_witness :
  let K := sampleSdk (Resolved (groundedResponse "Paris news" sampleChunks)) in
  llmService.generateContentWithWebSearchGrounding K Mistral "k" "mistral-large" "news"
    EmptyString
  = {| webText := Some ("Error: Web Search Grounding not supported by "
                        +:+ providerText Mistral);
       webSources := [] |}.
Proof.
  destruct (web_grounding_sources
              (sampleSdk (Resolved (groundedResponse "Paris news" sampleChunks)))
              "k" "mistral-large" "news" EmptyString) as (_ & _ & _ & Hother).
  apply Hother; discriminate.
Defined.

(** ** The validators of Arc-LLM *)

Lemma truthy_nonempty s : truthy s = true <-> s <> EmptyString.
Proof. by destruct s. Qed.

Lemma notAllowed_false g tool :
  arcLLMService.notAllowed g tool = false <-> allowedWith g tool.
Proof.
  unfold arcLLMService.notAllowed, allowedWith. rewrite negb_false_iff.
  apply bool_decide_eq_true.
Qed.

Lemma existsb_notAllowed_false g tls :
  existsb (arcLLMService.notAllowed g) tls = false <-> Forall (allowedWith g) tls.
Proof.
  induction tls as [|tool rest IH]; cbn [existsb].
  - split; [constructor|done].
  - rewrite orb_false_iff, IH, notAllowed_false, Forall_cons. tauto.
Qed.

Lemma find_notAllowed_first g pre tool post :
  Forall (allowedWith g) pre -> ~ allowedWith g tool ->
  List.find (arcLLMService.notAllowed g) (pre ++ tool :: post) = Some tool.
Proof.
  intros Hpre Hbad. induction Hpre as [|t0 pre H0 _ IH]; cbn [app List.find].
  - destruct (arcLLMService.notAllowed g tool) eqn:Hn; [done|].
    by apply notAllowed_false in Hn.
  - by rewrite (proj2 (notAllowed_false g t0) H0).
Qed.

(** X16.  The validator of a grounding request of Arc-LLM accepts a request
    exactly when its output configuration asks for no format and every one of
    its tools is among the two the grounding type may coexist with; a refused
    request, and only a refused one, carries an error; when the output is not
    formatted, the error names the first tool, in the order of the request,
    that the grounding type does not allow. *)
Theorem grounding_request_valid_iff (g : GroundingType) (tls : list Tool)
    (oc : option OutputConfig) :
  let v := arcLLMService.validateGroundingRequest g tls oc in
  (valid v = true <-> unformatted oc /\ Forall (allowedWith g) tls)
  /\ (valid v = false <-> is_Some (validationError v))
  /\ (forall pre tool post,
        unformatted oc -> tls = pre ++ tool :: post ->
        Forall (allowedWith g) pre -> ~ allowedWith g tool ->
        validationError v
        = Some ("Arc-LLM " +:+ groundingText g
                +:+ " grounding cannot coexist with custom tool: " +:+ toolDeclName tool)).
Proof.
  intros v. unfold v, arcLLMService.validateGroundingRequest, unformatted.
  destruct oc as [o|].
  - destruct (outputEnabled o) eqn:Hen; cbn [andb].
    + assert (~ (forall o0, Some o = Some o0 -> outputEnabled o0 = false)) as Hno.
      { intros H. specialize (H o eq_refl). congruence. }
      destruct (bool_decide (outputFormat o = "json")); cbn [negb];
        (split; [split; [done|tauto]|]);
        (split; [split; [by eexists|done]|]);
        intros pre tool post Hu; by destruct Hno.
    + destruct ((0 <? length tls)%nat && existsb (arcLLMService.notAllowed g) tls) eqn:Hbad.
      * apply andb_true_iff in Hbad as [_ Hex].
        split; [split; [done|]|].
        { intros [_ Hall]. apply existsb_notAllowed_false in Hall. congruence. }
        split; [split; [by eexists|done]|].
        intros pre tool post _ -> Hpre Htool.
        by rewrite (find_notAllowed_first g pre tool post Hpre Htool).
      * assert (existsb (arcLLMService.notAllowed g) tls = false) as Hex.
        { destruct tls; [done|]. exact Hbad. }
        apply existsb_notAllowed_false in Hex.
        split; [split; [intros _; split; [by intros o0 [= <-]|exact Hex]|done]|].
        split; [split; [done|by intros [x Hx]]|].
        intros pre tool post _ -> Hpre Htool.
        apply Forall_app in Hex as [_ Hex]. by apply Forall_cons in Hex as [Hex _].
  - cbn [andb].
    destruct ((0 <? length tls)%nat && existsb (arcLLMService.notAllowed g) tls) eqn:Hbad.
    + apply andb_true_iff in Hbad as [_ Hex].
      split; [split; [done|]|].
      { intros [_ Hall]. apply existsb_notAllowed_false in Hall. congruence. }
      split; [split; [by eexists|done]|].
      intros pre tool post _ -> Hpre Htool.
      by rewrite (find_notAllowed_first g pre tool post Hpre Htool).
    + assert (existsb (arcLLMService.notAllowed g) tls = false) as Hex.
      { destruct tls; [done|]. exact Hbad. }
      apply existsb_notAllowed_false in Hex.
      split; [split; [intros _; split; [done|exact Hex]|done]|].
      split; [split; [done|by intros [x Hx]]|].
      intros pre tool post _ -> Hpre Htool.
      apply Forall_app in Hex as [_ Hex]. by apply Forall_cons in Hex as [Hex _].
Qed.

Lemma grounding_request_witness :
  let tool name := {| toolDeclName := name; toolDescription := EmptyString;
                      toolParameters := "{}" |} in
  let tls := [tool "webSearch"; tool "calculator"; tool "weather"] in
  valid (arcLLMService.validateGroundingRequest maps [tool "webSearch"] None) = true
  /\ validationError (arcLLMService.validateGroundingRequest maps tls None)
     = Some "Arc-LLM maps grounding cannot coexist with custom tool: calculator".
Proof.
  cbv zeta. split.
  - apply (proj1 (grounding_request_valid_iff maps
                    [{| toolDeclName := "webSearch"; toolDescription := EmptyString;
                        toolParameters := "{}" |}] None)).
    split; [intros o H; discriminate H|]. repeat constructor.
  - apply (proj2 (proj2 (grounding_request_valid_iff maps
                           [{| toolDeclName := "webSearch"; toolDescription := EmptyString;
                               toolParameters := "{}" |};
                            {| toolDeclName := "calculator"; toolDescription := EmptyString;
                               toolParameters := "{}" |};
                            {| toolDeclName := "weather"; toolDescription := EmptyString;
                               toolParameters := "{}" |}] None))
             [{| toolDeclName := "webSearch"; toolDescription := EmptyString;
                 toolParameters := "{}" |}]
             {| toolDeclName := "calculator"; toolDescription := EmptyString;
                toolParameters := "{}" |}
             [{| toolDeclName := "weather"; toolDescription := EmptyString;
                 toolParameters := "{}" |}]).
    + intros o H; discriminate H.
    + reflexivity.
    + repeat constructor.
    + unfold allowedWith.
      apply (proj1 (bool_decide_eq_false ("calculator" ∈ ["webSearch"; "googleWebSearch"]))).
      vm_compute. reflexivity.
Defined.

Lemma malformed_false img : arcLLMService.malformed img = false <-> wellFormed img.
Proof.
  unfold arcLLMService.malformed, wellFormed.
  rewrite orb_false_iff, !negb_false_iff.
  destruct (refMimeType img) as [m|], (refData img) as [d|]; simpl.
  - rewrite !truthy_nonempty. split.
    + intros [Hm Hd]. by exists m, d.
    + by intros (m' & d' & [= <-] & [= <-] & Hm & Hd).
  - split; [by intros [_ H]|]. by intros (m' & d' & _ & H & _).
  - split; [by intros [H _]|]. by intros (m' & d' & H & _).
  - split; [by intros [H _]|]. by intros (m' & d' & H & _).
Qed.

Lemma existsb_malformed_false refs :
  existsb arcLLMService.malformed refs = false <-> Forall wellFormed refs.
Proof.
  induction refs as [|img rest IH]; cbn [existsb].
  - split; [constructor|done].
  - rewrite orb_false_iff, IH, malformed_false, Forall_cons. tauto.
Qed.

Lemma length_zero_empty s : Nat.eqb (String.length s) 0 = false <-> s <> EmptyString.
Proof. by destruct s. Qed.

Lemma blank_prompt_false p :
  negb (truthy p) || Nat.eqb (String.length (trim p)) 0 = false <-> trim p <> EmptyString.
Proof.
  rewrite orb_false_iff, negb_false_iff, length_zero_empty. split; [tauto|].
  intros H. split; [|exact H]. destruct p; [done|reflexivity].
Qed.

Lemma validateVideoRequest_valid options :
  valid (arcLLMService.validateVideoRequest options) = true <-> acceptableVideo options.
Proof.
  unfold arcLLMService.validateVideoRequest, acceptableVideo.
  destruct (negb (truthy (optPrompt options))
            || Nat.eqb (String.length (trim (optPrompt options))) 0) eqn:Hp.
  - split; [done|]. intros [H _]. apply blank_prompt_false in H. congruence.
  - apply blank_prompt_false in Hp.
    destruct (optReferenceImages options) as [refs|].
    + destruct (3 <? length refs)%nat eqn:Hlen.
      * apply Nat.ltb_lt in Hlen. split; [done|].
        intros [_ H]. destruct (H refs eq_refl) as [Hl _]. lia.
      * apply Nat.ltb_ge in Hlen.
        destruct (existsb arcLLMService.malformed refs) eqn:Hm.
        -- split; [done|]. intros [_ H]. destruct (H refs eq_refl) as [_ Hw].
           apply existsb_malformed_false in Hw. congruence.
        -- apply existsb_malformed_false in Hm. split; [intros _|done].
           split; [exact Hp|]. by intros r [= <-].
    + split; [intros _|done]. split; [exact Hp|]. intros r H. discriminate H.
Qed.

Lemma validateVideoRequest_error options :
  valid (arcLLMService.validateVideoRequest options) = false ->
  is_Some (validationError (arcLLMService.validateVideoRequest options)).
Proof.
  unfold arcLLMService.validateVideoRequest.
  destruct (_ || _); [by eexists|].
  destruct (optReferenceImages options) as [refs|]; [|done].
  destruct (3 <? length refs)%nat; [by eexists|].
  destruct (existsb _ _); [by eexists|done].
Qed.

Lemma hasSelectedApiKey_true B : arcLLMService.hasSelectedApiKey B = true <-> keyStored B.
Proof.
  unfold arcLLMService.hasSelectedApiKey, keyStored.
  destruct (localStorage_getItem B "arc_llm_api_key") as [k|].
  - destruct k as [|c k]; cbn.
    + split; [done|]. by intros (k' & [= <-] & H).
    + split; [intros _; by eexists|done].
  - split; [done|]. by intros (k' & H & _).
Qed.

(** X17.  [generateVideo] of the Arc-LLM service starts a generation
    exactly when the prompt is not blank, the reference images, if any, are at
    most three and each has a MIME type and data at its top level, and a key
    of Arc-LLM is stored in the browser; the key it is called with is not
    read.  Otherwise nothing starts: the status is [FAILED], the operation id
    is empty and an error is given.  A started generation has the status
    [PROCESSING], no progress yet and an operation id. *)
Theorem arc_video_starts_iff (B : Browser) (key : string)
    (options : VideoGenerationOptions) :
  let st := arcLLMService.generateVideo B key options in
  (videoStatus st = PROCESSING <-> acceptableVideo options /\ keyStored B)
  /\ (videoStatus st = PROCESSING ->
      videoProgress st = Some 0%Z /\ videoError st = None
      /\ operationId st = Some ("arc-video-" +:+ pretty (browser_now B) +:+ "-"
                                +:+ randomSuffix B))
  /\ (videoStatus st <> PROCESSING -> notStarted st)
  /\ (forall other, arcLLMService.generateVideo B other options = st).
Proof.
  intros st. unfold st, arcLLMService.generateVideo, notStarted.
  rewrite <- validateVideoRequest_valid, <- hasSelectedApiKey_true.
  pose proof (validateVideoRequest_error options) as Herr.
  destruct (valid (arcLLMService.validateVideoRequest options)); cbn [negb].
  - destruct (arcLLMService.hasSelectedApiKey B); cbn [negb videoStatus].
    + split; [done|]. split; [done|]. split; [done|]. done.
    + split; [split; [done|by intros [_ H]]|]. split; [done|].
      split; [|done]. intros _. split; [done|]. split; [done|]. by eexists.
  - cbn [videoStatus]. split; [split; [done|by intros [H _]]|]. split; [done|].
    split; [|done]. intros _. split; [done|]. split; [done|]. by apply Herr.
Qed.

Lemma arc_video_witness :
  let B := sampleBrowser (Some "arc-key") in
  acceptableVideo (promptOnly "A cat on a roof") /\ keyStored B
  /\ videoStatus (arcLLMService.generateVideo B EmptyString (promptOnly "A cat on a roof"))
     = PROCESSING
  /\ notStarted (arcLLMService.generateVideo (sampleBrowser None) "arc-key"
                   (promptOnly "A cat on a roof"))
  /\ notStarted (arcLLMService.generateVideo B "arc-key" (promptOnly (nbsp +:+ " "))).
Proof.
  assert (acceptableVideo (promptOnly "A cat on a roof")) as Hacc.
  { split; [vm_compute; discriminate|]. intros refs H. discriminate H. }
  assert (keyStored (sampleBrowser (Some "arc-key"))) as Hkey.
  { exists "arc-key". split; [reflexivity|discriminate]. }
  split; [exact Hacc|]. split; [exact Hkey|]. split; [|split].
  - apply (proj1 (arc_video_starts_iff (sampleBrowser (Some "arc-key")) EmptyString
                    (promptOnly "A cat on a roof"))).
    by split.
  - apply (proj1 (proj2 (proj2 (arc_video_starts_iff (sampleBrowser None) "arc-key"
                                   (promptOnly "A cat on a roof"))))).
    vm_compute. discriminate.
  - apply (proj1 (proj2 (proj2 (arc_video_starts_iff (sampleBrowser (Some "arc-key"))
                                   "arc-key" (promptOnly (nbsp +:+ " ")))))).
    vm_compute. discriminate.
Defined.

(** ** Videos through the dispatcher *)

Lemma arc_video_starts_iff_aux B key options :
  acceptableVideo options -> keyStored B ->
  videoStatus (arcLLMService.generateVideo B key options) = PROCESSING
  /\ operationId (arcLLMService.generateVideo B key options)
     = Some ("arc-video-" +:+ pretty (browser_now B) +:+ "-" +:+ randomSuffix B).
Proof.
  intros Hacc Hkey. unfold arcLLMService.generateVideo.
  apply validateVideoRequest_valid in Hacc. apply hasSelectedApiKey_true in Hkey.
  by rewrite Hacc, Hkey.
Qed.

(** X18.  Through the dispatcher, the video generation of Arc-LLM can be
    started but never followed: [generateVideo] for Arc-LLM resolves with the
    status of the Arc-LLM service, which may be [PROCESSING] with an operation
    id, while [pollVideoOperation] for Arc-LLM, whatever the operation,
    resolves with [FAILED] and the error that polling is not supported, the
    service exporting its polling function under another name
    ([pollVideoStatus]).  Neither call rejects. *)
Theorem arc_video_is_started_but_never_polled (K : GeminiSdk) (B : Browser)
    (others : LLMProvider -> Extensions) (key : string)
    (options : VideoGenerationOptions) :
  let started := arcLLMService.generateVideo B key options in
  llmService.generateVideo K B others ArcLLM key options = Resolved started
  /\ (acceptableVideo options -> keyStored B ->
      exists operation,
        videoStatus started = PROCESSING /\ operationId started = Some operation
        /\ llmService.pollVideoOperation K B others ArcLLM key operation
           = Resolved (pollingUnsupported ArcLLM operation))
  /\ (forall operation,
        llmService.pollVideoOperation K B others ArcLLM key operation
        = Resolved (pollingUnsupported ArcLLM operation)).
Proof.
  intros started. split; [reflexivity|]. split; [|reflexivity].
  intros Hacc Hkey.
  destruct (arc_video_starts_iff_aux B key options Hacc Hkey) as (Hst & Hid).
  eexists. split; [exact Hst|]. split; [exact Hid|]. reflexivity.
Qed.

Lemma arc_video_poll_witness :
  let K := sampleSdk (Rejected (ErrorObject "unused")) in
  let B := sampleBrowser (Some "arc-key") in
  exists operation,
    videoStatus (arcLLMService.generateVideo B "arc-key" (promptOnly "A cat on a roof"))
    = PROCESSING
    /\ operationId (arcLLMService.generateVideo B "arc-key" (promptOnly "A cat on a roof"))
       = Some operation
    /\ llmService.pollVideoOperation K B noExtensions ArcLLM "arc-key" operation
       = Resolved (pollingUnsupported ArcLLM operation).
Proof.
  apply (proj1 (proj2 (arc_video_is_started_but_never_polled
                         (sampleSdk (Rejected (ErrorObject "unused")))
                         (sampleBrowser (Some "arc-key")) noExtensions "arc-key"
                         (promptOnly "A cat on a roof")))).
  - split; [vm_compute; discriminate|]. intros refs H. discriminate H.
  - exists "arc-key". split; [reflexivity|discriminate].
Defined.

(** ** Images from Gemini *)

Lemma scanParts_image ps : forall modifiedImage responseText data,
  fst (geminiService.scanParts ps modifiedImage responseText) = Some data ->
  data <> EmptyString ->
  modifiedImage = Some data \/ exists part, part ∈ ps /\ imagePart data part.
Proof.
  induction ps as [|part rest IH]; intros mi rt data Hrun Hne; cbn [geminiService.scanParts] in Hrun.
  - by left.
  - destruct (truthy (default EmptyString (partText part))) eqn:Htext.
    + destruct (IH _ _ _ Hrun Hne) as [H|(p & Hin & Hp)]; [by left|].
      right. exists p. split; [by right|exact Hp].
    + destruct (partInlineData part) as [d|] eqn:Hdata.
      * destruct (IH _ _ _ Hrun Hne) as [H|(p & Hin & Hp)].
        -- right. exists part. split; [left|]. subst d. by repeat split.
        -- right. exists p. split; [by right|exact Hp].
      * destruct (IH _ _ _ Hrun Hne) as [H|(p & Hin & Hp)]; [by left|].
        right. exists p. split; [by right|exact Hp].
Qed.

(** X19.  [generateImage] and [editImage] of the Gemini service always
    return a result, and the result holds either an image that is not empty
    and no error, or an error and neither image nor text: never both, never
    neither.  An image returned by [editImage] is the inline data of a part of
    the response that has no text. *)
Theorem image_results_hold_image_or_error (K : GeminiSdk) (key prompt : string)
    (source : ImageData) :
  imageOrError (geminiService.generateImage K key prompt)
  /\ imageOrError (geminiService.editImage K key prompt source)
  /\ (forall data,
        resultImage (geminiService.editImage K key prompt source) = Some data ->
        exists response ps part,
          ai_generateContent K (EditRequest source prompt) = Resolved response
          /\ sdkParts response = Resolved ps
          /\ part ∈ ps /\ imagePart data part).
Proof.
  split; [|split].
  - unfold geminiService.generateImage, imageOrError.
    destruct (ai_generateImages K prompt) as [[bytes|]|err]; cbn.
    + destruct (truthy bytes) eqn:Hb; cbn.
      * left. exists bytes. split; [done|]. split; [by apply truthy_nonempty|done].
      * right. split; [done|]. split; [done|]. by eexists.
    + right. split; [done|]. split; [done|]. by eexists.
    + right. split; [done|]. split; [done|]. by eexists.
  - unfold geminiService.editImage, imageOrError.
    destruct (ai_generateContent K _) as [response|err];
      [|right; split; [done|]; split; [done|]; by eexists].
    destruct (sdkParts response) as [ps|err];
      [|right; split; [done|]; split; [done|]; by eexists].
    destruct (geminiService.scanParts ps None None) as [mi rt].
    destruct mi as [i|]; simpl.
    + destruct (truthy i) eqn:Hi; cbn.
      * left. exists i. split; [done|]. split; [by apply truthy_nonempty|done].
      * right. split; [done|]. split; [done|]. by eexists.
    + right. split; [done|]. split; [done|]. by eexists.
  - intros data. unfold geminiService.editImage.
    destruct (ai_generateContent K _) as [response|err]; [|intros H; discriminate H].
    destruct (sdkParts response) as [ps|err] eqn:Hps; [|intros H; discriminate H].
    destruct (geminiService.scanParts ps None None) as [mi rt] eqn:Hscan.
    destruct mi as [i|]; simpl.
    + destruct (truthy i) eqn:Hi; cbn; [|intros H; discriminate H].
      intros [= ->]. apply truthy_nonempty in Hi.
      destruct (scanParts_image ps None None data) as [H|(part & Hin & Hp)];
        [by rewrite Hscan|exact Hi|discriminate H|].
      by exists response, ps, part.
    + intros H. discriminate H.
Qed.

Lemma image_results_witness :
  let response :=
    {| sdkText := None; sdkGroundingChunks := None;
       sdkParts := Resolved [ {| partText := Some "Here it is."; partInlineData := None |};
                              {| partText := None; partInlineData := Some (Some "aW1n") |} ] |} in
  let K := sampleSdk (Resolved response) in
  let source := {| imageMimeType := "image/png"; imageBytes := "c3Jj" |} in
  resultImage (geminiService.editImage K "k" "make it blue" source) = Some "aW1n"
  /\ exists response ps part,
       ai_generateContent K (EditRequest source "make it blue") = Resolved response
       /\ sdkParts response = Resolved ps /\ part ∈ ps /\ imagePart "aW1n" part.
Proof.
  split; [reflexivity|].
  apply (proj2 (proj2 (image_results_hold_image_or_error
                         (sampleSdk
                            (Resolved
                               {| sdkText := None; sdkGroundingChunks := None;
                                  sdkParts :=
                                    Resolved
                                      [ {| partText := Some "Here it is.";
                                           partInlineData := None |};
                                        {| partText := None;
                                           partInlineData := Some (Some "aW1n") |} ] |}))
                         "k" "make it blue"
                         {| imageMimeType := "image/png"; imageBytes := "c3Jj" |}))).
  reflexivity.
Defined.

(** ** Videos from Gemini *)

Lemma orElse_nonempty a b : b <> EmptyString -> orElse a b <> EmptyString.
Proof.
  intros Hb. unfold orElse. destruct a as [s|]; [|exact Hb].
  destruct (truthy s) eqn:Hs; [by apply truthy_nonempty|exact Hb].
Qed.

Lemma referencesOf_resolves K refs :
  (exists l, geminiService.referencesOf K refs = Resolved l)
  <-> Forall (fun r => is_Some (refImage r)) refs.
Proof.
  induction refs as [|r rest IH]; cbn [geminiService.referencesOf].
  - split; [constructor|by eexists].
  - rewrite Forall_cons, <- IH. destruct (refImage r) as [img|].
    + destruct (geminiService.referencesOf K rest) as [l|e].
      * split; [intros _; split; by eexists|by eexists].
      * split; [intros (l & H); discriminate H|intros [_ (l & H)]; discriminate H].
    + split; [intros (l & H); discriminate H|intros [[x H] _]; discriminate H].
Qed.

Lemma referencesOf_length K refs l :
  geminiService.referencesOf K refs = Resolved l -> length l = length refs.
Proof.
  revert l. induction refs as [|r rest IH]; intros l; cbn [geminiService.referencesOf].
  - by intros [= <-].
  - destruct (refImage r); [|done].
    destruct (geminiService.referencesOf K rest) as [l'|]; [|done].
    intros [= <-]. cbn. by rewrite (IH l').
Qed.

(** X20.  [generateVideo] of the Gemini service always returns a status:
    [PROCESSING], or [FAILED] with an empty operation id and an error.  Its
    request can be built exactly when every reference image has an [image];
    the request then names the model [veo-3.1-generate-preview], carries the
    prompt as given, has an aspect ratio, a resolution and a person generation
    that are not empty and a duration that is not zero (the defaults replace
    what is absent, empty or zero), never a negative prompt that is empty nor
    an empty list of reference images, and a video to extend only in the
    extension mode. *)
Theorem gemini_video_request_shape (K : GeminiSdk) (key : string)
    (options : VideoGenerationOptions) :
  let st := geminiService.generateVideo K key options in
  (videoStatus st = PROCESSING \/ notStarted st)
  /\ ((exists request, geminiService.videoRequestOf K options = Resolved request)
      <-> forall refs, optReferenceImages options = Some refs ->
                       Forall (fun r => is_Some (refImage r)) refs)
  /\ (forall request,
        geminiService.videoRequestOf K options = Resolved request ->
        videoModel request = "veo-3.1-generate-preview"
        /\ videoPrompt request = optPrompt options
        /\ cfgAspectRatio (videoConfig request) <> EmptyString
        /\ cfgResolution (videoConfig request) <> EmptyString
        /\ cfgPersonGeneration (videoConfig request) <> EmptyString
        /\ cfgDurationSeconds (videoConfig request) <> 0%Z
        /\ cfgNegativePrompt (videoConfig request) <> Some EmptyString
        /\ cfgReferenceImages (videoConfig request) <> Some []
        /\ (is_Some (videoVideo request) -> optMode options = Some extension)).
Proof.
  intros st. split; [|split].
  - unfold st, geminiService.generateVideo, notStarted.
    destruct (geminiService.videoRequestOf K options) as [request|err].
    + destruct (ai_generateVideos K request); [by left|].
      right. split; [done|]. split; [done|]. by eexists.
    + right. split; [done|]. split; [done|]. by eexists.
  - unfold geminiService.videoRequestOf.
    destruct (optReferenceImages options) as [[|r refs]|].
    + split; [intros _ refs [= <-]; constructor|by eexists].
    + pose proof (referencesOf_resolves K (r :: refs)) as Hres.
      destruct (geminiService.referencesOf K (r :: refs)) as [l|e].
      * split; [intros _ refs' [= <-]|by eexists]. apply Hres. by eexists.
      * split; [intros (x & H); discriminate H|].
        intros H. apply Hres in H; [|reflexivity]. destruct H as (l & H). discriminate H.
    + split; [intros _ refs H; discriminate H|by eexists].
  - intros request. unfold geminiService.videoRequestOf.
    assert (forall references,
              references <> Some [] ->
              Resolved
                {| videoModel := "veo-3.1-generate-preview";
                   videoPrompt := optPrompt options;
                   videoConfig :=
                     {| cfgAspectRatio := orElse (optAspectRatio options) "16:9";
                        cfgResolution := orElse (optResolution options) "720p";
                        cfgDurationSeconds :=
                          match optDurationSeconds options with
                          | Some d => if bool_decide (d = 0%Z) then 8%Z else d
                          | None => 8%Z
                          end;
                        cfgPersonGeneration := orElse (optPersonGeneration options) "allow_all";
                        cfgNegativePrompt :=
                          match optNegativePrompt options with
                          | Some n => if truthy n then Some n else None
                          | None => None
                          end;
                        cfgSeed := optSeed options;
                        cfgReferenceImages := references;
                        cfgLastFrame := optLastFrame options |};
                   videoImage := optFirstFrame options;
                   videoVideo :=
                     if bool_decide (optMode options = Some extension)
                     then optExistingVideo options
                     else None |} = Resolved request ->
              videoModel request = "veo-3.1-generate-preview"
              /\ videoPrompt request = optPrompt options
              /\ cfgAspectRatio (videoConfig request) <> EmptyString
              /\ cfgResolution (videoConfig request) <> EmptyString
              /\ cfgPersonGeneration (videoConfig request) <> EmptyString
              /\ cfgDurationSeconds (videoConfig request) <> 0%Z
              /\ cfgNegativePrompt (videoConfig request) <> Some EmptyString
              /\ cfgReferenceImages (videoConfig request) <> Some []
              /\ (is_Some (videoVideo request) -> optMode options = Some extension)) as Hshape.
    { intros references Href [= <-]. cbn.
      split; [done|]. split; [done|].
      split; [by apply orElse_nonempty|]. split; [by apply orElse_nonempty|].
      split; [by apply orElse_nonempty|]. split.
      { destruct (optDurationSeconds options) as [d|]; [|done]. by case_bool_decide. }
      split.
      { destruct (optNegativePrompt options) as [n|]; [|done].
        destruct (truthy n) eqn:Hn; [|done]. intros [= ->]. discriminate Hn. }
      split; [exact Href|].
      case_bool_decide; [done|]. by intros [x Hx]. }
    destruct (optReferenceImages options) as [[|r refs]|].
    + by apply Hshape.
    + destruct (geminiService.referencesOf K (r :: refs)) as [l|e] eqn:Hl; [|done].
      apply Hshape. intros [= ->]. by apply referencesOf_length in Hl.
    + by apply Hshape.
Qed.

(** X21.  [pollVideoOperation] of the Gemini service always returns a
    status for the operation it was asked about: [COMPLETED] exactly when the
    operation is done, has a first generated video and its file is downloaded,
    then with a progress of 100 and a URL; [PROCESSING] exactly when the
    operation is read and not done, then with a progress of 50, whatever the
    number of polls; [FAILED], with an error, in every other case. *)
Theorem gemini_poll_status (K : GeminiSdk) (key operation : string) :
  let st := geminiService.pollVideoOperation K key operation in
  operationId st = Some operation
  /\ (videoStatus st = COMPLETED
      <-> exists op video file,
            ai_operations_get K operation = Resolved op /\ operationDone op = true
            /\ generatedVideo op = Some video /\ ai_files_download K video = Resolved file)
  /\ (videoStatus st = COMPLETED -> videoProgress st = Some 100%Z /\ is_Some (videoUrl st))
  /\ (videoStatus st = PROCESSING
      <-> exists op, ai_operations_get K operation = Resolved op /\ operationDone op = false)
  /\ (videoStatus st = PROCESSING -> videoProgress st = Some 50%Z)
  /\ (videoStatus st = FAILED -> is_Some (videoError st)).
Proof.
  intros st. unfold st, geminiService.pollVideoOperation.
  destruct (ai_operations_get K operation) as [op|err]; cbn.
  - destruct (operationDone op) eqn:Hdone; cbn.
    + destruct (generatedVideo op) as [video|] eqn:Hvideo; cbn.
      * destruct (ai_files_download K video) as [file|err] eqn:Hfile; cbn.
        -- split; [done|]. split; [split; [intros _; by exists op, video, file|done]|].
           split; [intros _; split; [done|by eexists]|].
           split; [split; [done|]|].
           { intros (op' & [= <-] & H). congruence. }
           split; done.
        -- split; [done|]. split; [split; [done|]|].
           { intros (op' & v' & f' & [= <-] & _ & Hv & Hf). congruence. }
           split; [done|]. split; [split; [done|]|].
           { intros (op' & [= <-] & H). congruence. }
           split; [done|]. intros _. by eexists.
      * split; [done|]. split; [split; [done|]|].
        { intros (op' & v' & f' & [= <-] & _ & Hv & _). congruence. }
        split; [done|]. split; [split; [done|]|].
        { intros (op' & [= <-] & H). congruence. }
        split; [done|]. intros _. by eexists.
    + split; [done|]. split; [split; [done|]|].
      { intros (op' & v' & f' & [= <-] & H & _). congruence. }
      split; [done|]. split; [split; [intros _; by exists op|done]|].
      split; done.
  - split; [done|]. split; [split; [done|]|].
    { intros (op' & v' & f' & H & _). discriminate H. }
    split; [done|]. split; [split; [done|]|].
    { intros (op' & H & _). discriminate H. }
    split; [done|]. intros _. by eexists.
Qed.

(** ** The video panel *)

Lemma referencesOf_panel K imgs :
  geminiService.referencesOf K (map referenceOf imgs)
  = Resolved (map (fun img => (img, Some "asset")) imgs).
Proof.
  induction imgs as [|img rest IH]; [done|].
  cbn [map geminiService.referencesOf referenceOf refImage refType]. by rewrite IH.
Qed.

Lemma panelSubmission_checked s options :
  panelSubmission s = inr options ->
  panelFound s = true
  /\ truthy (trim (panelPrompt s)) = true
  /\ (panelMode s = image_to_video -> is_Some (panelFirstFrame s))
  /\ (panelMode s = interpolation ->
      is_Some (panelFirstFrame s) /\ is_Some (panelLastFrame s))
  /\ (panelMode s = with_references -> panelReferenceImages s <> [])
  /\ (panelResolution s = "1080p" ->
      panelAspectRatio s = "16:9" /\ panelDurationSeconds s = 8%Z)
  /\ options
     = {| optPrompt := panelPrompt s;
          optNegativePrompt :=
            if truthy (trim (panelNegativePrompt s))
            then Some (trim (panelNegativePrompt s)) else None;
          optMode := Some (panelMode s);
          optResolution := Some (panelResolution s);
          optAspectRatio := Some (panelAspectRatio s);
          optDurationSeconds := Some (panelDurationSeconds s);
          optPersonGeneration := Some (panelPersonGeneration s);
          optSeed := panelSeed s;
          optFirstFrame :=
            if bool_decide (panelMode s = image_to_video)
               || bool_decide (panelMode s = interpolation)
            then panelFirstFrame s else None;
          optLastFrame :=
            if bool_decide (panelMode s = interpolation) then panelLastFrame s else None;
          optReferenceImages :=
            if bool_decide (panelMode s = with_references)
            then Some (map referenceOf (panelReferenceImages s)) else None;
          optExistingVideo := None |}.
Proof.
  unfold panelSubmission. cbn zeta.
  destruct (panelFound s); [|done]. cbn [negb].
  destruct (truthy (trim (panelPrompt s))) eqn:Hp; [|done]. cbn [negb].
  destruct (bool_decide (panelMode s = image_to_video)
            && negb (bool_decide (is_Some (panelFirstFrame s)))) eqn:H1; [done|].
  destruct (bool_decide (panelMode s = interpolation)
            && (negb (bool_decide (is_Some (panelFirstFrame s)))
                || negb (bool_decide (is_Some (panelLastFrame s))))) eqn:H2; [done|].
  destruct (bool_decide (panelMode s = with_references)
            && Nat.eqb (length (panelReferenceImages s)) 0) eqn:H3; [done|].
  destruct (bool_decide (panelResolution s = "1080p")
            && (negb (bool_decide (panelAspectRatio s = "16:9"))
                || negb (bool_decide (panelDurationSeconds s = 8%Z)))) eqn:H4; [done|].
  intros [= <-]. split; [done|]. split; [done|].
  split; [|split; [|split; [|split; [|done]]]].
  - intros Hm. apply andb_false_iff in H1 as [H|H].
    + by apply bool_decide_eq_false in H.
    + by apply negb_false_iff, bool_decide_eq_true in H.
  - intros Hm. apply andb_false_iff in H2 as [H|H].
    + by apply bool_decide_eq_false in H.
    + apply orb_false_iff in H as [Hf Hl].
      apply negb_false_iff, bool_decide_eq_true in Hf.
      apply negb_false_iff, bool_decide_eq_true in Hl. done.
  - intros Hm. apply andb_false_iff in H3 as [H|H].
    + by apply bool_decide_eq_false in H.
    + intros Heq. by rewrite Heq in H.
  - intros Hr. apply andb_false_iff in H4 as [H|H].
    + by apply bool_decide_eq_false in H.
    + apply orb_false_iff in H as [Ha Hd].
      apply negb_false_iff, bool_decide_eq_true in Ha.
      apply negb_false_iff, bool_decide_eq_true in Hd. done.
Qed.

(** X22.  Every submission the video panel lets through gives the Gemini
    service a request it can build, with the prompt of the form, which is not
    blank; a resolution of [1080p] only with the aspect ratio [16:9] and a
    duration of 8 seconds; a first frame in the image-to-video and
    interpolation modes, and a last frame in the interpolation mode; and the
    images of the form, in order, as reference images in the mode with
    references.  The request never carries a video to extend: in the
    extension mode it is the request of the text-to-video mode. *)
Theorem panel_video_request (K : GeminiSdk) (s : VideoPanel)
    (options : VideoGenerationOptions) :
  panelSubmission s = inr options ->
  exists request,
    geminiService.videoRequestOf K options = Resolved request
    /\ videoPrompt request = panelPrompt s /\ trim (panelPrompt s) <> EmptyString
    /\ videoVideo request = None
    /\ (cfgResolution (videoConfig request) = "1080p" ->
        cfgAspectRatio (videoConfig request) = "16:9"
        /\ cfgDurationSeconds (videoConfig request) = 8%Z)
    /\ (panelMode s = image_to_video -> is_Some (videoImage request))
    /\ (panelMode s = interpolation ->
        is_Some (videoImage request) /\ is_Some (cfgLastFrame (videoConfig request)))
    /\ (panelMode s = with_references ->
        cfgReferenceImages (videoConfig request)
        = Some (map (fun img => (img, Some "asset")) (panelReferenceImages s)))
    /\ (panelMode s = extension ->
        panelRequest K (withMode text_to_video s) = Some request).
Proof.
  intros Hsub.
  destruct (panelSubmission_checked s options Hsub)
    as (Hfound & Hp & Himg & Hint & Href & Hres & ->).
  clear Hsub.
  unfold geminiService.videoRequestOf.
  cbn [optReferenceImages optPrompt optAspectRatio optResolution optDurationSeconds
       optPersonGeneration optNegativePrompt optSeed optLastFrame optFirstFrame optMode
       optExistingVideo].
  assert (exists references,
            match (if bool_decide (panelMode s = with_references)
                   then Some (map referenceOf (panelReferenceImages s)) else None) with
            | Some (ref :: refs) =>
                match geminiService.referencesOf K (ref :: refs) with
                | Resolved l => Resolved (Some l)
                | Rejected e => Rejected e
                end
            | _ => Resolved None
            end = Resolved references
            /\ (panelMode s = with_references ->
                references
                = Some (map (fun img => (img, Some "asset")) (panelReferenceImages s)))
            /\ (panelMode s <> with_references -> references = None))
    as (references & -> & Hrefs & Hnone).
  { destruct (decide (panelMode s = with_references)) as [Hm|Hm];
      [rewrite (bool_decide_eq_true_2 _ Hm)|rewrite (bool_decide_eq_false_2 _ Hm)].
    - destruct (panelReferenceImages s) as [|img imgs] eqn:Hl; [by destruct (Href Hm)|].
      rewrite <- Hl.
      assert (map referenceOf (panelReferenceImages s)
              = referenceOf img :: map referenceOf imgs) as Hcons by (by rewrite Hl).
      rewrite Hcons, <- Hcons, referencesOf_panel.
      eexists. split; [reflexivity|]. split; [done|]. by intros H.
    - eexists. split; [reflexivity|]. split; [by intros H|done]. }
  eexists. split; [reflexivity|]. cbn.
  split; [done|]. split; [by apply truthy_nonempty|].
  split; [by case_bool_decide|].
  split.
  { unfold orElse. destruct (truthy (panelResolution s)) eqn:Hr; [|done].
    intros H1080. destruct (Hres H1080) as [-> ->]. done. }
  split.
  { intros Hm. rewrite (bool_decide_eq_true_2 _ Hm). cbn [orb]. by apply Himg. }
  split.
  { intros Hm. rewrite (bool_decide_eq_true_2 _ Hm).
    rewrite orb_true_r. by apply Hint. }
  split; [exact Hrefs|].
  intros Hm. rewrite (Hnone ltac:(rewrite Hm; discriminate)), Hm.
  unfold panelRequest, panelSubmission, withMode.
  cbn [panelFound panelMode panelPrompt panelNegativePrompt panelResolution
       panelAspectRatio panelDurationSeconds panelPersonGeneration panelSeed
       panelFirstFrame panelLastFrame panelReferenceImages].
  rewrite Hp, Hfound. cbn [negb].
  assert (bool_decide (panelResolution s = "1080p")
          && (negb (bool_decide (panelAspectRatio s = "16:9"))
              || negb (bool_decide (panelDurationSeconds s = 8%Z))) = false) as ->.
  { destruct (decide (panelResolution s = "1080p")) as [Hr|Hr].
    - destruct (Hres Hr) as [Ha Hd]. by rewrite !bool_decide_eq_true_2.
    - by rewrite (bool_decide_eq_false_2 _ Hr). }
  reflexivity.
Qed.

Lemma panel_video_witness :
  let K := sampleSdk (Rejected (ErrorObject "unused")) in
  let s := samplePanel extension "Continue the scene" [] in
  exists options request,
    panelSubmission s = inr options
    /\ geminiService.videoRequestOf K options = Resolved request
    /\ videoVideo request = None
    /\ panelRequest K (withMode text_to_video s) = Some request.
Proof.
  destruct (panel_video_request (sampleSdk (Rejected (ErrorObject "unused")))
              (samplePanel extension "Continue the scene" [])
              (submitted (samplePanel extension "Continue the scene" [])))
    as (request & Hrun & _ & _ & Hvideo & _ & _ & _ & _ & Hext).
  - reflexivity.
  - eexists _, request. split; [reflexivity|]. split; [exact Hrun|].
    split; [exact Hvideo|]. by apply Hext.
Defined.

(** X23.  A submission of the video panel in the mode with references is
    never started by the Arc-LLM service, whatever the key and the browser:
    the panel gives each reference image as an [image] with a reference type,
    and the validator of Arc-LLM reads the MIME type and the data at the top
    level of the element, where they are absent.  The generation fails with
    the error on the image format, or with the error on the number of images
    when there are more than three. *)
Theorem panel_references_are_refused_by_arc (B : Browser) (key : string) (s : VideoPanel)
    (options : VideoGenerationOptions) :
  panelSubmission s = inr options ->
  panelMode s = with_references ->
  let st := arcLLMService.generateVideo B key options in
  notStarted st
  /\ (3 < length (panelReferenceImages s) ->
      videoError st = Some "Maximum 3 reference images allowed")
  /\ (length (panelReferenceImages s) <= 3 ->
      videoError st = Some "Invalid image format (missing mimeType or data)").
Proof.
  intros Hsub Hm st.
  destruct (panelSubmission_checked s options Hsub)
    as (_ & Hp & _ & _ & Href & _ & Hopt).
  specialize (Href Hm).
  assert (arcLLMService.validateVideoRequest options
          = if (3 <? length (panelReferenceImages s))%nat
            then arcLLMService.invalid "Maximum 3 reference images allowed"
            else arcLLMService.invalid "Invalid image format (missing mimeType or data)")
    as Hv.
  { unfold arcLLMService.validateVideoRequest. rewrite Hopt.
    cbn [optPrompt optReferenceImages].
    rewrite (proj2 (blank_prompt_false (panelPrompt s)))
      by (by apply truthy_nonempty).
    rewrite (bool_decide_eq_true_2 _ Hm), length_map.
    destruct (3 <? length (panelReferenceImages s))%nat; [reflexivity|].
    destruct (panelReferenceImages s) as [|img imgs]; [done|]. reflexivity. }
  unfold st, arcLLMService.generateVideo, notStarted. rewrite Hv.
  destruct (3 <? length (panelReferenceImages s))%nat eqn:Hlen; cbn.
  - apply Nat.ltb_lt in Hlen. split; [split; [done|]; split; [done|]; by eexists|].
    split; [done|]. lia.
  - apply Nat.ltb_ge in Hlen. split; [split; [done|]; split; [done|]; by eexists|].
    split; [lia|done].
Qed.

Lemma panel_references_witness :
  let B := sampleBrowser (Some "arc-key") in
  let img := {| imageMimeType := "image/png"; imageBytes := "aW1n" |} in
  let s := samplePanel with_references "A cat like this one" [img] in
  exists options,
    panelSubmission s = inr options
    /\ notStarted (arcLLMService.generateVideo B "arc-key" options)
    /\ videoError (arcLLMService.generateVideo B "arc-key" options)
       = Some "Invalid image format (missing mimeType or data)".
Proof.
  destruct (panel_references_are_refused_by_arc (sampleBrowser (Some "arc-key")) "arc-key"
              (samplePanel with_references "A cat like this one"
                 [{| imageMimeType := "image/png"; imageBytes := "aW1n" |}])
              (submitted
                 (samplePanel with_references "A cat like this one"
                    [{| imageMimeType := "image/png"; imageBytes := "aW1n" |}])))
    as (Hnot & _ & Hformat).
  - reflexivity.
  - reflexivity.
  - eexists. split; [reflexivity|]. split; [exact Hnot|]. apply Hformat. cbn. lia.
Defined.

(** ** What Gemini is sent of a history *)

Lemma formatMessage_roles G msg cs :
  geminiService.formatMessage G msg = Resolved cs ->
  map role cs = option_list (roleFor msg)
  /\ (sender msg = user -> map firstText cs = [Some (text msg)]).
Proof.
  unfold geminiService.formatMessage, roleFor.
  destruct (sender msg).
  - intros [= <-]. split; [done|]. intros _. cbn.
    destruct (image msg) as [img|]; [|done]. destruct (mimeType msg) as [mime|]; [|done].
    by destruct (truthy img && truthy mime).
  - destruct (toolCalls msg) as [[|tc tcs]|].
    + destruct (truthy (text msg)); by intros [= <-].
    + destruct (geminiService.functionCallParts G (tc :: tcs)); [|done]. by intros [= <-].
    + destruct (truthy (text msg)); by intros [= <-].
  - destruct (toolName msg) as [name|]; [|by intros [= <-]].
    destruct (truthy name); [|by intros [= <-]].
    destruct (JSON_parse G (text msg)); [|done]. by intros [= <-].
Qed.

Lemma omap_option_list {A B : Type} (f : A -> option B) (l : list A) :
  omap f l = concat (map (fun x => option_list (f x)) l).
Proof.
  induction l as [|x l IH]; [done|]. cbn. rewrite <- IH. by destruct (f x).
Qed.

Lemma omap_users_none (r : string) (cs : list Content) :
  r <> "user" -> Forall (fun c => role c = r) cs ->
  omap (fun c => if bool_decide (role c = "user") then firstText c else None) cs = [].
Proof.
  intros Hr Hall. induction Hall as [|c l Hc _ IH]; [done|].
  cbn [omap list_omap]. rewrite Hc, (bool_decide_eq_false_2 _ Hr). exact IH.
Qed.

(** X24.  When the history can be formatted, what Gemini is sent is, in the
    order of the history, one content for every user message, with the role
    [user] and the text of the message first; one content with the role
    [model] for every agent message that has tool calls or a text; one
    content with the role [function] for every tool result that has a tool
    name; and nothing for the other messages, which are dropped: agent
    messages without text and tool calls, tool results without a tool name. *)
Theorem gemini_history_roles (G : GeminiEnv) (history : list ChatMessage)
    (cs : list Content) :
  geminiService.formatHistory G history = Resolved cs ->
  map role cs = omap roleFor history
  /\ length cs <= length history
  /\ omap (fun c => if bool_decide (role c = "user") then firstText c else None) cs
     = map text (List.filter (fun m => bool_decide (sender m = user)) history).
Proof.
  revert cs. induction history as [|msg rest IH]; intros cs.
  - intros [= <-]. done.
  - cbn [geminiService.formatHistory].
    destruct (geminiService.formatMessage G msg) as [c0|e] eqn:Hmsg; [|done].
    destruct (geminiService.formatHistory G rest) as [cs'|e]; [|done].
    intros [= <-]. destruct (IH cs' eq_refl) as (Hroles & Hlen & Husers).
    destruct (formatMessage_roles G msg c0 Hmsg) as (Hr0 & Hu0).
    assert (length c0 <= 1) as Hl0.
    { rewrite <- (length_map role), Hr0. destruct (roleFor msg); cbn; lia. }
    split; [|split].
    + rewrite map_app, Hr0, Hroles. cbn [omap list_omap]. by destruct (roleFor msg).
    + rewrite length_app. cbn [length]. lia.
    + rewrite omap_app, Husers. cbn [List.filter].
      destruct (sender msg) eqn:Hs.
      * rewrite bool_decide_eq_true_2 by done. cbn [map].
        specialize (Hu0 eq_refl). unfold roleFor in Hr0. rewrite Hs in Hr0.
        destruct c0 as [|c [|c' l]]; try done. cbn in Hr0, Hu0. injection Hr0 as Hr0.
        injection Hu0 as Hu0. cbn [omap list_omap]. rewrite Hr0. cbn. by rewrite Hu0.
      * rewrite bool_decide_eq_false_2 by done.
        unfold roleFor in Hr0. rewrite Hs in Hr0.
        assert (Forall (fun c => role c = "model") c0) as Hmodel.
        { apply Forall_forall. intros c Hc.
          assert (role c ∈ map role c0) as Hin by (by apply list_elem_of_fmap_2).
          rewrite Hr0 in Hin.
          destruct (toolCalls msg) as [[|? ?]|]; try destruct (truthy (text msg));
            cbn in Hin; try (by apply elem_of_nil in Hin);
            by apply list_elem_of_singleton in Hin. }
        by rewrite (omap_users_none "model" c0 ltac:(discriminate) Hmodel).
      * rewrite bool_decide_eq_false_2 by done.
        unfold roleFor in Hr0. rewrite Hs in Hr0.
        assert (Forall (fun c => role c = "function") c0) as Hfunction.
        { apply Forall_forall. intros c Hc.
          assert (role c ∈ map role c0) as Hin by (by apply list_elem_of_fmap_2).
          rewrite Hr0 in Hin.
          destruct (toolName msg) as [name|]; try destruct (truthy name);
            cbn in Hin; try (by apply elem_of_nil in Hin);
            by apply list_elem_of_singleton in Hin. }
        by rewrite (omap_users_none "function" c0 ltac:(discriminate) Hfunction).
Qed.

Lemma gemini_history_witness :
  let G := sampleGemini (Resolved {| sdkChunks := []; sdkFailure := None |}) in
  exists cs,
    geminiService.formatHistory G mixedHistory = Resolved cs
    /\ map role cs = ["user"; "model"; "function"].
Proof.
  eexists. split; [reflexivity|].
  refine (proj1 (gemini_history_roles
                   (sampleGemini (Resolved {| sdkChunks := []; sdkFailure := None |}))
                   mixedHistory _ _)).
  reflexivity.
Defined.

(** ** The calls of a submission, counted *)

Lemma count_app test evs1 evs2 : count test (evs1 ++ evs2) = count test evs1 + count test evs2.
Proof. unfold count. by rewrite List.filter_app, length_app. Qed.

Lemma count_tools test tcs :
  (forall tc, test (ToolRun tc) = false) -> count test (map ToolRun tcs) = 0.
Proof.
  intros Htest. unfold count. induction tcs as [|tc rest IH]; [done|].
  cbn [map List.filter]. by rewrite Htest.
Qed.

Lemma count_tool_runs tcs : count isToolRun (map ToolRun tcs) = length tcs.
Proof.
  unfold count. induction tcs as [|tc rest IH]; [done|]. cbn. by rewrite IH.
Qed.

Lemma toolPhase_counts a key post :
  toolPhase a key post ->
  count isStreamCall post <= 1 /\ count isCompleteCall post = 0
  /\ count isToolRun post + count isStreamCall post = length post.
Proof.
  intros [->|(tcs & _ & [(_ & h & ->)|(_ & ->)])].
  - unfold count. cbn. lia.
  - rewrite !count_app, count_tool_runs, !count_tools, length_app, length_map by done.
    unfold count. cbn. lia.
  - rewrite count_tool_runs, !count_tools, length_map by done. lia.
Qed.

(** X25.  A submission, whatever it is and however it ends, makes at most
    one completion call and at most two stream calls, and nothing else but
    tool runs; the completion call, when there is one, is the first call of
    the submission, and no tool is run before a stream call was made. *)
Theorem submission_call_budget (E : Env) (nodeId : string) (a : option Agent) (w : World) :
  let evs := eventsSince w (submit E nodeId a w) in
  count isCompleteCall evs <= 1
  /\ count isStreamCall evs <= 2
  /\ count isCompleteCall evs + count isStreamCall evs + count isToolRun evs = length evs
  /\ (forall i ev, evs !! i = Some ev -> isCompleteCall ev = true -> i = 0)
  /\ (forall i ev, evs !! i = Some ev -> isToolRun ev = true ->
      exists j call, j < i /\ evs !! j = Some call /\ isStreamCall call = true).
Proof.
  intros evs.
  assert (evs = []
          \/ (exists pre p post,
                evs = pre ++ p :: post
                /\ (pre = [] \/ exists c, pre = [c] /\ isCompleteCall c = true)
                /\ isStreamCall p = true
                /\ count isStreamCall post <= 1 /\ count isCompleteCall post = 0
                /\ count isToolRun post + count isStreamCall post = length post)
          \/ (exists c, evs = [c] /\ isCompleteCall c = true)) as Hshape.
  { unfold evs. destruct a as [a|].
    2:{ left. unfold eventsSince, submit, handleSendMessage. cbn [render dataAgent].
        destruct (_ && _); cbn [finalWorld async_ret]; by rewrite drop_all. }
    destruct (accepted_dec E a w) as [(um & cfg & Hacc)|Hno];
      [|left; by apply submit_refused].
    destruct (submit_events E nodeId a w um cfg Hacc) as (pre & rest & -> & Hpre & Hrest).
    destruct Hrest as [->|(post & -> & Hphase)].
    - rewrite app_nil_r. destruct Hpre as [->|(sc & hc & ->)]; [by left|].
      right; right. by eexists.
    - right; left. exists pre, (primaryCall a cfg (getSession w nodeId ++ [um])), post.
      split; [done|]. split.
      { destruct Hpre as [->|(sc & hc & ->)]; [by left|right; by eexists]. }
      split; [done|]. by apply (toolPhase_counts a (apiKey cfg)). }
  destruct Hshape as [->|[(pre & p & post & -> & Hpre & Hp & Hs & Hc & Hlen)
                         |(c & -> & Hc)]].
  - unfold count. cbn [List.filter length]. split; [lia|]. split; [lia|]. split; [lia|].
    split; intros i ev H; by rewrite lookup_nil in H.
  - assert (isCompleteCall p = false) as Hpc by (by destruct p).
    assert (isToolRun p = false) as Hpt by (by destruct p).
    assert (count isCompleteCall (p :: post) = 0) as Hc'.
    { unfold count in *. cbn [List.filter]. by rewrite Hpc. }
    assert (count isStreamCall (p :: post) = S (count isStreamCall post)) as Hs'.
    { unfold count in *. cbn [List.filter]. by rewrite Hp. }
    assert (count isToolRun (p :: post) = count isToolRun post) as Ht'.
    { unfold count in *. cbn [List.filter]. by rewrite Hpt. }
    assert (count isCompleteCall pre <= 1 /\ count isStreamCall pre = 0
            /\ count isToolRun pre = 0 /\ count isCompleteCall pre = length pre) as Hpre'.
    { destruct Hpre as [->|(c & -> & Hc1)]; [unfold count; cbn; lia|].
      unfold count. cbn [List.filter]. rewrite Hc1. destruct c; cbn in *; try done; lia. }
    destruct Hpre' as (Hp1 & Hp2 & Hp3 & Hp4).
    rewrite !count_app, Hc', Hs', Ht', Hp2, Hp3, length_app. cbn [length].
    split; [lia|]. split; [lia|]. split; [lia|]. split.
    + intros i ev Hi Hev.
      destruct (decide (i < length pre)) as [Hlt|Hge].
      * destruct Hpre as [->|(c & -> & _)]; cbn in Hlt; lia.
      * exfalso. rewrite lookup_app_r in Hi by lia.
        destruct (i - length pre) as [|k] eqn:Hk; cbn in Hi.
        -- injection Hi as <-. congruence.
        -- assert (ev ∈ List.filter isCompleteCall post) as Hin.
           { apply filter_elem_of. split; [|exact Hev]. by apply list_elem_of_lookup_2 in Hi. }
           unfold count in Hc. apply length_zero_iff_nil in Hc. rewrite Hc in Hin.
           by apply elem_of_nil in Hin.
    + intros i ev Hi Hev. exists (length pre), p.
      split; [|split; [|exact Hp]].
      * destruct (decide (i < length pre)) as [Hlt|Hge].
        -- rewrite lookup_app_l in Hi by exact Hlt.
           destruct Hpre as [->|(c & -> & Hc1)]; [cbn in Hlt; lia|].
           destruct i; [|cbn in Hlt; lia]. cbn in Hi. injection Hi as <-. by destruct c.
        -- rewrite lookup_app_r in Hi by lia.
           destruct (i - length pre) as [|k] eqn:Hk; [|lia].
           cbn in Hi. injection Hi as <-. congruence.
      * rewrite lookup_app_r by lia. by rewrite Nat.sub_diag.
  - unfold count. cbn [List.filter]. rewrite Hc.
    assert (isStreamCall c = false /\ isToolRun c = false) as [-> ->] by (by destruct c).
    cbn. split; [lia|]. split; [lia|]. split; [lia|]. split.
    + intros [|i] ev Hi _; [done|]. cbn in Hi. discriminate Hi.
    + intros [|i] ev Hi Hev; [|cbn in Hi; discriminate Hi].
      cbn in Hi. injection Hi as <-. by destruct c.
Qed.

(** ** The attachment of a submission *)

(** X26.  When the attachment of a submission is read, the user message
    keeps its id, its sender and its text, takes the name and the type of the
    file, and carries the file in exactly one way: as an image, from the
    base64 reading, for every agent but those of Mistral and for a Mistral
    agent whose file cannot be read as text; or as file content, from the text
    reading, for a Mistral agent.  The other field is left as it was. *)
Theorem attachment_is_carried_one_way (a : Agent) (f : File) (um m : ChatMessage) :
  attachFile a (Some f) um = Resolved m ->
  msgId m = msgId um /\ sender m = sender um /\ text m = text um
  /\ filename m = Some (fileName f) /\ mimeType m = Some (fileType f)
  /\ ((exists c, fileAsBase64 f = Resolved c /\ image m = Some c
                 /\ fileContent m = fileContent um
                 /\ (llmProvider a = Mistral -> exists e, fileAsText f = Rejected e))
      \/ (exists c, llmProvider a = Mistral /\ fileAsText f = Resolved c
                    /\ fileContent m = Some c /\ image m = image um)).
Proof.
  unfold attachFile. cbn zeta.
  destruct (decide (llmProvider a = Mistral)) as [Hm|Hm].
  - rewrite (bool_decide_eq_true_2 _ Hm).
    destruct (fileAsText f) as [c|e] eqn:Htext.
    + intros [= <-]. repeat (split; [reflexivity|]). right. by exists c.
    + destruct (fileAsBase64 f) as [c|e64]; [|done].
      intros [= <-]. repeat (split; [reflexivity|]). left. exists c.
      repeat (split; [reflexivity|]). intros _. by exists e.
  - rewrite (bool_decide_eq_false_2 _ Hm).
    destruct (fileAsBase64 f) as [c|e64]; [|done].
    intros [= <-]. repeat (split; [reflexivity|]). left. exists c.
    repeat (split; [reflexivity|]). done.
Qed.

Lemma attachment_witness :
  let um := plainMessage "msg-1700000000000" user "see this" in
  exists m,
    attachFile mistralAgent (Some readableFile) um = Resolved m
    /\ text m = "see this" /\ filename m = Some "notes.txt"
    /\ fileContent m = Some "hello" /\ image m = None.
Proof.
  eexists. split; [reflexivity|].
  destruct (attachment_is_carried_one_way mistralAgent readableFile
              (plainMessage "msg-1700000000000" user "see this") _ eq_refl)
    as (_ & _ & Htext & Hname & _ & _).
  split; [exact Htext|]. split; [exact Hname|]. split; reflexivity.
Defined.
